(** * Lexer for the Rat25F language: a shallow embedding of [lexer_rat25f.py]

    The Python class [Lexer] holds an immutable text, its length [n] and a
    cursor [i].  Methods are rendered as functions from a lexer state to a
    result paired with the new state.  A Python [str] is a list of Unicode
    code points; the one-character strings returned by [peek] (and the empty
    string it returns past the end) are lists of length one (resp. zero). *)

From Stdlib Require Import String Ascii.
From Stdlib Require Import List Bool Arith NArith Lia.
Import ListNotations.

Set Implicit Arguments.

(** ** Strings *)

Definition char := N.
Definition str := list char.

(** A string literal of the source, as the list of its code points. *)
Definition lit (s : string) : str :=
  List.map N_of_ascii (list_ascii_of_string s).

Definition dquote : str := [34%N].
Definition newline : str := [10%N].

(** [a == b] on strings. *)
Fixpoint str_eqb (a b : str) : bool :=
  match a, b with
  | [], [] => true
  | x :: a', y :: b' => N.eqb x y && str_eqb a' b'
  | _, _ => false
  end.

Fixpoint is_prefix (a b : str) : bool :=
  match a, b with
  | [], _ => true
  | x :: a', y :: b' => N.eqb x y && is_prefix a' b'
  | _ :: _, [] => false
  end.

(** [a in b] for two strings: [a] occurs in [b] as a substring. *)
Fixpoint str_in (a b : str) : bool :=
  is_prefix a b || match b with
                   | [] => false
                   | _ :: b' => str_in a b'
                   end.

(** [x in S] for a set or tuple of strings. *)
Definition mem (x : str) (S : list str) : bool := existsb (str_eqb x) S.

(** [s[a:b]] for non-negative indices. *)
Definition slice (s : str) (a b : nat) : str := firstn (b - a) (skipn a s).

(** ** Character classes

    [str.isalpha], [str.isdigit], [str.isalnum] and [str.isspace] follow the
    Unicode character database.  Their values on ASCII are fixed below; the
    classification of the code points from 128 on is a parameter of the
    development; the only facts used about it are that none of its letters
    is a digit and none is white space. *)

Class UnicodeDB := {
  uni_isalpha : char -> bool;
  uni_isdigit : char -> bool;
  uni_isalnum : char -> bool;
  uni_isspace : char -> bool;
  (** No letter of the database is a digit or white space. *)
  uni_alpha_not_digit : forall c, uni_isalpha c = true -> uni_isdigit c = false;
  uni_alpha_not_space : forall c, uni_isalpha c = true -> uni_isspace c = false
}.

Definition between (lo hi c : N) : bool := (N.leb lo c && N.leb c hi)%bool.

Definition ascii_isalpha (c : char) : bool :=
  between 65 90 c || between 97 122 c.

Definition ascii_isdigit (c : char) : bool := between 48 57 c.

Definition ascii_isalnum (c : char) : bool :=
  ascii_isalpha c || ascii_isdigit c.

(** Tab, line feed, vertical tab, form feed, carriage return, the four
    information separators and the space. *)
Definition ascii_isspace (c : char) : bool :=
  between 9 13 c || between 28 32 c.

(** The database that classifies no code point from 128 on. *)
Definition ascii_db : UnicodeDB :=
  {| uni_isalpha := fun _ => false;
     uni_isdigit := fun _ => false;
     uni_isalnum := fun _ => false;
     uni_isspace := fun _ => false;
     uni_alpha_not_digit := fun _ _ => eq_refl;
     uni_alpha_not_space := fun _ _ => eq_refl |}.

Section Lexer.

Context {db : UnicodeDB}.

Definition chr_isalpha (c : char) : bool :=
  if N.ltb c 128 then ascii_isalpha c else uni_isalpha c.
Definition chr_isdigit (c : char) : bool :=
  if N.ltb c 128 then ascii_isdigit c else uni_isdigit c.
Definition chr_isalnum (c : char) : bool :=
  if N.ltb c 128 then ascii_isalnum c else uni_isalnum c.
Definition chr_isspace (c : char) : bool :=
  if N.ltb c 128 then ascii_isspace c else uni_isspace c.

(** The string methods: true when the string is not empty and every
    character is in the class. *)
Definition all_chars (p : char -> bool) (s : str) : bool :=
  match s with
  | [] => false
  | _ :: _ => forallb p s
  end.

Definition isalpha := all_chars chr_isalpha.
Definition isdigit := all_chars chr_isdigit.
Definition isalnum := all_chars chr_isalnum.
Definition isspace := all_chars chr_isspace.

(** ** Tokens and tables *)

Inductive TokenType :=
| KEYWORD | IDENTIFIER | INTEGER | REAL | OPERATOR
| SEPARATOR | STRING | COMMENT | EOF | UNKNOWN.

Definition Token := (TokenType * str)%type.

Definition TokenType_eqb (a b : TokenType) : bool :=
  match a, b with
  | KEYWORD, KEYWORD | IDENTIFIER, IDENTIFIER | INTEGER, INTEGER
  | REAL, REAL | OPERATOR, OPERATOR | SEPARATOR, SEPARATOR
  | STRING, STRING | COMMENT, COMMENT | EOF, EOF | UNKNOWN, UNKNOWN => true
  | _, _ => false
  end.

Definition KEYWORDS : list str :=
  List.map lit
    ["while"; "if"; "else"; "for"; "int"; "float"; "bool"; "true"; "false";
     "function"; "return"; "read"; "write"; "then"; "fi"; "do"; "od"]%string.

Definition SEPARATORS : list str :=
  List.map lit ["("; ")"; "{"; "}"; "["; "]"; ","; ";"; ":"]%string.

Definition MULTI_CHAR_OPS : list str :=
  List.map lit ["<="; ">="; "=="; "!="; "&&"; "||"]%string.

Definition SINGLE_CHAR_OPS : list str :=
  List.map lit ["+"; "-"; "*"; "/"; "%"; "="; "<"; ">"; "!"]%string.

Definition is_letter (ch : str) : bool := isalpha ch.
Definition is_digit (ch : str) : bool := isdigit ch.
Definition is_alnum (ch : str) : bool := isalnum ch.

(** ** The lexer state

    [self.text] and [self.n] are assigned once, in [__init__], and never
    again: the state carries the text, and [n] is its length. *)

Record Lexer := mkLexer { text : str; i : nat }.

Definition Lexer_init (t : str) : Lexer := {| text := t; i := 0 |}.

Definition n (lx : Lexer) : nat := length (text lx).

Definition set_i (lx : Lexer) (v : nat) : Lexer :=
  {| text := text lx; i := v |}.

(** [peek] is called with the offsets [0] and [1] only, and the cursor
    never goes below [0]: the offset is a natural number here, and an index
    below [0], which Python would count from the end of the text, does not
    arise. *)
Definition peek (lx : Lexer) (k : nat) : str :=
  let idx := i lx + k in
  if idx <? n lx then
    match nth_error (text lx) idx with
    | Some c => [c]
    | None => []
    end
  else [].

Definition advance (lx : Lexer) (steps : nat) : Lexer :=
  set_i lx (i lx + steps).

Definition eof (lx : Lexer) : bool := n lx <=? i lx.

(** ** Loops

    [while guard: body], where the body either finishes (and the guard is
    tested again) or leaves the loop by [break] ([None]).  Every loop of the
    lexer tests [not self.eof()] in its guard and moves the cursor one
    character forward per round, so [n - i] rounds are enough
    ([while_loop_exit] below). *)

Fixpoint while_fuel (fuel : nat) (guard : Lexer -> bool)
         (body : Lexer -> option Lexer) (lx : Lexer) : Lexer :=
  match fuel with
  | O => lx
  | S fuel' =>
      if guard lx then
        match body lx with
        | Some lx' => while_fuel fuel' guard body lx'
        | None => lx
        end
      else lx
  end.

Definition while_loop (guard : Lexer -> bool) (body : Lexer -> option Lexer)
           (lx : Lexer) : Lexer :=
  while_fuel (n lx - i lx) guard body lx.

Definition step1 (lx : Lexer) : option Lexer := Some (advance lx 1).

(** ** Methods of [Lexer] *)

Definition skip_whitespace (lx : Lexer) : Lexer :=
  while_loop (fun l => negb (eof l) && isspace (peek l 0)) step1 lx.

Definition skip_comments (lx : Lexer) : option Token * Lexer :=
  if str_eqb (peek lx 0) (lit "/") && str_eqb (peek lx 1) (lit "/") then
    let start := i lx in
    let lx1 :=
      while_loop (fun l => negb (eof l) && negb (str_eqb (peek l 0) newline))
                 step1 lx in
    let lexeme := slice (text lx1) start (i lx1) in
    (Some (COMMENT, lexeme), lx1)
  else if str_eqb (peek lx 0) (lit "/") && str_eqb (peek lx 1) (lit "*") then
    let start := i lx in
    let lx1 := advance lx 2 in
    let lx2 :=
      while_loop (fun l => negb (eof l) &&
                           negb (str_eqb (peek l 0) (lit "*") &&
                                 str_eqb (peek l 1) (lit "/")))
                 step1 lx1 in
    let lx3 := if negb (eof lx2) then advance lx2 2 else lx2 in
    let lexeme := slice (text lx3) start (i lx3) in
    (Some (COMMENT, lexeme), lx3)
  else (None, lx).

Definition lex_identifier (lx : Lexer) : option Token * Lexer :=
  if negb (is_letter (peek lx 0)) then (None, lx)
  else
    let start := i lx in
    let lx1 := advance lx 1 in
    let lx2 :=
      while_loop (fun l => negb (eof l))
                 (fun l => let ch := peek l 0 in
                           if is_alnum ch || str_eqb ch (lit "_")
                           then Some (advance l 1)
                           else None)
                 lx1 in
    let lexeme := slice (text lx2) start (i lx2) in
    if mem lexeme KEYWORDS then (Some (KEYWORD, lexeme), lx2)
    else (Some (IDENTIFIER, lexeme), lx2).

(** [while not self.eof() and is_digit(self.peek()): self.advance()], which
    [lex_integer] has once and [lex_real] three times. *)
Definition scan_digits (lx : Lexer) : Lexer :=
  while_loop (fun l => negb (eof l) && is_digit (peek l 0)) step1 lx.

Definition lex_integer (lx : Lexer) : option Token * Lexer :=
  if negb (is_digit (peek lx 0)) then (None, lx)
  else
    let start := i lx in
    if str_eqb (peek lx 0) (lit "0") then
      let lx1 := advance lx 1 in
      if negb (str_eqb (peek lx1 0) (lit ".")) then
        (Some (INTEGER, slice (text lx1) start (i lx1)), lx1)
      else (None, set_i lx1 start)
    else if str_in (peek lx 0) (lit "123456789") then
      let lx1 := advance lx 1 in
      let lx2 := scan_digits lx1 in
      if str_eqb (peek lx2 0) (lit ".") then (None, set_i lx2 start)
      else (Some (INTEGER, slice (text lx2) start (i lx2)), lx2)
    else (None, lx).

Definition lex_real (lx : Lexer) : option Token * Lexer :=
  let start := i lx in
  let i0 := i lx in
  if negb (is_digit (peek lx 0)) then (None, lx)
  else
    let lx1 := scan_digits lx in
    if negb (str_eqb (peek lx1 0) (lit ".")) then (None, set_i lx1 i0)
    else
      let lx2 := advance lx1 1 in
      if negb (is_digit (peek lx2 0)) then (None, set_i lx2 i0)
      else
        let lx3 := scan_digits lx2 in
        if mem (peek lx3 0) [lit "e"; lit "E"] then
          let lx4 := advance lx3 1 in
          let lx5 := if mem (peek lx4 0) [lit "+"; lit "-"]
                     then advance lx4 1 else lx4 in
          if negb (is_digit (peek lx5 0)) then (None, set_i lx5 i0)
          else
            let lx6 := scan_digits lx5 in
            (Some (REAL, slice (text lx6) start (i lx6)), lx6)
        else (Some (REAL, slice (text lx3) start (i lx3)), lx3).

Definition lex_string (lx : Lexer) : option Token * Lexer :=
  if negb (str_eqb (peek lx 0) dquote) then (None, lx)
  else
    let start := i lx in
    let lx1 := advance lx 1 in
    let lx2 :=
      while_loop (fun l => negb (eof l) && negb (str_eqb (peek l 0) dquote))
                 (fun l => if str_eqb (peek l 0) newline then None
                           else Some (advance l 1))
                 lx1 in
    let lx3 := if str_eqb (peek lx2 0) dquote then advance lx2 1 else lx2 in
    (Some (STRING, slice (text lx3) start (i lx3)), lx3).

Definition lex_operator_or_separator (lx : Lexer) : option Token * Lexer :=
  let two := peek lx 0 ++ peek lx 1 in
  if mem two MULTI_CHAR_OPS then
    let tok := (OPERATOR, two) in
    (Some tok, advance lx 2)
  else
    let ch := peek lx 0 in
    if mem ch SINGLE_CHAR_OPS then
      let tok := (OPERATOR, ch) in
      (Some tok, advance lx 1)
    else if mem ch SEPARATORS then
      let tok := (SEPARATOR, ch) in
      (Some tok, advance lx 1)
    else (None, lx).

(** The recognizers of the dispatch loop, in the order of the [for]. *)
Definition recognizers : list (Lexer -> option Token * Lexer) :=
  [lex_real; lex_integer; lex_identifier; lex_string;
   lex_operator_or_separator].

(** [for fn in fns: here = self.i; tok = fn(); if tok is not None: return
    tok; else: self.i = here].  [None] when the loop runs to its end. *)
Fixpoint try_each (fns : list (Lexer -> option Token * Lexer)) (lx : Lexer)
  : option Token * Lexer :=
  match fns with
  | [] => (None, lx)
  | fn :: rest =>
      let here := i lx in
      match fn lx with
      | (Some tok, lx') => (Some tok, lx')
      | (None, lx') => try_each rest (set_i lx' here)
      end
  end.

(** Every path through the body of [while not self.eof()] in [next_token]
    ends in [return] or [break]: the body runs at most once. *)
Definition next_token (lx : Lexer) : Token * Lexer :=
  if negb (eof lx) then
    let lx1 := skip_whitespace lx in
    match skip_comments lx1 with
    | (Some com, lx2) => (com, lx2)
    | (None, lx2) =>
        if eof lx2 then ((EOF, []), lx2)
        else
          match try_each recognizers lx2 with
          | (Some tok, lx3) => (tok, lx3)
          | (None, lx3) =>
              let ch := peek lx3 0 in
              ((UNKNOWN, ch), advance lx3 1)
          end
    end
  else ((EOF, []), lx).

(** ** Driving the lexer

    Calling [next_token] again and again until it returns [EOF], collecting
    every token, the final [EOF] included.  [None] when [fuel] calls did not
    reach [EOF]. *)
Fixpoint run (fuel : nat) (lx : Lexer) : option (list Token) :=
  match fuel with
  | O => None
  | S fuel' =>
      let '(tok, lx') := next_token lx in
      if TokenType_eqb (fst tok) EOF then Some [tok]
      else option_map (cons tok) (run fuel' lx')
  end.

Definition tokenize (t : str) : option (list Token) :=
  run (S (length t)) (Lexer_init t).

(** The lexer after [k] calls of [next_token]. *)
Fixpoint after_calls (k : nat) (lx : Lexer) : Lexer :=
  match k with
  | O => lx
  | S k' => after_calls k' (snd (next_token lx))
  end.

(** ** The driver [lex_file]

    [tok.name.lower()], the first column of a row. *)
Definition name_lower (tok : TokenType) : string :=
  match tok with
  | KEYWORD => "keyword" | IDENTIFIER => "identifier"
  | INTEGER => "integer" | REAL => "real"
  | OPERATOR => "operator" | SEPARATOR => "separator"
  | STRING => "string" | COMMENT => "comment"
  | EOF => "eof" | UNKNOWN => "unknown"
  end%string.

Definition Row := (string * str)%type.

(** How [lex_file] ends.  Its [while True] has no [break]: the statement
    under [if tok == TokenType.EOF] is the bare name [brea], which is bound
    nowhere, so evaluating it raises [NameError]; the rows collected so far
    are kept here to tell what the loop had done. *)
Inductive LexFileEnd := RaisedNameError (rows : list Row).

(** The loop of [lex_file] on the lexer [lx], with the rows collected so
    far; [None] when [fuel] rounds did not end it. *)
Fixpoint lex_file_loop (fuel : nat) (lx : Lexer) (rows : list Row)
  : option LexFileEnd :=
  match fuel with
  | O => None
  | S fuel' =>
      let '((tok, lex), lx') := next_token lx in
      if TokenType_eqb tok EOF then Some (RaisedNameError rows)
      else if TokenType_eqb tok COMMENT then lex_file_loop fuel' lx' rows
      else lex_file_loop fuel' lx' (rows ++ [(name_lower tok, lex)])
  end.

(** [lex_file] from the text it has read from [in_path]. *)
Definition lex_file (t : str) : option LexFileEnd :=
  lex_file_loop (S (length t)) (Lexer_init t) [].

(** ** Vocabulary of the statements *)

(** The unread part of the text. *)
Definition rest (lx : Lexer) : str := skipn (i lx) (text lx).

(** How many characters a scanning loop reads from [s], when [f] tells from
    the unread text whether the loop goes one more round. *)
Fixpoint scan_len (f : str -> bool) (s : str) : nat :=
  match s with
  | [] => 0
  | _ :: s' => if f s then S (scan_len f s') else 0
  end.

(** The longest prefix of [s] whose characters all satisfy [p]. *)
Fixpoint take_while (p : char -> bool) (s : str) : str :=
  match s with
  | [] => []
  | c :: s' => if p c then c :: take_while p s' else []
  end.

Definition is_some {A} (o : option A) : bool :=
  match o with Some _ => true | None => false end.

(** The first character of [s], if any, fails [p]: a run of [p] ends
    there. *)
Definition stops (p : char -> bool) (s : str) : Prop :=
  match s with
  | [] => True
  | c :: _ => p c = false
  end.

Definition is_dot (c : char) : bool := N.eqb c 46.

(** The text [r] has the closing marker of a block comment at [j]. *)
Definition closes_at (r : str) (j : nat) : Prop :=
  slice r j (j + 2) = lit "*/".

(** The characters a string literal goes on with: all but the double quote
    and the line feed. *)
Definition string_char (c : char) : bool :=
  negb (N.eqb c 34) && negb (N.eqb c 10).

(** The characters an identifier goes on with. *)
Definition ident_char (c : char) : bool := chr_isalnum c || N.eqb c 95.

(** One of the digits [1] to [9]. *)
Definition nonzero_digit (d : char) : Prop := In d (lit "123456789").

(** The round conditions of the six loops, read off the unread text. *)
Definition f_space (s : str) : bool := isspace (firstn 1 s).
Definition f_line (s : str) : bool := negb (str_eqb (firstn 1 s) newline).
Definition f_block (s : str) : bool :=
  negb (str_eqb (firstn 1 s) (lit "*") &&
        str_eqb (firstn 1 (skipn 1 s)) (lit "/")).
Definition f_ident (s : str) : bool :=
  is_alnum (firstn 1 s) || str_eqb (firstn 1 s) (lit "_").
Definition f_digit (s : str) : bool := is_digit (firstn 1 s).
Definition f_string (s : str) : bool :=
  negb (str_eqb (firstn 1 s) dquote) && negb (str_eqb (firstn 1 s) newline).

(** What a recognizer may do at [lx]: return a token whose lexeme is the
    text between the old and the new cursor, at least one character long
    and inside the text, or return nothing and leave the lexer as it was. *)
Definition span_ok (lx : Lexer) (r : option Token * Lexer) : Prop :=
  match r with
  | (Some (kind, lexeme), lx') =>
      kind <> EOF /\
      text lx' = text lx /\ i lx < i lx' /\ i lx' <= n lx /\
      lexeme = slice (text lx) (i lx) (i lx')
  | (None, lx') => lx' = lx
  end.

Definition blank (g : str) : Prop := Forall (fun c => chr_isspace c = true) g.

(** What one call of [next_token] does at [lx]: it skips the white space
    from [i lx] to [s], the cursor of [skip_whitespace lx], and returns as
    lexeme the text from [s] to the new cursor; the lexeme of a token other
    than [EOF] is not empty, and [EOF] is returned with the empty lexeme at
    end of input only. *)
Definition call_ok (lx : Lexer) (kind : TokenType) (lexeme : str)
           (lx' : Lexer) : Prop :=
  let s := i (skip_whitespace lx) in
  text lx' = text lx /\
  i lx <= s /\ s <= i lx' /\ i lx' <= Nat.max (i lx) (n lx) /\
  blank (slice (text lx) (i lx) s) /\
  lexeme = slice (text lx) s (i lx') /\
  (kind <> EOF -> s < i lx') /\
  (kind = EOF -> lexeme = [] /\ i lx' = s /\ eof lx' = true).

(** [gaps] and [lexemes] taken in turn, a gap first. *)
Fixpoint interleave (gaps lexemes : list str) : str :=
  match gaps, lexemes with
  | g :: gaps', l :: lexemes' => g ++ l ++ interleave gaps' lexemes'
  | _, _ => []
  end.

(** The tokens [toks] cut the text [t] from position [pos] on: each lexeme
    is the text between two positions, only white space lies between the
    end of a lexeme and the start of the next, and the last token ends
    where the text ends. *)
Fixpoint partition_at (t : str) (pos : nat) (toks : list Token) : Prop :=
  match toks with
  | [] => pos = length t
  | (_, lexeme) :: toks' =>
      exists s,
        pos <= s /\ blank (slice t pos s) /\
        s + length lexeme <= length t /\
        lexeme = slice t s (s + length lexeme) /\
        partition_at t (s + length lexeme) toks'
  end.

(** The calls of [next_token] that return [toks], from [lx] on.  Each call
    skips the longest run of white space at the cursor, which is what
    [skip_whitespace] skips, and returns as lexeme the text from there to
    the new cursor, no more and no less; the lexeme does not start with
    white space, and the text stays as it is.  After the last call nothing
    is left to read. *)
Fixpoint consumed_by (lx : Lexer) (toks : list Token) : Prop :=
  match toks with
  | [] => eof lx = true
  | tok :: toks' =>
      let gap := take_while chr_isspace (rest lx) in
      let lx' := snd (next_token lx) in
      fst (next_token lx) = tok /\
      text lx' = text lx /\
      i (skip_whitespace lx) = i lx + length gap /\
      i lx' = i lx + length gap + length (snd tok) /\
      snd tok = slice (text lx) (i lx + length gap) (i lx') /\
      stops chr_isspace (snd tok) /\
      consumed_by lx' toks'
  end.

(** The white space that these calls skip, call by call. *)
Fixpoint skipped (lx : Lexer) (toks : list Token) : list str :=
  match toks with
  | [] => []
  | _ :: toks' =>
      take_while chr_isspace (rest lx) :: skipped (snd (next_token lx)) toks'
  end.

(** ** Vocabulary of the further properties *)

(** The lexer [lx] with the text [pre] put before its text, the cursor at
    the same character as before. *)
Definition reloc (pre : str) (lx : Lexer) : Lexer :=
  mkLexer (pre ++ text lx) (length pre + i lx).

(** A result of a recognizer, its lexer moved by [reloc]. *)
Definition reloc_result {A} (pre : str) (r : A * Lexer) : A * Lexer :=
  (fst r, reloc pre (snd r)).

(** A run of digits that is not empty. *)
Definition digits1 (s : str) : Prop :=
  s <> [] /\ forallb chr_isdigit s = true.

(** The letter that opens an exponent, and the sign it may have. *)
Definition is_exp (c : char) : bool := N.eqb c 101 || N.eqb c 69.
Definition is_sign (c : char) : bool := N.eqb c 43 || N.eqb c 45.

(** With the cursor of the text [t] first at [k]: the characters [pre] have
    been read since, and [post] is unread. *)
Definition read_since (t : str) (k : nat) (pre post : str) : Prop :=
  skipn k t = pre ++ post.

(** The characters a line comment goes on with: all but the line feed. *)
Definition line_char (c : char) : bool := negb (N.eqb c 10).

(** The forms of the lexemes, kind by kind. *)
Definition ident_shape (w : str) : Prop :=
  exists l tail,
    w = l :: tail /\ chr_isalpha l = true /\ forallb ident_char tail = true.

Definition integer_shape (w : str) : Prop :=
  w = lit "0" \/
  exists d ds,
    w = d :: ds /\ nonzero_digit d /\ forallb chr_isdigit ds = true.

Definition exponent_shape (ex : str) : Prop :=
  ex = [] \/
  exists e sign dp,
    ex = e :: sign ++ dp /\ is_exp e = true /\
    In sign [[]; lit "+"; lit "-"] /\ digits1 dp.

Definition real_shape (w : str) : Prop :=
  exists ip fp ex,
    w = ip ++ lit "." ++ fp ++ ex /\
    digits1 ip /\ digits1 fp /\ exponent_shape ex.

Definition string_shape (w : str) : Prop :=
  exists body close,
    w = dquote ++ body ++ close /\ forallb string_char body = true /\
    (close = [] \/ close = dquote).

Definition comment_shape (w : str) : Prop :=
  (exists body, w = lit "//" ++ body /\ forallb line_char body = true) \/
  (exists body, w = lit "/*" ++ body).

Definition token_shape (kind : TokenType) (w : str) : Prop :=
  match kind with
  | KEYWORD => ident_shape w /\ mem w KEYWORDS = true
  | IDENTIFIER => ident_shape w /\ mem w KEYWORDS = false
  | INTEGER => integer_shape w
  | REAL => real_shape w
  | OPERATOR => mem w MULTI_CHAR_OPS = true \/ mem w SINGLE_CHAR_OPS = true
  | SEPARATOR => mem w SEPARATORS = true
  | STRING => string_shape w
  | COMMENT => comment_shape w
  | EOF => w = []
  | UNKNOWN => length w = 1
  end.

(** The rows of the tokens that are neither comments nor [EOF]. *)
Definition rows_of (toks : list Token) : list Row :=
  map (fun tok => (name_lower (fst tok), snd tok))
      (filter (fun tok => negb (TokenType_eqb (fst tok) EOF) &&
                          negb (TokenType_eqb (fst tok) COMMENT))
              toks).

(** The operators and the separators, all tables together. *)
Definition TABLES : list str :=
  MULTI_CHAR_OPS ++ SINGLE_CHAR_OPS ++ SEPARATORS.

Definition is_slash_or_star (c : char) : bool := N.eqb c 47 || N.eqb c 42.

(** Proof steps that come back: the fields of a lexer written out, and the
    parts of [span_ok] at a token. *)
Ltac fields := unfold advance, set_i, n; cbn [text i negb].

Ltac span_done :=
  cbv zeta; fields;
  split; [discriminate |
  split; [reflexivity | split; [lia | split; [lia | reflexivity]]]].

(** ** Strings and slices *)

Lemma str_eqb_eq (a b : str) : str_eqb a b = true <-> a = b.
Proof.
  revert b; induction a as [|x a IH]; intros [|y b]; simpl;
    try (split; (discriminate || reflexivity)).
  rewrite andb_true_iff, N.eqb_eq, IH.
  split; [intros [-> ->]; reflexivity | intros H; inversion H; auto].
Qed.

Lemma str_eqb_refl (a : str) : str_eqb a a = true.
Proof. apply str_eqb_eq; reflexivity. Qed.

Lemma str_eqb_neq (a b : str) : str_eqb a b = false <-> a <> b.
Proof.
  split.
  - intros H E. apply str_eqb_eq in E. congruence.
  - intros H. destruct (str_eqb a b) eqn:E; [|reflexivity].
    apply str_eqb_eq in E. contradiction.
Qed.

Lemma mem_In (x : str) (S : list str) : mem x S = true <-> In x S.
Proof.
  unfold mem. rewrite existsb_exists. split.
  - intros (y & Hy & E). apply str_eqb_eq in E. subst. exact Hy.
  - intros H. exists x. split; [exact H | apply str_eqb_refl].
Qed.

Lemma firstn_add {A} (m k : nat) (l : list A) :
  firstn (m + k) l = firstn m l ++ firstn k (skipn m l).
Proof.
  revert l; induction m as [|m IH]; intros [|x l]; simpl;
    try rewrite firstn_nil; try reflexivity.
  f_equal. apply IH.
Qed.

Lemma slice_skipn (t : str) (a m : nat) :
  slice t a (a + m) = firstn m (skipn a t).
Proof. unfold slice. f_equal. lia. Qed.

Lemma slice_same (t : str) (a : nat) : slice t a a = [].
Proof. unfold slice. rewrite Nat.sub_diag. reflexivity. Qed.

Lemma slice_app (t : str) (a b c : nat) :
  a <= b -> b <= c -> slice t a b ++ slice t b c = slice t a c.
Proof.
  intros Hab Hbc. unfold slice.
  replace (c - a) with ((b - a) + (c - b)) by lia.
  rewrite firstn_add, skipn_skipn.
  replace (b - a + a) with b by lia. reflexivity.
Qed.

Lemma slice_length (t : str) (a b : nat) :
  b <= length t -> length (slice t a b) = b - a.
Proof.
  intros H. unfold slice. rewrite length_firstn, length_skipn. lia.
Qed.

Lemma slice_to_end (t : str) (a b : nat) :
  length t <= b -> slice t a b = skipn a t.
Proof.
  intros H. unfold slice. apply firstn_all2. rewrite length_skipn. lia.
Qed.

(** ** The cursor *)

Lemma peek_skipn (t : str) (k j : nat) :
  peek (mkLexer t k) j = firstn 1 (skipn (k + j) t).
Proof.
  unfold peek, n; simpl.
  destruct (Nat.ltb_spec (k + j) (length t)) as [H|H].
  - rewrite <- hd_error_skipn. destruct (skipn (k + j) t); reflexivity.
  - rewrite skipn_all2 by lia. reflexivity.
Qed.

Lemma peek0_skipn (t : str) (k : nat) :
  peek (mkLexer t k) 0 = firstn 1 (skipn k t).
Proof. rewrite peek_skipn, Nat.add_0_r. reflexivity. Qed.

Lemma peek_slice (lx : Lexer) (j : nat) :
  peek lx j = slice (text lx) (i lx + j) (i lx + j + 1).
Proof. destruct lx as [t k]. rewrite peek_skipn, slice_skipn. reflexivity. Qed.

Lemma eof_skipn (t : str) (k : nat) :
  eof (mkLexer t k) = match skipn k t with [] => true | _ :: _ => false end.
Proof.
  unfold eof, n; simpl.
  destruct (Nat.leb_spec (length t) k) as [H|H].
  - rewrite skipn_all2 by lia. reflexivity.
  - destruct (skipn k t) eqn:E; [|reflexivity].
    apply skipn_all_iff in E. lia.
Qed.

Lemma eof_false (lx : Lexer) : eof lx = false <-> i lx < n lx.
Proof. unfold eof. rewrite Nat.leb_gt. reflexivity. Qed.

Lemma eof_true (lx : Lexer) : eof lx = true <-> n lx <= i lx.
Proof. unfold eof. rewrite Nat.leb_le. reflexivity. Qed.

Lemma skipn_S_cons (t : str) (k : nat) (c : char) (s : str) :
  skipn k t = c :: s -> skipn (S k) t = s.
Proof.
  intros H. replace (S k) with (1 + k) by lia.
  rewrite <- skipn_skipn, H. reflexivity.
Qed.

Lemma skipn_cons_lt (t : str) (k : nat) (c : char) (s : str) :
  skipn k t = c :: s -> length s + S k = length t.
Proof.
  intros H. assert (L := length_skipn k t). rewrite H in L. simpl in L.
  lia.
Qed.

(** ** Loops *)

Lemma scan_len_le (f : str -> bool) (s : str) : scan_len f s <= length s.
Proof.
  induction s as [|c s IH]; simpl; [lia|]. destruct (f (c :: s)); lia.
Qed.

(** Where the scan stops there is no text left, or [f] fails. *)
Lemma scan_len_stop (f : str -> bool) (r : str) :
  skipn (scan_len f r) r <> [] -> f (skipn (scan_len f r) r) = false.
Proof.
  induction r as [|c r IH]; [intros H; contradiction H; reflexivity|].
  cbn [scan_len]. destruct (f (c :: r)) eqn:E.
  - exact IH.
  - intros _. exact E.
Qed.

(** A loop whose guard fails at end of input and whose body moves one
    character forward reads [scan_len f] characters; [n - i] rounds, or any
    larger number, are enough for it. *)
Lemma while_fuel_scan guard body (f : str -> bool) :
  (forall t k, guard (mkLexer t k) && is_some (body (mkLexer t k))
               = negb (eof (mkLexer t k)) && f (skipn k t)) ->
  (forall l l', body l = Some l' -> l' = advance l 1) ->
  forall fuel t k, length t - k <= fuel ->
    while_fuel fuel guard body (mkLexer t k)
    = mkLexer t (k + scan_len f (skipn k t)).
Proof.
  intros Hg Hb. induction fuel as [|fuel IH]; intros t k Hf.
  - simpl. rewrite skipn_all2 by lia. simpl. f_equal. lia.
  - simpl. specialize (Hg t k). rewrite eof_skipn in Hg.
    destruct (skipn k t) as [|c s] eqn:Es; simpl in *.
    + rewrite andb_false_iff in Hg.
      destruct Hg as [-> | Hg]; [f_equal; lia|].
      destruct (guard _); [|f_equal; lia].
      destruct (body _); [discriminate | f_equal; lia].
    + destruct (f (c :: s)) eqn:Ef.
      * apply andb_true_iff in Hg. destruct Hg as [-> Hs].
        destruct (body _) as [l'|] eqn:Eb; [|discriminate].
        apply Hb in Eb. subst l'. unfold advance, set_i; simpl.
        assert (L := skipn_cons_lt _ _ Es).
        rewrite IH by lia.
        replace (k + 1) with (S k) by lia.
        rewrite (skipn_S_cons _ _ Es). f_equal. lia.
      * rewrite andb_false_iff in Hg.
        destruct Hg as [-> | Hg]; [f_equal; lia|].
        destruct (guard _); [|f_equal; lia].
        destruct (body _); [discriminate | f_equal; lia].
Qed.

Lemma while_loop_scan guard body (f : str -> bool) :
  (forall t k, guard (mkLexer t k) && is_some (body (mkLexer t k))
               = negb (eof (mkLexer t k)) && f (skipn k t)) ->
  (forall l l', body l = Some l' -> l' = advance l 1) ->
  forall t k,
    while_loop guard body (mkLexer t k)
    = mkLexer t (k + scan_len f (skipn k t)).
Proof.
  intros Hg Hb t k. unfold while_loop, n; simpl.
  apply while_fuel_scan; auto.
Qed.

Lemma skip_whitespace_eq (t : str) (k : nat) :
  skip_whitespace (mkLexer t k)
  = mkLexer t (k + scan_len f_space (skipn k t)).
Proof.
  unfold skip_whitespace. apply while_loop_scan.
  - intros t' k'. rewrite peek0_skipn. unfold step1; simpl.
    rewrite andb_true_r. reflexivity.
  - unfold step1. intros l l' H. congruence.
Qed.

Lemma scan_digits_eq (t : str) (k : nat) :
  scan_digits (mkLexer t k)
  = mkLexer t (k + scan_len f_digit (skipn k t)).
Proof.
  unfold scan_digits. apply while_loop_scan.
  - intros t' k'. rewrite peek0_skipn. unfold step1; simpl.
    rewrite andb_true_r. reflexivity.
  - unfold step1. intros l l' H. congruence.
Qed.

Lemma line_loop_eq (t : str) (k : nat) :
  while_loop (fun l => negb (eof l) && negb (str_eqb (peek l 0) newline))
             step1 (mkLexer t k)
  = mkLexer t (k + scan_len f_line (skipn k t)).
Proof.
  apply while_loop_scan.
  - intros t' k'. rewrite peek0_skipn. unfold step1; simpl.
    rewrite andb_true_r. reflexivity.
  - unfold step1. intros l l' H. congruence.
Qed.

Lemma block_loop_eq (t : str) (k : nat) :
  while_loop (fun l => negb (eof l) &&
                       negb (str_eqb (peek l 0) (lit "*") &&
                             str_eqb (peek l 1) (lit "/")))
             step1 (mkLexer t k)
  = mkLexer t (k + scan_len f_block (skipn k t)).
Proof.
  apply while_loop_scan.
  - intros t' k'. rewrite peek0_skipn, peek_skipn. unfold step1; simpl.
    rewrite andb_true_r. unfold f_block.
    rewrite skipn_skipn. replace (1 + k') with (k' + 1) by lia.
    reflexivity.
  - unfold step1. intros l l' H. congruence.
Qed.

Lemma ident_loop_eq (t : str) (k : nat) :
  while_loop (fun l => negb (eof l))
             (fun l => let ch := peek l 0 in
                       if is_alnum ch || str_eqb ch (lit "_")
                       then Some (advance l 1)
                       else None)
             (mkLexer t k)
  = mkLexer t (k + scan_len f_ident (skipn k t)).
Proof.
  apply while_loop_scan.
  - intros t' k'. cbv zeta. rewrite peek0_skipn. unfold f_ident.
    destruct (_ || _); reflexivity.
  - cbv zeta. intros l l' H. destruct (_ || _); congruence.
Qed.

Lemma string_loop_eq (t : str) (k : nat) :
  while_loop (fun l => negb (eof l) && negb (str_eqb (peek l 0) dquote))
             (fun l => if str_eqb (peek l 0) newline then None
                       else Some (advance l 1))
             (mkLexer t k)
  = mkLexer t (k + scan_len f_string (skipn k t)).
Proof.
  apply while_loop_scan.
  - intros t' k'. rewrite peek0_skipn. unfold f_string.
    destruct (str_eqb _ newline); simpl;
      rewrite <- andb_assoc; simpl; rewrite ?andb_true_r, ?andb_false_r;
      reflexivity.
  - intros l l' H. destruct (str_eqb _ newline); congruence.
Qed.

(** Such a loop ends where its guard fails or its body breaks: it never
    runs out of rounds. *)
Lemma while_loop_exit guard body (f : str -> bool) :
  (forall t k, guard (mkLexer t k) && is_some (body (mkLexer t k))
               = negb (eof (mkLexer t k)) && f (skipn k t)) ->
  (forall l l', body l = Some l' -> l' = advance l 1) ->
  forall lx,
    let r := while_loop guard body lx in
    guard r && is_some (body r) = false.
Proof.
  intros Hg Hb [t k]. cbv zeta.
  rewrite (while_loop_scan _ _ f Hg Hb), Hg, eof_skipn.
  rewrite Nat.add_comm, <- skipn_skipn.
  assert (Hstop := @scan_len_stop f (skipn k t)).
  destruct (skipn (scan_len f (skipn k t)) (skipn k t)); [reflexivity|].
  rewrite Hstop by discriminate. apply andb_false_r.
Qed.

(** ** Bounds *)

Lemma scan_bound (f : str -> bool) (t : str) (a : nat) :
  a + scan_len f (skipn a t) <= Nat.max a (length t).
Proof.
  assert (H := scan_len_le f (skipn a t)). rewrite length_skipn in H. lia.
Qed.

Lemma peek_len (t : str) (a : nat) :
  length (firstn 1 (skipn a t)) = Nat.min 1 (length t - a).
Proof. rewrite length_firstn, length_skipn. reflexivity. Qed.

Lemma all_chars_len (p : char -> bool) (x : str) :
  all_chars p x = true -> 1 <= length x.
Proof. destruct x; simpl; [discriminate | lia]. Qed.

Lemma str_eqb_len (a b : str) : str_eqb a b = true -> length a = length b.
Proof. intros H. apply str_eqb_eq in H. subst. reflexivity. Qed.

Lemma mem_len (L : nat) (x : str) (S : list str) :
  forallb (fun y => length y =? L) S = true -> mem x S = true ->
  length x = L.
Proof.
  intros HS Hx. apply mem_In in Hx.
  rewrite forallb_forall in HS. apply HS in Hx.
  apply Nat.eqb_eq in Hx. exact Hx.
Qed.

(** From a test on [peek] that only a character can pass, the cursor is
    inside the text. *)
Lemma peek_digit_lt (t : str) (a : nat) :
  is_digit (firstn 1 (skipn a t)) = true -> a < length t.
Proof.
  intros H. apply all_chars_len in H. rewrite peek_len in H. lia.
Qed.

Lemma peek_letter_lt (t : str) (a : nat) :
  is_letter (firstn 1 (skipn a t)) = true -> a < length t.
Proof.
  intros H. apply all_chars_len in H. rewrite peek_len in H. lia.
Qed.

Lemma peek_char_lt (t : str) (a : nat) (c : char) :
  str_eqb (firstn 1 (skipn a t)) [c] = true -> a < length t.
Proof.
  intros H. apply str_eqb_len in H. rewrite peek_len in H.
  change (length [c]) with 1 in H. lia.
Qed.

Lemma peek_mem_lt (t : str) (a : nat) (S : list str) :
  forallb (fun y => length y =? 1) S = true ->
  mem (firstn 1 (skipn a t)) S = true -> a < length t.
Proof.
  intros HS H. apply (@mem_len 1 _ _ HS) in H. rewrite peek_len in H. lia.
Qed.

(** ** Every recognizer returns the text it read, or nothing *)

Lemma lex_identifier_ok (lx : Lexer) : span_ok lx (lex_identifier lx).
Proof.
  destruct lx as [t k]. unfold lex_identifier, span_ok.
  rewrite peek0_skipn.
  destruct (is_letter _) eqn:E; cbn [negb]; [|reflexivity].
  apply peek_letter_lt in E.
  fields. rewrite ident_loop_eq.
  assert (B := scan_bound f_ident t (k + 1)).
  cbv zeta. destruct (mem _ KEYWORDS); span_done.
Qed.

Lemma lex_integer_ok (lx : Lexer) : span_ok lx (lex_integer lx).
Proof.
  destruct lx as [t k]. unfold lex_integer, span_ok.
  rewrite peek0_skipn.
  destruct (is_digit _) eqn:E; cbn [negb]; [|reflexivity].
  apply peek_digit_lt in E. cbv zeta.
  destruct (str_eqb _ (lit "0")).
  - fields. rewrite peek0_skipn.
    destruct (str_eqb _ (lit ".")); cbn [negb]; [reflexivity|].
    span_done.
  - destruct (str_in _ _); [|reflexivity].
    fields. rewrite scan_digits_eq, peek0_skipn.
    assert (B := scan_bound f_digit t (k + 1)).
    destruct (str_eqb _ (lit ".")); [reflexivity|].
    span_done.
Qed.

Lemma lex_string_ok (lx : Lexer) : span_ok lx (lex_string lx).
Proof.
  destruct lx as [t k]. unfold lex_string, span_ok.
  rewrite peek0_skipn.
  destruct (str_eqb _ dquote) eqn:E; cbn [negb]; [|reflexivity].
  apply peek_char_lt in E.
  fields. rewrite string_loop_eq, peek0_skipn.
  assert (B := scan_bound f_string t (k + 1)).
  destruct (str_eqb _ dquote) eqn:E2.
  - apply peek_char_lt in E2. span_done.
  - span_done.
Qed.

Lemma lex_real_ok (lx : Lexer) : span_ok lx (lex_real lx).
Proof.
  destruct lx as [t k]. unfold lex_real, span_ok. cbv zeta.
  rewrite peek0_skipn.
  destruct (is_digit _) eqn:E; cbn [negb]; [|reflexivity].
  apply peek_digit_lt in E.
  rewrite scan_digits_eq.
  assert (B1 := scan_bound f_digit t k).
  set (k1 := k + scan_len f_digit (skipn k t)) in *.
  rewrite peek0_skipn.
  destruct (str_eqb _ (lit ".")) eqn:E1; cbn [negb]; [|reflexivity].
  apply peek_char_lt in E1.
  fields. rewrite peek0_skipn.
  destruct (is_digit (firstn 1 (skipn (k1 + 1) t))) eqn:E2;
    cbn [negb]; [|reflexivity].
  rewrite scan_digits_eq.
  assert (B2 := scan_bound f_digit t (k1 + 1)).
  set (k2 := k1 + 1 + scan_len f_digit (skipn (k1 + 1) t)) in *.
  rewrite peek0_skipn.
  destruct (mem _ [lit "e"; lit "E"]) eqn:E3; [|span_done].
  apply peek_mem_lt in E3; [|reflexivity].
  fields. rewrite peek0_skipn.
  destruct (mem _ [lit "+"; lit "-"]) eqn:E4.
  - apply peek_mem_lt in E4; [|reflexivity].
    fields. rewrite peek0_skipn.
    destruct (is_digit (firstn 1 (skipn (k2 + 1 + 1) t))) eqn:E5;
      cbn [negb]; [|reflexivity].
    rewrite scan_digits_eq.
    assert (B3 := scan_bound f_digit t (k2 + 1 + 1)).
    span_done.
  - rewrite peek0_skipn.
    destruct (is_digit (firstn 1 (skipn (k2 + 1) t))) eqn:E5;
      cbn [negb]; [|reflexivity].
    rewrite scan_digits_eq.
    assert (B3 := scan_bound f_digit t (k2 + 1)).
    span_done.
Qed.

Lemma two_chars (t : str) (k : nat) :
  length (firstn 1 (skipn k t) ++ firstn 1 (skipn (k + 1) t)) = 2 ->
  k + 2 <= length t /\
  firstn 1 (skipn k t) ++ firstn 1 (skipn (k + 1) t) = slice t k (k + 2).
Proof.
  intros H. rewrite length_app, !peek_len in H.
  split; [lia|].
  rewrite <- (slice_app t (a := k) (b := k + 1) (c := k + 2)) by lia.
  rewrite (slice_skipn t k 1).
  replace (k + 2) with (k + 1 + 1) by lia.
  rewrite (slice_skipn t (k + 1) 1). reflexivity.
Qed.

Lemma lex_operator_or_separator_ok (lx : Lexer) :
  span_ok lx (lex_operator_or_separator lx).
Proof.
  destruct lx as [t k]. unfold lex_operator_or_separator, span_ok. cbv zeta.
  rewrite peek0_skipn, peek_skipn.
  destruct (mem _ MULTI_CHAR_OPS) eqn:E2.
  - apply (@mem_len 2) in E2; [|reflexivity].
    apply two_chars in E2. destruct E2 as [L E2]. rewrite E2.
    fields. split; [discriminate |
    split; [reflexivity | split; [lia | split; [lia | reflexivity]]]].
  - destruct (mem _ SINGLE_CHAR_OPS) eqn:E1.
    + apply peek_mem_lt in E1; [|reflexivity].
      fields. rewrite <- slice_skipn.
      split; [discriminate |
  split; [reflexivity | split; [lia | split; [lia | reflexivity]]]].
    + destruct (mem _ SEPARATORS) eqn:E0; [|reflexivity].
      apply peek_mem_lt in E0; [|reflexivity].
      fields. rewrite <- slice_skipn.
      split; [discriminate |
  split; [reflexivity | split; [lia | split; [lia | reflexivity]]]].
Qed.

Lemma skip_comments_ok (lx : Lexer) : span_ok lx (skip_comments lx).
Proof.
  destruct lx as [t k]. unfold skip_comments, span_ok. cbv zeta.
  rewrite peek0_skipn, peek_skipn.
  set (p0 := firstn 1 (skipn k t)).
  set (p1 := firstn 1 (skipn (k + 1) t)).
  destruct (str_eqb p0 (lit "/")) eqn:E0; cbn [andb]; [|reflexivity].
  assert (L0 := E0). apply peek_char_lt in L0.
  destruct (str_eqb p1 (lit "/")) eqn:E1.
  - rewrite line_loop_eq.
    assert (B := scan_bound f_line t k).
    assert (1 <= scan_len f_line (skipn k t)).
    { destruct (skipn k t) as [|c s] eqn:Es.
      - apply skipn_all_iff in Es. lia.
      - cbn [scan_len]. destruct (f_line (c :: s)) eqn:Ef; [lia|].
        unfold f_line in Ef.
        apply negb_false_iff, str_eqb_eq in Ef.
        unfold p0 in E0. rewrite Ef in E0. discriminate E0. }
    span_done.
  - destruct (str_eqb p1 (lit "*")) eqn:E2; [|reflexivity].
    apply peek_char_lt in E2.
    fields. rewrite block_loop_eq.
    assert (B := scan_bound f_block t (k + 2)).
    assert (Ef := @scan_len_stop f_block (skipn (k + 2) t)).
    rewrite skipn_skipn in Ef.
    rewrite (Nat.add_comm _ (k + 2)) in Ef.
    set (k2 := k + 2 + scan_len f_block (skipn (k + 2) t)) in *.
    rewrite eof_skipn.
    destruct (skipn k2 t) as [|c s] eqn:Es; cbn [negb].
    + span_done.
    + specialize (Ef ltac:(discriminate)). rewrite <- Es in Ef.
      unfold f_block in Ef. apply negb_false_iff, andb_true_iff in Ef.
      destruct Ef as [_ Ef]. rewrite skipn_skipn in Ef.
      apply peek_char_lt in Ef.
      span_done.
Qed.

(** ** The dispatch loop and [next_token] *)

Lemma set_i_same (lx : Lexer) : set_i lx (i lx) = lx.
Proof. destruct lx; reflexivity. Qed.

Lemma try_each_ok fns :
  Forall (fun fn => forall l, span_ok l (fn l)) fns ->
  forall lx, span_ok lx (try_each fns lx).
Proof.
  induction 1 as [|fn fns Hfn _ IH]; intros lx; cbn [try_each].
  - reflexivity.
  - specialize (Hfn lx). destruct (fn lx) as [[tok|] lx'].
    + exact Hfn.
    + cbn [span_ok] in Hfn. subst lx'. rewrite set_i_same. apply IH.
Qed.

Lemma recognizers_ok :
  Forall (fun fn => forall l, span_ok l (fn l)) recognizers.
Proof.
  unfold recognizers.
  repeat constructor; intros l;
    [apply lex_real_ok | apply lex_integer_ok | apply lex_identifier_ok
    | apply lex_string_ok | apply lex_operator_or_separator_ok].
Qed.

Lemma scan_space_blank (s : str) : blank (firstn (scan_len f_space s) s).
Proof.
  induction s as [|c s IH]; [constructor|].
  cbn [scan_len]. destruct (f_space (c :: s)) eqn:E; [|constructor].
  cbn [firstn]. constructor; [|exact IH].
  unfold f_space, isspace in E. cbn in E.
  rewrite andb_true_r in E. exact E.
Qed.

Lemma next_token_ok (lx : Lexer) kind lexeme lx' :
  next_token lx = ((kind, lexeme), lx') -> call_ok lx kind lexeme lx'.
Proof.
  destruct lx as [t k]. unfold next_token, call_ok. cbv zeta.
  rewrite skip_whitespace_eq. fields.
  assert (Bw := scan_bound f_space t k).
  assert (Hw := scan_space_blank (skipn k t)).
  rewrite <- slice_skipn in Hw.
  set (m := scan_len f_space (skipn k t)) in *.
  destruct (eof {| text := t; i := k |}) eqn:Ee; cbn [negb].
  - intros H; inversion H; subst; clear H. cbn [text i].
    apply eof_true in Ee. unfold n in Ee; cbn [text i] in Ee.
    assert (m = 0).
    { unfold m. rewrite skipn_all2 by lia. reflexivity. }
    replace (k + m) with k in * by lia.
    rewrite slice_same.
    split; [reflexivity|]. do 3 (split; [lia|]).
    split; [constructor|]. split; [reflexivity|].
    split; [intros C; contradiction C; reflexivity|].
    intros _. split; [reflexivity|]. split; [reflexivity|].
    apply eof_true. unfold n; cbn [text i]. lia.
  - apply eof_false in Ee. unfold n in Ee; cbn [text i] in Ee.
    assert (Hc := skip_comments_ok {| text := t; i := k + m |}).
    destruct (skip_comments _) as [[[ck cl]|] lx2]; cbn [span_ok] in Hc.
    + intros H; inversion H; subst; clear H.
      unfold n in Hc; cbn [text i] in Hc.
      destruct Hc as (Hk & Ht & Hlt & Hle & Hl).
      split; [exact Ht|]. do 3 (split; [lia|]).
      split; [exact Hw|]. split; [exact Hl|].
      split; [intros _; exact Hlt | intros C; contradiction].
    + subst lx2.
      destruct (eof {| text := t; i := k + m |}) eqn:Ee2.
      * intros H; inversion H; subst; clear H. cbn [text i].
        rewrite slice_same.
        split; [reflexivity|]. do 3 (split; [lia|]).
        split; [exact Hw|]. split; [reflexivity|].
        split; [intros C; contradiction C; reflexivity|].
        intros _. split; [reflexivity|]. split; [reflexivity|]. exact Ee2.
      * apply eof_false in Ee2. unfold n in Ee2; cbn [text i] in Ee2.
        assert (Hr := try_each_ok recognizers_ok {| text := t; i := k + m |}).
        destruct (try_each _ _) as [[[rk rl]|] lx3]; cbn [span_ok] in Hr.
        -- intros H; inversion H; subst; clear H.
           unfold n in Hr; cbn [text i] in Hr.
           destruct Hr as (Hk & Ht & Hlt & Hle & Hl).
           split; [exact Ht|]. do 3 (split; [lia|]).
           split; [exact Hw|]. split; [exact Hl|].
           split; [intros _; exact Hlt | intros C; contradiction].
        -- subst lx3. intros H; inversion H; subst; clear H.
           rewrite peek_slice. fields. rewrite Nat.add_0_r.
           split; [reflexivity|]. do 3 (split; [lia|]).
           split; [exact Hw|]. split; [reflexivity|].
           split; [intros _; lia | intros C; discriminate C].
Qed.

(** ** Scanning a known text *)

Lemma skipn_after (t : str) (k a : nat) (s : str) :
  skipn k t = s -> skipn (k + a) t = skipn a s.
Proof. intros <-. rewrite Nat.add_comm, skipn_skipn. reflexivity. Qed.

Lemma skipn_length_app {A} (l r : list A) : skipn (length l) (l ++ r) = r.
Proof. induction l; simpl; auto. Qed.

Lemma firstn_length_app {A} (l r : list A) : firstn (length l) (l ++ r) = l.
Proof. induction l; simpl; [reflexivity | f_equal; auto]. Qed.

Lemma f_space_cons c s : f_space (c :: s) = chr_isspace c.
Proof. unfold f_space, isspace. cbn. apply andb_true_r. Qed.

Lemma f_digit_cons c s : f_digit (c :: s) = chr_isdigit c.
Proof. unfold f_digit, is_digit, isdigit. cbn. apply andb_true_r. Qed.

Lemma f_line_cons c s : f_line (c :: s) = negb (N.eqb c 10).
Proof. unfold f_line. cbn. rewrite andb_true_r. reflexivity. Qed.

Lemma f_string_cons c s :
  f_string (c :: s) = negb (N.eqb c 34) && negb (N.eqb c 10).
Proof. unfold f_string. cbn. rewrite !andb_true_r. reflexivity. Qed.

Lemma f_ident_cons c s :
  f_ident (c :: s) = chr_isalnum c || N.eqb c 95.
Proof.
  unfold f_ident, is_alnum, isalnum. cbn. rewrite !andb_true_r. reflexivity.
Qed.

Lemma scan_len_run (f : str -> bool) (p : char -> bool) (pre post : str) :
  (forall c s, f (c :: s) = p c) ->
  forallb p pre = true -> stops p post ->
  scan_len f (pre ++ post) = length pre.
Proof.
  intros Hf. induction pre as [|c pre IH]; intros Hp Hs.
  - destruct post as [|c post]; [reflexivity|].
    cbn in *. rewrite Hf, Hs. reflexivity.
  - cbn in *. apply andb_true_iff in Hp. destruct Hp as [Hc Hp].
    rewrite Hf, Hc. f_equal. apply IH; assumption.
Qed.

Lemma scan_len_take_while (f : str -> bool) (p : char -> bool) (s : str) :
  (forall c s, f (c :: s) = p c) ->
  firstn (scan_len f s) s = take_while p s /\
  scan_len f s = length (take_while p s).
Proof.
  intros Hf. induction s as [|c s [IH1 IH2]]; [split; reflexivity|].
  cbn. rewrite Hf. destruct (p c); cbn; [|split; reflexivity].
  rewrite IH1, IH2. split; reflexivity.
Qed.

(** ** Facts on characters *)

Lemma str_eqb_single (c d : char) : str_eqb [c] [d] = N.eqb c d.
Proof. cbn. apply andb_true_r. Qed.

Lemma is_digit_single (c : char) : is_digit [c] = chr_isdigit c.
Proof. unfold is_digit, isdigit. cbn. apply andb_true_r. Qed.

Lemma is_letter_single (c : char) : is_letter [c] = chr_isalpha c.
Proof. unfold is_letter, isalpha. cbn. apply andb_true_r. Qed.

Lemma between_spec lo hi c :
  between lo hi c = true <-> (lo <= c /\ c <= hi)%N.
Proof.
  unfold between. rewrite andb_true_iff, !N.leb_le. reflexivity.
Qed.

Lemma letter_not_digit (c : char) :
  chr_isalpha c = true -> chr_isdigit c = false.
Proof.
  unfold chr_isalpha, chr_isdigit. destruct (N.ltb c 128).
  - unfold ascii_isalpha, ascii_isdigit. intros H.
    apply orb_true_iff in H. rewrite !between_spec in H.
    destruct (between 48 57 c) eqn:E; [|reflexivity].
    apply between_spec in E. lia.
  - apply uni_alpha_not_digit.
Qed.

Lemma letter_not_space (c : char) :
  chr_isalpha c = true -> chr_isspace c = false.
Proof.
  unfold chr_isalpha, chr_isspace. destruct (N.ltb c 128).
  - unfold ascii_isalpha, ascii_isspace. intros H.
    apply orb_true_iff in H. rewrite !between_spec in H.
    apply orb_false_iff. split.
    + destruct (between 9 13 c) eqn:E; [|reflexivity].
      apply between_spec in E. lia.
    + destruct (between 28 32 c) eqn:E; [|reflexivity].
      apply between_spec in E. lia.
  - apply uni_alpha_not_space.
Qed.

Lemma letter_is_not (c d : char) :
  chr_isalpha c = true -> chr_isalpha d = false -> N.eqb c d = false.
Proof.
  intros Hc Hd. apply N.eqb_neq. intros ->. congruence.
Qed.

Lemma digit_is_not (c d : char) :
  chr_isdigit c = true -> chr_isdigit d = false -> N.eqb c d = false.
Proof.
  intros Hc Hd. apply N.eqb_neq. intros ->. congruence.
Qed.

(** What the lexer needs to know of a digit from [1] to [9]. *)
Lemma nonzero_digit_facts (d : char) :
  nonzero_digit d ->
  chr_isdigit d = true /\ chr_isspace d = false /\
  N.eqb d 47 = false /\ N.eqb d 48 = false /\
  str_in [d] (lit "123456789") = true.
Proof.
  unfold nonzero_digit. cbn [lit list_ascii_of_string map In].
  intros H.
  repeat (destruct H as [H|H];
          [subst d; repeat split; reflexivity|]).
  contradiction.
Qed.

(** ** The recognizers on a text that is known *)

Lemma next_token_dispatch (t : str) (k : nat) (c : char) (s : str) :
  skipn k t = c :: s -> chr_isspace c = false -> N.eqb c 47 = false ->
  next_token (mkLexer t k)
  = match try_each recognizers (mkLexer t k) with
    | (Some tok, lx3) => (tok, lx3)
    | (None, lx3) => ((UNKNOWN, peek lx3 0), advance lx3 1)
    end.
Proof.
  intros Hs Hsp Hc. unfold next_token.
  rewrite eof_skipn, Hs. cbn [negb].
  rewrite skip_whitespace_eq, Hs. cbn [scan_len].
  rewrite f_space_cons, Hsp, Nat.add_0_r.
  unfold skip_comments. rewrite peek0_skipn, Hs. cbn [firstn].
  change (lit "/") with [47%N]. rewrite str_eqb_single, Hc. cbn [andb].
  rewrite eof_skipn, Hs. reflexivity.
Qed.

Lemma lex_real_not_digit (t : str) (k : nat) :
  stops chr_isdigit (skipn k t) ->
  lex_real (mkLexer t k) = (None, mkLexer t k).
Proof.
  intros H. unfold lex_real. cbv zeta. rewrite peek0_skipn.
  destruct (skipn k t) as [|c s]; [reflexivity|].
  cbn [firstn]. rewrite is_digit_single. cbn in H. rewrite H. reflexivity.
Qed.

Lemma lex_integer_not_digit (t : str) (k : nat) :
  stops chr_isdigit (skipn k t) ->
  lex_integer (mkLexer t k) = (None, mkLexer t k).
Proof.
  intros H. unfold lex_integer. rewrite peek0_skipn.
  destruct (skipn k t) as [|c s]; [reflexivity|].
  cbn [firstn]. rewrite is_digit_single. cbn in H. rewrite H. reflexivity.
Qed.

(** A run of digits that no dot follows is not a real number. *)
Lemma lex_real_no_dot (t : str) (k : nat) (d : char) (ds post : str) :
  skipn k t = d :: ds ++ post ->
  chr_isdigit d = true -> forallb chr_isdigit ds = true ->
  stops chr_isdigit post -> stops is_dot post ->
  lex_real (mkLexer t k) = (None, mkLexer t k).
Proof.
  intros Hs Hd Hds Hp1 Hp2. unfold lex_real. cbv zeta.
  rewrite peek0_skipn, Hs. cbn [firstn].
  rewrite is_digit_single, Hd. cbn [negb].
  rewrite scan_digits_eq, Hs.
  change (d :: ds ++ post) with ((d :: ds) ++ post) in *.
  rewrite (@scan_len_run f_digit chr_isdigit (d :: ds) post f_digit_cons);
    [| cbn; rewrite Hd, Hds; reflexivity | exact Hp1].
  rewrite peek0_skipn, (@skipn_after _ _ _ _ Hs).
  rewrite skipn_length_app.
  change (lit ".") with [46%N].
  destruct post as [|c post]; [reflexivity|].
  cbn [firstn]. rewrite str_eqb_single. cbn in Hp2. unfold is_dot in Hp2.
  rewrite Hp2. reflexivity.
Qed.

(** The integer recognizer on a run that starts with a digit from [1] to
    [9]: the whole run, unless a dot follows. *)
Lemma lex_integer_nonzero (t : str) (k : nat) (d : char) (ds post : str) :
  skipn k t = d :: ds ++ post ->
  nonzero_digit d -> forallb chr_isdigit ds = true ->
  stops chr_isdigit post ->
  lex_integer (mkLexer t k)
  = if str_eqb (firstn 1 post) (lit ".")
    then (None, mkLexer t k)
    else (Some (INTEGER, d :: ds), mkLexer t (k + S (length ds))).
Proof.
  intros Hs Hd Hds Hp1.
  destruct (nonzero_digit_facts Hd) as (Hd1 & _ & _ & Hd0 & Hin).
  unfold lex_integer. cbv zeta.
  rewrite peek0_skipn, Hs. change (firstn 1 (d :: ds ++ post)) with [d].
  rewrite is_digit_single, Hd1. cbn [negb].
  change (lit "0") with [48%N]. rewrite str_eqb_single, Hd0, Hin.
  fields. rewrite scan_digits_eq.
  rewrite (@skipn_after _ _ _ _ Hs). cbn [skipn].
  rewrite (@scan_len_run f_digit chr_isdigit ds post f_digit_cons Hds Hp1).
  rewrite peek0_skipn.
  replace (k + 1 + length ds) with (k + S (length ds)) by lia.
  rewrite (@skipn_after _ _ _ _ Hs).
  change (d :: ds ++ post) with ((d :: ds) ++ post).
  change (S (length ds)) with (length (d :: ds)).
  rewrite skipn_length_app.
  destruct (str_eqb (firstn 1 post) (lit ".")); [reflexivity|].
  cbn [text i]. rewrite slice_skipn, Hs.
  change (d :: ds ++ post) with ((d :: ds) ++ post).
  rewrite firstn_length_app. reflexivity.
Qed.

(** The integer recognizer at a [0]: that [0] alone, unless a dot follows. *)
Lemma lex_integer_zero (t : str) (k : nat) (post : str) :
  skipn k t = 48%N :: post ->
  lex_integer (mkLexer t k)
  = if str_eqb (firstn 1 post) (lit ".")
    then (None, mkLexer t k)
    else (Some (INTEGER, lit "0"), mkLexer t (k + 1)).
Proof.
  intros Hs. unfold lex_integer. cbv zeta.
  rewrite peek0_skipn, Hs. change (firstn 1 (48%N :: post)) with [48%N].
  replace (is_digit [48%N]) with true by reflexivity. cbn [negb].
  replace (str_eqb [48%N] (lit "0")) with true by reflexivity.
  fields. rewrite peek0_skipn, (@skipn_after _ _ _ _ Hs). cbn [skipn].
  destruct (str_eqb (firstn 1 post) (lit ".")); cbn [negb]; [reflexivity|].
  cbn [text i]. rewrite slice_skipn, Hs. reflexivity.
Qed.

(** The identifier recognizer at a letter: the letter and the longest run
    of letters, digits and underscores after it. *)
Lemma lex_identifier_letter (t : str) (k : nat) (l : char) (tail : str) :
  skipn k t = l :: tail -> chr_isalpha l = true ->
  let w := l :: take_while ident_char tail in
  lex_identifier (mkLexer t k)
  = (Some (if mem w KEYWORDS then KEYWORD else IDENTIFIER, w),
     mkLexer t (k + length w)).
Proof.
  intros Hs Hl w. unfold lex_identifier. cbv zeta.
  rewrite peek0_skipn, Hs. cbn [firstn].
  rewrite is_letter_single, Hl. cbn [negb].
  fields. rewrite ident_loop_eq, (@skipn_after _ _ _ _ Hs). cbn [skipn].
  destruct (@scan_len_take_while f_ident ident_char tail f_ident_cons)
    as [E1 E2].
  replace (k + 1 + scan_len f_ident tail) with (k + length w)
    by (unfold w; cbn [length]; lia).
  cbn [text i].
  replace (slice t k (k + length w)) with w.
  - destruct (mem w KEYWORDS); reflexivity.
  - rewrite slice_skipn, Hs. unfold w. cbn [length firstn].
    rewrite <- E2, E1. reflexivity.
Qed.

(** ** Running the lexer to the end *)

Lemma TokenType_eqb_eq (a b : TokenType) : TokenType_eqb a b = true <-> a = b.
Proof. destruct a, b; cbn; split; congruence. Qed.

Lemma next_token_at_eof (lx : Lexer) :
  eof lx = true -> next_token lx = ((EOF, []), lx).
Proof. intros H. unfold next_token. rewrite H. reflexivity. Qed.

Lemma after_calls_at_eof (k : nat) (lx : Lexer) :
  eof lx = true -> after_calls k lx = lx.
Proof.
  intros H. induction k as [|k IH]; [reflexivity|].
  cbn [after_calls]. rewrite (next_token_at_eof _ H). exact IH.
Qed.

Lemma slice_skipn_app (t : str) (a b : nat) :
  a <= b -> slice t a b ++ skipn b t = skipn a t.
Proof.
  intros H. unfold slice.
  replace (skipn b t) with (skipn (b - a) (skipn a t)).
  - apply firstn_skipn.
  - rewrite skipn_skipn. f_equal. lia.
Qed.

Lemma partition_interleave (t : str) (toks : list Token) :
  forall pos, partition_at t pos toks ->
    exists gaps, length gaps = length toks /\ Forall blank gaps /\
                 interleave gaps (map snd toks) = skipn pos t.
Proof.
  induction toks as [|[kind lexeme] toks IH]; intros pos H.
  - cbn in H. subst pos. exists []. rewrite skipn_all.
    repeat split. constructor.
  - destruct H as (s & Hs & Hb & Hle & Hlx & Hrest).
    set (e := s + length lexeme) in *.
    destruct (IH e Hrest) as (gaps & Hlen & Hbl & Hint).
    exists (slice t pos s :: gaps).
    split; [cbn; congruence|]. split; [constructor; assumption|].
    cbn [map snd interleave]. rewrite Hint, Hlx.
    rewrite (slice_skipn_app t (a := s) (b := e)) by (unfold e; lia).
    apply slice_skipn_app. exact Hs.
Qed.

Lemma run_spec (fuel : nat) :
  forall lx, i lx <= n lx -> n lx - i lx < fuel ->
    exists toks,
      run fuel lx = Some (toks ++ [(EOF, [])]) /\
      Forall (fun tok => fst tok <> EOF) toks /\
      length toks <= n lx - i lx /\
      partition_at (text lx) (i lx) (toks ++ [(EOF, [])]).
Proof.
  induction fuel as [|fuel IH]; intros lx Hi Hf; [lia|].
  cbn [run]. destruct (next_token lx) as [[kind lexeme] lx'] eqn:E.
  apply next_token_ok in E.
  destruct E as (Ht & H1 & H2 & H3 & Hb & Hl & Hne & He).
  set (s := i (skip_whitespace lx)) in *.
  unfold n in *. cbn [fst].
  destruct (TokenType_eqb kind EOF) eqn:Ek.
  - apply TokenType_eqb_eq in Ek. subst kind.
    destruct (He eq_refl) as (-> & Hs & Heof).
    apply eof_true in Heof. unfold n in Heof. rewrite Ht in Heof.
    exists []. split; [reflexivity|]. split; [constructor|].
    split; [cbn; lia|].
    cbn [app partition_at length]. exists s.
    split; [exact H1|]. split; [exact Hb|]. split; [lia|].
    split; [rewrite Nat.add_0_r, slice_same; reflexivity | lia].
  - assert (Hk : kind <> EOF).
    { intros C. apply TokenType_eqb_eq in C. congruence. }
    specialize (Hne Hk).
    destruct (IH lx') as (toks & Hrun & Hall & Hlen & Hpart).
    { unfold n. rewrite Ht. lia. }
    { unfold n. rewrite Ht. lia. }
    unfold n in *. rewrite Ht in *.
    exists ((kind, lexeme) :: toks).
    split; [rewrite Hrun; reflexivity|].
    split; [constructor; [exact Hk | exact Hall]|].
    split; [cbn [length]; lia|].
    assert (Hlex : length lexeme = i lx' - s).
    { rewrite Hl. apply slice_length. lia. }
    cbn [app partition_at]. exists s.
    replace (s + length lexeme) with (i lx') by lia.
    split; [exact H1|]. split; [exact Hb|]. split; [lia|].
    split; [exact Hl | exact Hpart].
Qed.

(** ** The text, call by call *)

Lemma skip_whitespace_gap (lx : Lexer) :
  i (skip_whitespace lx) = i lx + length (take_while chr_isspace (rest lx)) /\
  slice (text lx) (i lx) (i (skip_whitespace lx))
  = take_while chr_isspace (rest lx).
Proof.
  destruct lx as [t k]. rewrite skip_whitespace_eq. unfold rest.
  cbn [text i].
  destruct (@scan_len_take_while f_space chr_isspace (skipn k t)
              f_space_cons) as [E1 E2].
  split; [rewrite E2; reflexivity|].
  rewrite slice_skipn. exact E1.
Qed.

Lemma take_while_space_blank (s : str) : blank (take_while chr_isspace s).
Proof.
  destruct (@scan_len_take_while f_space chr_isspace s f_space_cons)
    as [E _].
  rewrite <- E. apply scan_space_blank.
Qed.

Lemma skipped_blank (toks : list Token) :
  forall lx, Forall blank (skipped lx toks).
Proof.
  induction toks as [|tok toks IH]; intros lx; cbn [skipped]; constructor.
  - apply take_while_space_blank.
  - apply IH.
Qed.

Lemma skipped_length (toks : list Token) :
  forall lx, length (skipped lx toks) = length toks.
Proof.
  induction toks as [|tok toks IH]; intros lx; [reflexivity|].
  cbn [skipped length]. rewrite IH. reflexivity.
Qed.

Lemma next_token_unblank (lx : Lexer) kind lexeme lx' :
  next_token lx = ((kind, lexeme), lx') -> stops chr_isspace lexeme.
Proof.
  intros E. apply next_token_ok in E.
  destruct E as (_ & _ & _ & _ & _ & Hl & _ & _).
  destruct lx as [t k]. rewrite skip_whitespace_eq in Hl.
  cbn [text i] in Hl. subst lexeme. unfold slice.
  rewrite (Nat.add_comm k), <- skipn_skipn.
  assert (Hs := @scan_len_stop f_space (skipn k t)).
  destruct (skipn (scan_len f_space (skipn k t)) (skipn k t)) as [|c r].
  - rewrite firstn_nil. exact I.
  - destruct (i lx' - _); [exact I|].
    cbn. rewrite <- (f_space_cons c r). apply Hs. discriminate.
Qed.

Lemma run_consumed (fuel : nat) :
  forall lx, i lx <= n lx -> n lx - i lx < fuel ->
    exists toks,
      run fuel lx = Some toks /\
      consumed_by lx toks /\
      interleave (skipped lx toks) (map snd toks) = rest lx.
Proof.
  induction fuel as [|fuel IH]; intros lx Hi Hf; [lia|].
  cbn [run]. destruct (next_token lx) as [[kind lexeme] lx'] eqn:E.
  assert (Hub := @next_token_unblank lx kind lexeme lx' E).
  assert (Hok := @next_token_ok lx kind lexeme lx' E).
  destruct Hok as (Ht & H1 & H2 & H3 & Hb & Hl & Hne & He).
  destruct (skip_whitespace_gap lx) as [Hs Hg].
  set (gap := take_while chr_isspace (rest lx)) in *.
  set (s := i (skip_whitespace lx)) in *.
  assert (Hmax : i lx' <= length (text lx)) by (unfold n in *; lia).
  assert (Hlen : length lexeme = i lx' - s).
  { rewrite Hl. apply slice_length. exact Hmax. }
  assert (Hcall : fst (next_token lx) = (kind, lexeme) /\
                  text (snd (next_token lx)) = text lx /\
                  s = i lx + length gap /\
                  i (snd (next_token lx))
                  = i lx + length gap + length (snd (kind, lexeme)) /\
                  snd (kind, lexeme)
                  = slice (text lx) (i lx + length gap)
                          (i (snd (next_token lx))) /\
                  stops chr_isspace (snd (kind, lexeme))).
  { rewrite E. cbn [fst snd]. rewrite <- Hs.
    repeat split; try assumption; lia. }
  cbn [fst].
  destruct (TokenType_eqb kind EOF) eqn:Ek.
  - apply TokenType_eqb_eq in Ek. subst kind.
    destruct (He eq_refl) as (Hnil & Hend & Heof).
    exists [(EOF, lexeme)]. split; [reflexivity|]. split.
    + cbn [consumed_by]. fold gap.
      destruct Hcall as (K1 & K2 & K3 & K4 & K5 & K6).
      refine (conj K1 (conj K2 (conj K3 (conj K4 (conj K5 (conj K6 _)))))).
      rewrite E. exact Heof.
    + cbn [skipped map snd interleave]. fold gap.
      rewrite Hnil, !app_nil_r, <- Hg. fold s.
      apply slice_to_end. apply eof_true in Heof. unfold n in Heof.
      rewrite Ht in Heof. lia.
  - assert (Hk : kind <> EOF).
    { intros C. apply TokenType_eqb_eq in C. congruence. }
    specialize (Hne Hk).
    destruct (IH lx') as (toks & Hrun & Hcons & Hint).
    { unfold n. rewrite Ht. exact Hmax. }
    { unfold n in *. rewrite Ht. lia. }
    exists ((kind, lexeme) :: toks).
    split; [rewrite Hrun; reflexivity|]. split.
    + cbn [consumed_by]. fold gap.
      destruct Hcall as (K1 & K2 & K3 & K4 & K5 & K6).
      refine (conj K1 (conj K2 (conj K3 (conj K4 (conj K5 (conj K6 _)))))).
      rewrite E. exact Hcons.
    + cbn [skipped map snd interleave]. fold gap.
      rewrite E. cbn [snd]. rewrite Hint, <- Hg. fold s.
      unfold rest. rewrite Ht, Hl.
      rewrite (@slice_skipn_app (text lx) s (i lx')) by lia.
      apply slice_skipn_app. exact H1.
Qed.

(** ** The claims *)

(** C1.  For every input, calling [next_token] until [EOF] returns tokens
    that cut the input without loss.  Call by call: the white space skipped
    is the longest run of white space at the cursor, the very characters
    [skip_whitespace] moves over; the lexeme (that of a [COMMENT] or an
    [UNKNOWN] token too) is the text from the end of that run to the new
    cursor, not a character more or less, and does not start with white
    space; the next call starts at that cursor, and the last one ends with
    nothing left to read.  The input is these runs of white space and the
    lexemes taken in turn. *)
Theorem C1_lossless_partition (t : str) :
  exists toks,
    tokenize t = Some toks /\
    consumed_by (Lexer_init t) toks /\
    partition_at t 0 toks /\
    length (skipped (Lexer_init t) toks) = length toks /\
    Forall blank (skipped (Lexer_init t) toks) /\
    interleave (skipped (Lexer_init t) toks) (map snd toks) = t.
Proof.
  destruct (@run_consumed (S (length t)) (Lexer_init t))
    as (toks & Hr & Hc & Hi).
  - cbn. lia.
  - unfold n. cbn. lia.
  - destruct (@run_spec (S (length t)) (Lexer_init t))
      as (toks' & Hr' & _ & _ & Hp).
    + cbn. lia.
    + unfold n. cbn. lia.
    + rewrite Hr in Hr'. injection Hr' as Heq. rewrite <- Heq in Hp.
      exists toks. split; [exact Hr|]. split; [exact Hc|].
      split; [exact Hp|]. split; [apply skipped_length|].
      split; [apply skipped_blank | exact Hi].
Qed.

(** C2, as amended.  Tokenizing ["3."] yields [UNKNOWN "3"], then
    [UNKNOWN "."], then [EOF]: the real recognizer wants a digit after the
    dot, and the integer recognizer gives up a digit run that a dot
    follows. *)
Theorem C2_three_dot_amended :
  tokenize (lit "3.")
  = Some [(UNKNOWN, lit "3"); (UNKNOWN, lit "."); (EOF, [])].
Proof. vm_compute. reflexivity. Qed.

(** C7.  Tokenizing ["while x == 10"] yields [KEYWORD "while"],
    [IDENTIFIER "x"], the one [OPERATOR "=="], [INTEGER "10"] and [EOF]. *)
Theorem C7_while_x_eq_10 :
  tokenize (lit "while x == 10")
  = Some [(KEYWORD, lit "while"); (IDENTIFIER, lit "x");
          (OPERATOR, lit "=="); (INTEGER, lit "10"); (EOF, [])].
Proof. vm_compute. reflexivity. Qed.

(** C8.  On the empty input the first call of [next_token] returns [EOF]
    with the empty lexeme; and on every input, once a call has returned
    [EOF], its lexeme is empty and every later call returns [EOF] with the
    empty lexeme again. *)
Theorem C8_eof_is_final :
  next_token (Lexer_init []) = ((EOF, []), Lexer_init []) /\
  forall lx lexeme lx',
    next_token lx = ((EOF, lexeme), lx') ->
    lexeme = [] /\
    forall k, next_token (after_calls k lx') = ((EOF, []), lx').
Proof.
  split; [reflexivity|].
  intros lx lexeme lx' H. apply next_token_ok in H.
  destruct H as (_ & _ & _ & _ & _ & _ & _ & He).
  destruct (He eq_refl) as (Hl & _ & Heof).
  split; [exact Hl|]. intros k.
  rewrite (after_calls_at_eof _ _ Heof). apply next_token_at_eof, Heof.
Qed.

(** C9.  A call of [next_token] that returns a token other than [EOF] moves
    the cursor at least one character forward, and not past the end of the
    text; so calling [next_token] again and again on a text reaches [EOF]
    after at most as many other tokens as the text has characters, whatever
    number of calls above that is allowed. *)
Theorem C9_lexing_terminates :
  (forall lx kind lexeme lx',
     next_token lx = ((kind, lexeme), lx') -> kind <> EOF ->
     i lx < i lx' /\ i lx' <= n lx) /\
  (forall t fuel, length t < fuel ->
     exists toks,
       run fuel (Lexer_init t) = Some (toks ++ [(EOF, [])]) /\
       Forall (fun tok => fst tok <> EOF) toks /\
       length toks <= length t).
Proof.
  split.
  - intros lx kind lexeme lx' H Hk. apply next_token_ok in H.
    destruct H as (_ & H1 & _ & H3 & _ & _ & Hne & _).
    specialize (Hne Hk). lia.
  - intros t fuel Hf.
    destruct (@run_spec fuel (Lexer_init t)) as (toks & Hr & Ha & Hl & _).
    + cbn. lia.
    + unfold n. cbn. lia.
    + exists toks. unfold n in Hl. cbn in Hl.
      split; [exact Hr|]. split; [exact Ha | lia].
Qed.

(** ** The dispatch loop, attempt by attempt *)

Lemma span_ok_none fn (lx : Lexer) :
  span_ok lx (fn lx) -> fst (fn lx) = None -> snd (fn lx) = lx.
Proof.
  destruct (fn lx) as [[[kind lexeme]|] lx']; cbn; [discriminate | auto].
Qed.

Lemma try_each_skip tried later (lx : Lexer) :
  Forall (fun fn => forall l, span_ok l (fn l)) tried ->
  Forall (fun fn => fst (fn lx) = None) tried ->
  try_each (tried ++ later) lx = try_each later lx.
Proof.
  induction 1 as [|fn tried Hfn _ IH]; intros Hnone; [reflexivity|].
  inversion Hnone as [|? ? Hn Hrest]; subst.
  cbn [app try_each].
  assert (E := @span_ok_none fn lx (Hfn lx) Hn).
  destruct (fn lx) as [[tok|] lx1]; cbn in Hn, E; [discriminate|].
  subst lx1. rewrite set_i_same. apply IH, Hrest.
Qed.

Lemma try_each_none fn rest (lx : Lexer) :
  fn lx = (None, lx) -> try_each (fn :: rest) lx = try_each rest lx.
Proof. intros H. cbn [try_each]. rewrite H, set_i_same. reflexivity. Qed.

Lemma try_each_some fn rest (lx : Lexer) tok lx' :
  fn lx = (Some tok, lx') -> try_each (fn :: rest) lx = (Some tok, lx').
Proof. intros H. cbn [try_each]. rewrite H. reflexivity. Qed.

Lemma Forall_app_left {A} (P : A -> Prop) (l r : list A) :
  Forall P (l ++ r) -> Forall P l.
Proof. intros H. apply Forall_app in H. apply H. Qed.

Lemma try_each_first tried fn later (lx : Lexer) tok lx' :
  Forall (fun f => forall l, span_ok l (f l)) tried ->
  Forall (fun f => fst (f lx) = None) tried ->
  fn lx = (Some tok, lx') ->
  try_each (tried ++ fn :: later) lx = (Some tok, lx').
Proof.
  intros Hok Hn Hfn.
  rewrite (@try_each_skip tried (fn :: later) lx Hok Hn).
  exact (@try_each_some fn later lx tok lx' Hfn).
Qed.

Lemma next_token_try_each (lx : Lexer) :
  eof lx = false ->
  fst (skip_comments (skip_whitespace lx)) = None ->
  eof (skip_whitespace lx) = false ->
  next_token lx
  = match try_each recognizers (skip_whitespace lx) with
    | (Some tok, lx3) => (tok, lx3)
    | (None, lx3) => ((UNKNOWN, peek lx3 0), advance lx3 1)
    end.
Proof.
  intros He Hc He2. unfold next_token. rewrite He. cbn [negb].
  assert (E := @span_ok_none skip_comments (skip_whitespace lx)
                 (skip_comments_ok _) Hc).
  destruct (skip_comments (skip_whitespace lx)) as [[com|] lx2];
    cbn [fst snd] in Hc, E; [discriminate|].
  subst lx2. rewrite He2. reflexivity.
Qed.

(** C4.  The dispatch loop tries the real, integer, identifier, string and
    operator or separator recognizers in this order, and the first of them
    that returns a token ends the loop: [next_token] returns that token and
    the lexer that recognizer left, the later recognizers not being asked.
    A recognizer that returns nothing leaves the lexer as it found it, and
    so does the [self.i = here] that follows; hence, when the first
    recognizers have all returned nothing at [lx], the next one is tried at
    [lx] itself, and when all have, the loop ends at [lx], and the fallback
    returns as [UNKNOWN] the character at the cursor of [lx] and moves one
    character forward from there.  The order shows at the head of
    ["01.5"], where the real and the integer recognizer would both return
    a token: the token returned is that of the real recognizer. *)
Theorem C4_failed_attempt_restores :
  recognizers = [lex_real; lex_integer; lex_identifier; lex_string;
                 lex_operator_or_separator] /\
  (forall lx,
     Forall (fun fn => fst (fn lx) = None ->
                       snd (fn lx) = lx /\ set_i (snd (fn lx)) (i lx) = lx)
            recognizers) /\
  (forall lx tried later,
     recognizers = tried ++ later ->
     Forall (fun fn => fst (fn lx) = None) tried ->
     try_each recognizers lx = try_each later lx) /\
  (forall lx,
     Forall (fun fn => fst (fn lx) = None) recognizers ->
     try_each recognizers lx = (None, lx)) /\
  (forall t k c s,
     skipn k t = c :: s -> chr_isspace c = false -> N.eqb c 47 = false ->
     Forall (fun fn => fst (fn (mkLexer t k)) = None) recognizers ->
     next_token (mkLexer t k) = ((UNKNOWN, [c]), mkLexer t (k + 1))) /\
  (forall lx tried fn later tok lx',
     recognizers = tried ++ fn :: later ->
     Forall (fun f => fst (f lx) = None) tried ->
     fn lx = (Some tok, lx') ->
     try_each recognizers lx = (Some tok, lx')) /\
  (forall lx tried fn later tok lx',
     eof lx = false ->
     fst (skip_comments (skip_whitespace lx)) = None ->
     eof (skip_whitespace lx) = false ->
     recognizers = tried ++ fn :: later ->
     Forall (fun f => fst (f (skip_whitespace lx)) = None) tried ->
     fn (skip_whitespace lx) = (Some tok, lx') ->
     next_token lx = (tok, lx')) /\
  (lex_real (Lexer_init (lit "01.5"))
   = (Some (REAL, lit "01.5"), mkLexer (lit "01.5") 4) /\
   lex_integer (Lexer_init (lit "01.5"))
   = (Some (INTEGER, lit "0"), mkLexer (lit "01.5") 1) /\
   next_token (Lexer_init (lit "01.5"))
   = ((REAL, lit "01.5"), mkLexer (lit "01.5") 4)).
Proof.
  assert (Hall : forall lx,
             Forall (fun fn => fst (fn lx) = None) recognizers ->
             try_each recognizers lx = (None, lx)).
  { intros lx Hn.
    rewrite <- (app_nil_r recognizers) at 1.
    rewrite try_each_skip; [reflexivity | exact recognizers_ok | exact Hn]. }
  assert (Hfirst : forall lx tried fn later tok lx',
             recognizers = tried ++ fn :: later ->
             Forall (fun f => fst (f lx) = None) tried ->
             fn lx = (Some tok, lx') ->
             try_each recognizers lx = (Some tok, lx')).
  { intros lx tried fn later tok lx' E Hn Hfn. rewrite E.
    apply (@try_each_first tried fn later lx tok lx'); [|exact Hn | exact Hfn].
    apply Forall_app_left with (r := fn :: later). rewrite <- E.
    exact recognizers_ok. }
  split; [reflexivity|].
  split; [|split; [|split; [exact Hall|split; [|split; [exact Hfirst|split]]]]].
  - intros lx. eapply Forall_impl; [|exact recognizers_ok].
    cbv beta. intros fn Hfn Hn.
    rewrite (@span_ok_none fn lx (Hfn lx) Hn).
    split; [reflexivity | apply set_i_same].
  - intros lx tried later E Hn. rewrite E. apply try_each_skip; [|exact Hn].
    apply Forall_app_left with (r := later). rewrite <- E.
    exact recognizers_ok.
  - intros t k c s Hs Hsp Hc Hn.
    rewrite (@next_token_dispatch _ _ _ _ Hs Hsp Hc), (Hall _ Hn).
    rewrite peek0_skipn, Hs. reflexivity.
  - intros lx tried fn later tok lx' He Hc He2 E Hn Hfn.
    rewrite (@next_token_try_each lx He Hc He2).
    rewrite (Hfirst (skip_whitespace lx) tried fn later tok lx' E Hn Hfn).
    reflexivity.
  - repeat split; vm_compute; reflexivity.
Qed.

(** ** Block comments *)

Lemma closes_at_S (c : char) (r : str) (j : nat) :
  closes_at (c :: r) (S j) <-> closes_at r j.
Proof.
  unfold closes_at, slice.
  replace (S j + 2 - S j) with 2 by lia.
  replace (j + 2 - j) with 2 by lia. reflexivity.
Qed.

Lemma closes_at_skipn (r : str) (j : nat) :
  closes_at r j <-> exists r', skipn j r = lit "*/" ++ r'.
Proof.
  unfold closes_at. rewrite slice_skipn.
  destruct (skipn j r) as [|a [|b s]]; cbn; split;
    try discriminate; try (intros [r' H]; discriminate H).
  - intros H. inversion H. exists s. reflexivity.
  - intros [r' H]. inversion H. reflexivity.
Qed.

Lemma f_block_false (s : str) : f_block s = false <-> closes_at s 0.
Proof.
  rewrite closes_at_skipn. unfold f_block.
  rewrite negb_false_iff, andb_true_iff, !str_eqb_eq.
  destruct s as [|a [|b s]]; cbn; split;
    try (intros [H1 H2]; discriminate);
    try (intros [r' H]; discriminate H).
  - intros [H1 H2]. inversion H1. inversion H2. exists s. reflexivity.
  - intros [r' H]. inversion H. split; reflexivity.
Qed.

Lemma scan_block_none (r : str) :
  (forall j, ~ closes_at r j) -> scan_len f_block r = length r.
Proof.
  induction r as [|c r IH]; intros H; [reflexivity|].
  cbn [scan_len length]. destruct (f_block (c :: r)) eqn:E.
  - f_equal. apply IH. intros j Hj. apply (H (S j)).
    apply closes_at_S. exact Hj.
  - apply f_block_false in E. contradiction (H 0).
Qed.

Lemma scan_block_first (j : nat) :
  forall r, closes_at r j -> (forall j', j' < j -> ~ closes_at r j') ->
            scan_len f_block r = j.
Proof.
  induction j as [|j IH]; intros r Hc Hfirst.
  - apply f_block_false in Hc. destruct r as [|c r]; [reflexivity|].
    cbn [scan_len]. rewrite Hc. reflexivity.
  - destruct r as [|c r].
    + apply closes_at_skipn in Hc. destruct Hc as [r' Hc]. discriminate Hc.
    + cbn [scan_len]. destruct (f_block (c :: r)) eqn:E.
      * f_equal. apply IH; [apply closes_at_S in Hc; exact Hc|].
        intros j' Hj' C. apply (Hfirst (S j')); [lia|].
        apply closes_at_S. exact C.
      * apply f_block_false in E. exfalso.
        apply (Hfirst 0); [lia | exact E].
Qed.

Lemma skip_comments_block (t : str) (k : nat) (r : str) :
  skipn k t = lit "/*" ++ r ->
  skip_comments (mkLexer t k)
  = let k2 := k + 2 + scan_len f_block r in
    let k3 := if negb (eof (mkLexer t k2)) then k2 + 2 else k2 in
    (Some (COMMENT, slice t k k3), mkLexer t k3).
Proof.
  intros Hs. unfold skip_comments. cbv zeta.
  rewrite peek0_skipn, peek_skipn, (@skipn_after _ _ _ _ Hs), Hs.
  replace (str_eqb (firstn 1 (lit "/*" ++ r)) (lit "/")) with true
    by reflexivity.
  replace (str_eqb (firstn 1 (skipn 1 (lit "/*" ++ r))) (lit "/")) with false
    by reflexivity.
  replace (str_eqb (firstn 1 (skipn 1 (lit "/*" ++ r))) (lit "*")) with true
    by reflexivity.
  cbn [andb]. fields. rewrite block_loop_eq, (@skipn_after _ _ _ _ Hs).
  change (skipn 2 (lit "/*" ++ r)) with r.
  destruct (eof _); reflexivity.
Qed.

(** C5.  With the cursor at ["/*"] and [r] the text after it: when [r] has
    no ["*/"], the comment recognizer returns a [COMMENT] whose lexeme is
    all the text from the ["/*"] to the end of the input, and the cursor is
    at the end of the input; when [r] has its first ["*/"] at [j], the
    lexeme is the ["/*"], the [j] characters before that ["*/"], and the
    ["*/"] itself, and the cursor stands behind it. *)
Theorem C5_block_comment (t : str) (k : nat) (r : str) :
  skipn k t = lit "/*" ++ r ->
  ((forall j, ~ closes_at r j) ->
   skip_comments (mkLexer t k)
   = (Some (COMMENT, lit "/*" ++ r), mkLexer t (length t)) /\
   eof (mkLexer t (length t)) = true) /\
  (forall j,
     closes_at r j -> (forall j', j' < j -> ~ closes_at r j') ->
     skip_comments (mkLexer t k)
     = (Some (COMMENT, lit "/*" ++ firstn j r ++ lit "*/"),
        mkLexer t (k + 2 + j + 2))).
Proof.
  intros Hs. rewrite (skip_comments_block _ _ Hs). cbv zeta.
  assert (L := length_skipn k t). rewrite Hs in L.
  change (length (lit "/*" ++ r)) with (S (S (length r))) in L.
  split.
  - intros Hnone. rewrite (scan_block_none Hnone).
    replace (k + 2 + length r) with (length t) by lia.
    assert (E : eof (mkLexer t (length t)) = true).
    { apply eof_true. unfold n. cbn. lia. }
    rewrite E. cbn [negb]. split; [|reflexivity].
    rewrite slice_to_end by lia. rewrite Hs. reflexivity.
  - intros j Hc Hfirst. rewrite (scan_block_first Hc Hfirst).
    apply closes_at_skipn in Hc. destruct Hc as [r' Hc].
    assert (Hr : skipn (k + 2 + j) t = lit "*/" ++ r').
    { replace (k + 2 + j) with (k + (2 + j)) by lia.
      rewrite (@skipn_after _ _ _ _ Hs).
      change (skipn (2 + j) (lit "/*" ++ r)) with (skipn j r). exact Hc. }
    rewrite eof_skipn, Hr. cbn [lit list_ascii_of_string map app negb].
    f_equal. f_equal. f_equal.
    replace (k + 2 + j + 2) with (k + (2 + (j + 2))) by lia.
    rewrite slice_skipn, Hs.
    change (firstn (2 + (j + 2)) (lit "/*" ++ r))
      with (lit "/*" ++ firstn (j + 2) r).
    rewrite firstn_add, Hc. reflexivity.
Qed.

(** ** String literals *)

Lemma f_string_char c s : f_string (c :: s) = string_char c.
Proof. apply f_string_cons. Qed.

Lemma lex_string_scan (t : str) (k : nat) (body tail : str) :
  skipn k t = dquote ++ body ++ tail ->
  forallb string_char body = true -> stops string_char tail ->
  lex_string (mkLexer t k)
  = let k2 := k + 1 + length body in
    let k3 := if str_eqb (firstn 1 tail) dquote then k2 + 1 else k2 in
    (Some (STRING, slice t k k3), mkLexer t k3).
Proof.
  intros Hs Hb Ht. unfold lex_string. cbv zeta.
  rewrite peek0_skipn, Hs.
  replace (str_eqb (firstn 1 (dquote ++ body ++ tail)) dquote) with true
    by reflexivity.
  cbn [negb]. fields.
  rewrite string_loop_eq, (@skipn_after _ _ _ _ Hs).
  change (skipn 1 (dquote ++ body ++ tail)) with (body ++ tail).
  rewrite (@scan_len_run f_string string_char body tail f_string_char Hb Ht).
  rewrite peek0_skipn.
  replace (k + 1 + length body) with (k + (1 + length body)) by lia.
  rewrite (@skipn_after _ _ _ _ Hs).
  change (skipn (1 + length body) (dquote ++ body ++ tail))
    with (skipn (length body) (body ++ tail)).
  rewrite skipn_length_app.
  destruct (str_eqb (firstn 1 tail) dquote); reflexivity.
Qed.

(** C6.  With the cursor at a double quote, [body] the characters after it
    up to the first double quote or line feed, and [tail] what follows:
    when [tail] is empty or starts with a line feed, the string recognizer
    returns a [STRING] whose lexeme is the opening quote and [body], with
    no closing quote, and the unread text is [tail], the line feed still in
    it; when [tail] starts with a double quote, the lexeme is the opening
    quote, [body] and that closing quote, which is read. *)
Theorem C6_string_literal (t : str) (k : nat) (body tail : str) :
  skipn k t = dquote ++ body ++ tail ->
  forallb string_char body = true ->
  (tail = [] \/ firstn 1 tail = newline ->
   lex_string (mkLexer t k)
   = (Some (STRING, dquote ++ body), mkLexer t (k + 1 + length body)) /\
   rest (mkLexer t (k + 1 + length body)) = tail /\
   ~ In 34%N body) /\
  (firstn 1 tail = dquote ->
   lex_string (mkLexer t k)
   = (Some (STRING, dquote ++ body ++ dquote),
      mkLexer t (k + 1 + length body + 1)) /\
   rest (mkLexer t (k + 1 + length body + 1)) = skipn 1 tail).
Proof.
  intros Hs Hb.
  assert (Hrest : skipn (k + 1 + length body) t = tail).
  { replace (k + 1 + length body) with (k + (1 + length body)) by lia.
    rewrite (@skipn_after _ _ _ _ Hs).
    change (skipn (1 + length body) (dquote ++ body ++ tail))
      with (skipn (length body) (body ++ tail)).
    apply skipn_length_app. }
  assert (Hslice : forall m,
             slice t k (k + (1 + (length body + m)))
             = dquote ++ body ++ firstn m tail).
  { intros m. rewrite slice_skipn, Hs.
    change (firstn (1 + (length body + m)) (dquote ++ body ++ tail))
      with (dquote ++ firstn (length body + m) (body ++ tail)).
    rewrite firstn_app_2. reflexivity. }
  split.
  - intros Htail.
    assert (Hstop : stops string_char tail).
    { destruct Htail as [-> | Hn]; [exact I|].
      destruct tail as [|c tail]; [exact I|]. inversion Hn. reflexivity. }
    assert (Hq : str_eqb (firstn 1 tail) dquote = false).
    { destruct Htail as [-> | ->]; reflexivity. }
    rewrite (@lex_string_scan _ _ _ _ Hs Hb Hstop). cbv zeta. rewrite Hq.
    split; [|split].
    + replace (k + 1 + length body) with (k + (1 + (length body + 0)))
        by lia.
      rewrite Hslice, app_nil_r. reflexivity.
    + exact Hrest.
    + intros Hin. rewrite forallb_forall in Hb. apply Hb in Hin.
      discriminate Hin.
  - intros Hq.
    assert (Hstop : stops string_char tail).
    { destruct tail as [|c tail]; [exact I|]. inversion Hq. reflexivity. }
    rewrite (@lex_string_scan _ _ _ _ Hs Hb Hstop). cbv zeta.
    rewrite Hq. change (str_eqb dquote dquote) with true. cbv iota.
    split.
    + replace (k + 1 + length body + 1)
        with (k + (1 + (length body + 1))) by lia.
      rewrite Hslice, Hq. reflexivity.
    + unfold rest. cbn [text i].
      rewrite Nat.add_comm, <- skipn_skipn, Hrest. reflexivity.
Qed.

(** ** Digits, then a letter *)

(** On ASCII the characters an identifier goes on with are the letters, the
    digits and the underscore. *)
Lemma ident_char_ascii (c : char) :
  (c < 128)%N ->
  ident_char c = chr_isalpha c || chr_isdigit c || N.eqb c 95.
Proof.
  intros H. apply N.ltb_lt in H.
  unfold ident_char, chr_isalnum, chr_isalpha, chr_isdigit.
  rewrite H. reflexivity.
Qed.

Lemma take_while_length (p : char -> bool) (s : str) :
  length (take_while p s) <= length s.
Proof.
  induction s as [|c s IH]; cbn; [lia|]. destruct (p c); cbn; lia.
Qed.

Lemma next_token_integer (t : str) (k : nat) (d : char) (ds post : str) :
  skipn k t = d :: ds ++ post ->
  nonzero_digit d -> forallb chr_isdigit ds = true ->
  stops chr_isdigit post -> stops is_dot post ->
  next_token (mkLexer t k)
  = ((INTEGER, d :: ds), mkLexer t (k + S (length ds))).
Proof.
  intros Hs Hd Hds Hp1 Hp2.
  destruct (nonzero_digit_facts Hd) as (Hd1 & Hsp & Hsl & _ & _).
  rewrite (@next_token_dispatch _ _ _ _ Hs Hsp Hsl).
  unfold recognizers.
  rewrite try_each_none
    by (apply (@lex_real_no_dot _ _ _ _ _ Hs); assumption).
  rewrite (@try_each_some _ _ _ (INTEGER, d :: ds)
             (mkLexer t (k + S (length ds)))); [reflexivity|].
  rewrite (@lex_integer_nonzero _ _ _ _ _ Hs Hd Hds Hp1).
  destruct post as [|c post]; [reflexivity|].
  cbn [firstn]. change (lit ".") with [46%N].
  rewrite str_eqb_single. cbn in Hp2. unfold is_dot in Hp2. rewrite Hp2.
  reflexivity.
Qed.

Lemma next_token_identifier (t : str) (k : nat) (l : char) (tail : str) :
  skipn k t = l :: tail -> chr_isalpha l = true ->
  let w := l :: take_while ident_char tail in
  next_token (mkLexer t k)
  = ((if mem w KEYWORDS then KEYWORD else IDENTIFIER, w),
     mkLexer t (k + length w)).
Proof.
  intros Hs Hl w.
  assert (Hnd : chr_isdigit l = false) by (apply letter_not_digit, Hl).
  rewrite (@next_token_dispatch _ _ _ _ Hs);
    [| apply letter_not_space, Hl
     | apply (letter_is_not _ _ Hl); reflexivity].
  unfold recognizers.
  rewrite try_each_none
    by (apply lex_real_not_digit; rewrite Hs; exact Hnd).
  rewrite try_each_none
    by (apply lex_integer_not_digit; rewrite Hs; exact Hnd).
  rewrite (@try_each_some _ _ _
             (if mem w KEYWORDS then KEYWORD else IDENTIFIER, w)
             (mkLexer t (k + length w))); [reflexivity|].
  apply (@lex_identifier_letter _ _ _ _ Hs Hl).
Qed.

(** C10.  On a text that starts with a digit from [1] to [9], goes on with
    digits and then has a letter, the first token is the [INTEGER] of the
    whole digit run, and the second is the [IDENTIFIER] (or [KEYWORD]) of
    the letter with the longest run of letters, digits and underscores
    after it: no [UNKNOWN] token comes of a letter right after digits.  The
    integer recognizer, at a digit from [1] to [9], returns nothing exactly
    when a dot follows the digit run. *)
Theorem C10_digits_then_letter (d : char) (ds : str) (l : char) (tail : str) :
  nonzero_digit d -> forallb chr_isdigit ds = true ->
  chr_isalpha l = true ->
  let t := d :: ds ++ l :: tail in
  let w := l :: take_while ident_char tail in
  let kind := if mem w KEYWORDS then KEYWORD else IDENTIFIER in
  next_token (Lexer_init t)
  = ((INTEGER, d :: ds), mkLexer t (S (length ds))) /\
  next_token (mkLexer t (S (length ds)))
  = ((kind, w), mkLexer t (S (length ds) + length w)) /\
  (exists toks,
     tokenize t = Some ((INTEGER, d :: ds) :: (kind, w) :: toks)) /\
  (forall t' k post,
     skipn k t' = d :: ds ++ post -> stops chr_isdigit post ->
     (fst (lex_integer (mkLexer t' k)) = None <-> firstn 1 post = lit ".")).
Proof.
  intros Hd Hds Hl t w kind.
  assert (Hnd : chr_isdigit l = false) by (apply letter_not_digit, Hl).
  assert (Hdot : is_dot l = false)
    by (apply (letter_is_not _ _ Hl); reflexivity).
  assert (H1 : next_token (Lexer_init t)
               = ((INTEGER, d :: ds), mkLexer t (S (length ds)))).
  { unfold Lexer_init.
    apply (@next_token_integer t 0 d ds (l :: tail)); auto. }
  assert (Hs2 : skipn (S (length ds)) t = l :: tail).
  { unfold t. change (d :: ds ++ l :: tail) with ((d :: ds) ++ l :: tail).
    change (S (length ds)) with (length (d :: ds)).
    apply skipn_length_app. }
  assert (H2 : next_token (mkLexer t (S (length ds)))
               = ((kind, w), mkLexer t (S (length ds) + length w))).
  { apply (@next_token_identifier _ _ _ _ Hs2 Hl). }
  split; [exact H1|]. split; [exact H2|]. split.
  - assert (Lt : length t = S (length ds + S (length tail))).
    { unfold t. cbn [length]. rewrite length_app. reflexivity. }
    assert (Lw := take_while_length ident_char tail).
    destruct (@run_spec (length ds + S (length tail))
                        (mkLexer t (S (length ds) + length w)))
      as (toks & Hr & _).
    + unfold n. cbn [text i]. rewrite Lt. unfold w. cbn [length]. lia.
    + unfold n. cbn [text i]. rewrite Lt. unfold w. cbn [length]. lia.
    + exists (toks ++ [(EOF, [])]).
      unfold tokenize. rewrite Lt.
      cbn [run]. rewrite H1. cbn [fst TokenType_eqb].
      rewrite H2.
      assert (Hk : TokenType_eqb kind EOF = false)
        by (unfold kind; destruct (mem w KEYWORDS); reflexivity).
      cbn [fst]. rewrite Hk, Hr. reflexivity.
  - intros t' k post Hs Hp.
    rewrite (@lex_integer_nonzero _ _ _ _ _ Hs Hd Hds Hp).
    destruct (str_eqb (firstn 1 post) (lit ".")) eqn:E; cbn [fst].
    + apply str_eqb_eq in E. split; auto.
    + apply str_eqb_neq in E. split; [discriminate | contradiction].
Qed.

(** ** The text before the cursor *)

Lemma n_reloc pre lx : n (reloc pre lx) = length pre + n lx.
Proof. unfold n, reloc. cbn [text]. apply length_app. Qed.

Lemma eof_reloc pre lx : eof (reloc pre lx) = eof lx.
Proof.
  unfold eof. rewrite n_reloc. unfold reloc. cbn [i].
  destruct (Nat.leb_spec (n lx) (i lx));
    [apply Nat.leb_le | apply Nat.leb_gt]; lia.
Qed.

Lemma peek_reloc pre lx a : peek (reloc pre lx) a = peek lx a.
Proof.
  unfold peek. rewrite n_reloc. unfold reloc. cbn [text i].
  replace (length pre + i lx + a) with (length pre + (i lx + a)) by lia.
  rewrite nth_error_app2 by lia.
  replace (length pre + (i lx + a) - length pre) with (i lx + a) by lia.
  destruct (Nat.ltb_spec (i lx + a) (n lx)) as [H|H].
  - replace (length pre + (i lx + a) <? length pre + n lx) with true
      by (symmetry; apply Nat.ltb_lt; lia).
    reflexivity.
  - replace (length pre + (i lx + a) <? length pre + n lx) with false
      by (symmetry; apply Nat.ltb_ge; lia).
    reflexivity.
Qed.

Lemma advance_reloc pre lx s :
  advance (reloc pre lx) s = reloc pre (advance lx s).
Proof. unfold advance, set_i, reloc. cbn [text i]. f_equal. lia. Qed.

Lemma set_i_reloc pre lx1 lx :
  set_i (reloc pre lx1) (i (reloc pre lx)) = reloc pre (set_i lx1 (i lx)).
Proof. reflexivity. Qed.

Lemma slice_reloc pre (t : str) a b :
  slice (pre ++ t) (length pre + a) (length pre + b) = slice t a b.
Proof.
  unfold slice.
  replace (length pre + b - (length pre + a)) with (b - a) by lia.
  rewrite skipn_app, skipn_all2 by lia.
  replace (length pre + a - length pre) with a by lia. reflexivity.
Qed.

Lemma lexeme_reloc pre lx lx1 :
  slice (text (reloc pre lx1)) (i (reloc pre lx)) (i (reloc pre lx1))
  = slice (text lx1) (i lx) (i lx1).
Proof. unfold reloc. cbn [text i]. apply slice_reloc. Qed.

Lemma while_fuel_reloc pre guard body :
  (forall l, guard (reloc pre l) = guard l) ->
  (forall l, body (reloc pre l) = option_map (reloc pre) (body l)) ->
  forall fuel lx,
    while_fuel fuel guard body (reloc pre lx)
    = reloc pre (while_fuel fuel guard body lx).
Proof.
  intros Hg Hb. induction fuel as [|fuel IH]; intros lx; [reflexivity|].
  cbn [while_fuel]. rewrite Hg, Hb.
  destruct (guard lx); [|reflexivity].
  destruct (body lx) as [l'|]; cbn [option_map]; [apply IH | reflexivity].
Qed.

Lemma while_loop_reloc pre guard body :
  (forall l, guard (reloc pre l) = guard l) ->
  (forall l, body (reloc pre l) = option_map (reloc pre) (body l)) ->
  forall lx,
    while_loop guard body (reloc pre lx)
    = reloc pre (while_loop guard body lx).
Proof.
  intros Hg Hb lx. unfold while_loop.
  replace (n (reloc pre lx) - i (reloc pre lx)) with (n lx - i lx).
  - apply while_fuel_reloc; assumption.
  - rewrite n_reloc. unfold reloc. cbn [i]. lia.
Qed.

Lemma step1_reloc pre l :
  step1 (reloc pre l) = option_map (reloc pre) (step1 l).
Proof. unfold step1. rewrite advance_reloc. reflexivity. Qed.

Lemma skip_whitespace_reloc pre lx :
  skip_whitespace (reloc pre lx) = reloc pre (skip_whitespace lx).
Proof.
  unfold skip_whitespace. apply while_loop_reloc.
  - intros l. rewrite eof_reloc, peek_reloc. reflexivity.
  - apply step1_reloc.
Qed.

Lemma scan_digits_reloc pre lx :
  scan_digits (reloc pre lx) = reloc pre (scan_digits lx).
Proof.
  unfold scan_digits. apply while_loop_reloc.
  - intros l. rewrite eof_reloc, peek_reloc. reflexivity.
  - apply step1_reloc.
Qed.

Lemma skip_comments_reloc pre lx :
  skip_comments (reloc pre lx) = reloc_result pre (skip_comments lx).
Proof.
  unfold skip_comments. cbv zeta. rewrite !peek_reloc.
  destruct (str_eqb (peek lx 0) (lit "/") && str_eqb (peek lx 1) (lit "/")).
  - rewrite while_loop_reloc;
      [| intros l; rewrite eof_reloc, peek_reloc; reflexivity
       | apply step1_reloc].
    unfold reloc_result. cbn [fst snd]. rewrite lexeme_reloc. reflexivity.
  - destruct (str_eqb (peek lx 0) (lit "/") && str_eqb (peek lx 1) (lit "*"));
      [|reflexivity].
    rewrite advance_reloc.
    rewrite while_loop_reloc;
      [| intros l; rewrite eof_reloc, !peek_reloc; reflexivity
       | apply step1_reloc].
    rewrite eof_reloc, advance_reloc.
    unfold reloc_result. cbn [fst snd].
    destruct (eof _); cbn [negb]; rewrite lexeme_reloc; reflexivity.
Qed.

Lemma lex_identifier_reloc pre lx :
  lex_identifier (reloc pre lx) = reloc_result pre (lex_identifier lx).
Proof.
  unfold lex_identifier. cbv zeta. rewrite peek_reloc.
  destruct (is_letter (peek lx 0)); cbn [negb]; [|reflexivity].
  rewrite advance_reloc.
  rewrite while_loop_reloc;
    [| intros l; rewrite eof_reloc; reflexivity
     | intros l; rewrite peek_reloc, advance_reloc;
       destruct (_ || _); reflexivity].
  rewrite lexeme_reloc. destruct (mem _ KEYWORDS); reflexivity.
Qed.

Ltac reloc_step :=
  first [rewrite advance_reloc | rewrite peek_reloc | rewrite eof_reloc
        | rewrite scan_digits_reloc | rewrite lexeme_reloc].

Ltac reloc_auto :=
  repeat (repeat reloc_step;
          match goal with
          | |- context [if ?c then _ else _] =>
              lazymatch c with
              | context [if _ then _ else _] => fail
              | context [reloc] => fail
              | _ => destruct c
              end
          end);
  repeat reloc_step; reflexivity.

Lemma lex_integer_reloc pre lx :
  lex_integer (reloc pre lx) = reloc_result pre (lex_integer lx).
Proof. unfold lex_integer, reloc_result. cbv zeta. reloc_auto. Qed.

Lemma lex_real_reloc pre lx :
  lex_real (reloc pre lx) = reloc_result pre (lex_real lx).
Proof. unfold lex_real, reloc_result. cbv zeta. reloc_auto. Qed.

Lemma lex_string_reloc pre lx :
  lex_string (reloc pre lx) = reloc_result pre (lex_string lx).
Proof.
  unfold lex_string. cbv zeta. rewrite peek_reloc.
  destruct (str_eqb (peek lx 0) dquote); cbn [negb]; [|reflexivity].
  rewrite advance_reloc.
  rewrite while_loop_reloc;
    [| intros l; rewrite eof_reloc, peek_reloc; reflexivity
     | intros l; rewrite peek_reloc, advance_reloc;
       destruct (str_eqb _ newline); reflexivity].
  set (L := while_loop _ _ (advance lx 1)).
  unfold reloc_result. reloc_auto.
Qed.

Lemma lex_operator_or_separator_reloc pre lx :
  lex_operator_or_separator (reloc pre lx)
  = reloc_result pre (lex_operator_or_separator lx).
Proof.
  unfold lex_operator_or_separator, reloc_result. cbv zeta. reloc_auto.
Qed.

Lemma try_each_reloc pre fns :
  Forall (fun fn => forall l, fn (reloc pre l) = reloc_result pre (fn l)) fns ->
  forall lx, try_each fns (reloc pre lx) = reloc_result pre (try_each fns lx).
Proof.
  induction 1 as [|fn fns Hfn _ IH]; intros lx; [reflexivity|].
  cbn [try_each]. rewrite Hfn.
  destruct (fn lx) as [[tok|] lx1]; unfold reloc_result; cbn [fst snd].
  - reflexivity.
  - rewrite set_i_reloc. apply IH.
Qed.

Lemma recognizers_reloc pre :
  Forall (fun fn => forall l, fn (reloc pre l) = reloc_result pre (fn l))
         recognizers.
Proof.
  unfold recognizers. repeat constructor; intros l;
    [apply lex_real_reloc | apply lex_integer_reloc
    | apply lex_identifier_reloc | apply lex_string_reloc
    | apply lex_operator_or_separator_reloc].
Qed.

Lemma next_token_reloc pre lx :
  next_token (reloc pre lx) = reloc_result pre (next_token lx).
Proof.
  unfold next_token. rewrite eof_reloc.
  destruct (eof lx); cbn [negb]; [reflexivity|].
  rewrite skip_whitespace_reloc, skip_comments_reloc.
  destruct (skip_comments (skip_whitespace lx)) as [[com|] lx2];
    unfold reloc_result at 1; cbn [fst snd]; [reflexivity|].
  rewrite eof_reloc. destruct (eof lx2); [reflexivity|].
  rewrite (try_each_reloc (recognizers_reloc pre)).
  destruct (try_each recognizers lx2) as [[tok|] lx3];
    unfold reloc_result; cbn [fst snd]; [reflexivity|].
  rewrite peek_reloc, advance_reloc. reflexivity.
Qed.

Lemma run_reloc pre fuel :
  forall lx, run fuel (reloc pre lx) = run fuel lx.
Proof.
  induction fuel as [|fuel IH]; intros lx; [reflexivity|].
  cbn [run]. rewrite next_token_reloc.
  destruct (next_token lx) as [tok lx'].
  unfold reloc_result. cbn [fst snd].
  destruct (TokenType_eqb (fst tok) EOF); [reflexivity|].
  rewrite IH. reflexivity.
Qed.

Lemma mkLexer_reloc (t : str) (k : nat) :
  k <= length t -> mkLexer t k = reloc (firstn k t) (Lexer_init (skipn k t)).
Proof.
  intros H. unfold reloc, Lexer_init. cbn [text i].
  rewrite firstn_skipn, length_firstn. f_equal. lia.
Qed.

Lemma run_more_fuel (fuel : nat) :
  forall lx toks fuel',
    run fuel lx = Some toks -> fuel <= fuel' -> run fuel' lx = Some toks.
Proof.
  induction fuel as [|fuel IH]; intros lx toks fuel' H Hle; [discriminate|].
  destruct fuel' as [|fuel']; [lia|].
  cbn [run] in *. destruct (next_token lx) as [tok lx'].
  destruct (TokenType_eqb (fst tok) EOF); [exact H|].
  destruct (run fuel lx') as [toks'|] eqn:E; [|discriminate].
  rewrite (@IH _ _ fuel' E) by lia. exact H.
Qed.

Lemma run_enough (lx : Lexer) (f1 f2 : nat) :
  i lx <= n lx -> n lx - i lx < f1 -> n lx - i lx < f2 ->
  run f1 lx = run f2 lx.
Proof.
  intros Hi H1 H2.
  destruct (@run_spec f1 lx Hi H1) as (toks & Hr & _).
  destruct (Nat.le_ge_cases f1 f2) as [Hle|Hle].
  - rewrite (@run_more_fuel _ _ _ _ Hr Hle). exact Hr.
  - destruct (@run_spec f2 lx Hi H2) as (toks2 & Hr2 & _).
    rewrite (@run_more_fuel _ _ _ _ Hr2 Hle). symmetry. exact Hr2.
Qed.

Lemma run_from_cursor (t : str) (k fuel : nat) :
  k <= length t ->
  run fuel (mkLexer t k) = run fuel (Lexer_init (skipn k t)).
Proof.
  intros H. rewrite (mkLexer_reloc t H). apply run_reloc.
Qed.

(** X1.  The text before the cursor has no part in lexing: with any text
    [pre] put before the text of the lexer, and the cursor still at the
    same character, [next_token] returns the same token and leaves the
    cursor at the same character as without [pre]. *)
Theorem X1_next_token_ignores_read_text (pre : str) (lx : Lexer) :
  next_token (reloc pre lx)
  = (fst (next_token lx), reloc pre (snd (next_token lx))).
Proof. apply next_token_reloc. Qed.

(** X2.  Lexing resumes like a fresh start: from a cursor [k] inside the
    text, calling [next_token] until [EOF] gives the tokens that a new
    lexer gives on the unread text alone. *)
Theorem X2_resume_is_fresh_start (t : str) (k fuel : nat) :
  k <= length t ->
  run fuel (mkLexer t k) = run fuel (Lexer_init (skipn k t)).
Proof.
  apply run_from_cursor.
Qed.

(** X3.  The tokens of a text are its first token and then the tokens of
    what that first call left unread. *)
Theorem X3_tokenize_unfolds (t : str) (tok : Token) (lx' : Lexer) :
  next_token (Lexer_init t) = (tok, lx') -> fst tok <> EOF ->
  tokenize t = option_map (cons tok) (tokenize (skipn (i lx') t)).
Proof.
  intros H Hk. unfold tokenize at 1. cbn [run]. rewrite H.
  replace (TokenType_eqb (fst tok) EOF) with false
    by (symmetry; destruct (TokenType_eqb (fst tok) EOF) eqn:E;
        [apply TokenType_eqb_eq in E; contradiction | reflexivity]).
  f_equal. destruct tok as [kind lexeme]. apply next_token_ok in H.
  destruct H as (Ht & H1 & H2 & H3 & _ & _ & Hne & _).
  specialize (Hne Hk). unfold n, Lexer_init in *. cbn [text i] in *.
  assert (Hm : i lx' <= length t) by lia.
  destruct lx' as [t' m]. cbn [text i] in *. subst t'.
  rewrite (@run_from_cursor t m (length t) Hm).
  unfold tokenize. apply run_enough.
  - cbn. lia.
  - unfold n, Lexer_init. cbn [text i]. rewrite length_skipn. lia.
  - unfold n, Lexer_init. cbn [text i]. lia.
Qed.

(** ** White space *)

Lemma blank_forallb (g : str) : blank g <-> forallb chr_isspace g = true.
Proof. unfold blank. rewrite forallb_forall, Forall_forall. reflexivity. Qed.

Lemma scan_len_app_all (f : str -> bool) (p : char -> bool) (pre post : str) :
  (forall c s, f (c :: s) = p c) ->
  forallb p pre = true ->
  scan_len f (pre ++ post) = length pre + scan_len f post.
Proof.
  intros Hf. induction pre as [|c pre IH]; intros Hp; [reflexivity|].
  cbn in *. apply andb_true_iff in Hp. destruct Hp as [Hc Hp].
  rewrite Hf, Hc, IH by exact Hp. reflexivity.
Qed.

Lemma scan_space_stops (s : str) :
  stops chr_isspace (skipn (scan_len f_space s) s).
Proof.
  assert (H := @scan_len_stop f_space s).
  destruct (skipn (scan_len f_space s) s) as [|c r]; [exact I|].
  cbn. rewrite <- (f_space_cons c r). apply H. discriminate.
Qed.

Lemma scan_len_stopped (f : str -> bool) (p : char -> bool) (s : str) :
  (forall c s, f (c :: s) = p c) -> stops p s -> scan_len f s = 0.
Proof.
  intros Hf Hs. destruct s as [|c s]; [reflexivity|].
  cbn in *. rewrite Hf, Hs. reflexivity.
Qed.

Lemma skip_whitespace_twice (lx : Lexer) :
  skip_whitespace (skip_whitespace lx) = skip_whitespace lx.
Proof.
  destruct lx as [t k]. rewrite !skip_whitespace_eq.
  rewrite (Nat.add_comm k), <- skipn_skipn.
  rewrite (@scan_len_stopped f_space chr_isspace _ f_space_cons
             (scan_space_stops (skipn k t))).
  f_equal. lia.
Qed.

Lemma skip_comments_at_eof (lx : Lexer) :
  eof lx = true -> skip_comments lx = (None, lx).
Proof.
  destruct lx as [t k]. intros H. rewrite eof_skipn in H.
  unfold skip_comments. rewrite peek0_skipn.
  destruct (skipn k t); [reflexivity | discriminate].
Qed.

Lemma skip_whitespace_at_eof (lx : Lexer) :
  eof lx = true -> skip_whitespace lx = lx.
Proof.
  destruct lx as [t k]. intros H. rewrite eof_skipn in H.
  rewrite skip_whitespace_eq.
  destruct (skipn k t); [cbn; f_equal; lia | discriminate].
Qed.

Lemma next_token_skip_whitespace (lx : Lexer) :
  next_token (skip_whitespace lx) = next_token lx.
Proof.
  destruct (eof lx) eqn:E.
  - rewrite (@skip_whitespace_at_eof _ E). reflexivity.
  - unfold next_token at 2. rewrite E. cbn [negb].
    unfold next_token. rewrite skip_whitespace_twice.
    destruct (eof (skip_whitespace lx)) eqn:E2; cbn [negb]; [|reflexivity].
    rewrite (@skip_comments_at_eof _ E2), E2. reflexivity.
Qed.

Lemma skip_whitespace_prefix (ws t : str) :
  forallb chr_isspace ws = true ->
  skip_whitespace (Lexer_init (ws ++ t))
  = reloc ws (skip_whitespace (Lexer_init t)).
Proof.
  intros H. unfold Lexer_init. rewrite !skip_whitespace_eq.
  unfold reloc. cbn [text i skipn].
  rewrite (@scan_len_app_all f_space chr_isspace ws t f_space_cons H).
  reflexivity.
Qed.

Lemma next_token_prefix (ws t : str) :
  forallb chr_isspace ws = true ->
  next_token (Lexer_init (ws ++ t))
  = reloc_result ws (next_token (Lexer_init t)).
Proof.
  intros H.
  rewrite <- (next_token_skip_whitespace (Lexer_init (ws ++ t))).
  rewrite (@skip_whitespace_prefix ws t H), next_token_reloc.
  rewrite next_token_skip_whitespace. reflexivity.
Qed.

(** X4.  [skip_whitespace] moves the cursor over the longest run of white
    space at the head of the unread text and no further: what is then
    unread does not start with white space, and skipping once more changes
    nothing. *)
Theorem X4_skip_whitespace_exact (lx : Lexer) :
  skip_whitespace lx
  = advance lx (length (take_while chr_isspace (rest lx))) /\
  stops chr_isspace (rest (skip_whitespace lx)) /\
  skip_whitespace (skip_whitespace lx) = skip_whitespace lx.
Proof.
  split; [|split].
  - destruct lx as [t k]. rewrite skip_whitespace_eq.
    unfold advance, set_i, rest. cbn [text i].
    destruct (@scan_len_take_while f_space chr_isspace (skipn k t)
                f_space_cons) as [_ ->].
    reflexivity.
  - destruct lx as [t k]. rewrite skip_whitespace_eq.
    unfold rest. cbn [text i].
    rewrite (Nat.add_comm k), <- skipn_skipn. apply scan_space_stops.
  - apply skip_whitespace_twice.
Qed.

(** X5.  White space before a text does not change its tokens. *)
Theorem X5_leading_blanks_ignored (ws t : str) :
  blank ws -> tokenize (ws ++ t) = tokenize t.
Proof.
  intros Hb. apply blank_forallb in Hb.
  assert (Hrun : forall fuel,
             run fuel (Lexer_init (ws ++ t)) = run fuel (Lexer_init t)).
  { intros [|fuel]; [reflexivity|]. cbn [run].
    rewrite (@next_token_prefix ws t Hb).
    destruct (next_token (Lexer_init t)) as [tok lx'].
    unfold reloc_result. cbn [fst snd].
    destruct (TokenType_eqb (fst tok) EOF); [reflexivity|].
    rewrite run_reloc. reflexivity. }
  unfold tokenize. rewrite Hrun. apply run_enough.
  - cbn. lia.
  - unfold n, Lexer_init. cbn [text i]. rewrite length_app. lia.
  - unfold n, Lexer_init. cbn [text i]. lia.
Qed.

(** X6.  [next_token] returns [EOF] exactly when nothing but white space is
    left to read. *)
Theorem X6_eof_iff_only_blanks_left (lx : Lexer) :
  fst (fst (next_token lx)) = EOF <-> blank (rest lx).
Proof.
  destruct (next_token lx) as [[kind lexeme] lx'] eqn:E. cbn [fst].
  apply next_token_ok in E.
  destruct E as (Ht & H1 & H2 & H3 & Hb & Hl & Hne & He).
  destruct lx as [t k]. rewrite skip_whitespace_eq in *.
  unfold n, rest in *. cbn [text i] in *.
  set (m := scan_len f_space (skipn k t)) in *.
  split.
  - intros Hk. destruct (He Hk) as (_ & Hi & Heof).
    apply eof_true in Heof. unfold n in Heof. rewrite Ht in Heof.
    rewrite slice_to_end in Hb by lia. exact Hb.
  - intros Hall. apply blank_forallb in Hall.
    assert (Hm : m = length (skipn k t)).
    { unfold m.
      rewrite <- (app_nil_r (skipn k t)) at 1.
      rewrite (@scan_len_app_all f_space chr_isspace _ [] f_space_cons Hall).
      cbn. lia. }
    rewrite length_skipn in Hm.
    destruct kind; try reflexivity;
      (assert (Hlt : k + m < i lx') by (apply Hne; discriminate); lia).
Qed.

(** X7.  No lexeme starts with white space. *)
Theorem X7_lexeme_starts_unblank (lx : Lexer) kind lexeme lx' :
  next_token lx = ((kind, lexeme), lx') -> stops chr_isspace lexeme.
Proof.
  intros E. apply next_token_ok in E.
  destruct E as (_ & _ & _ & _ & _ & Hl & _ & _).
  destruct lx as [t k]. rewrite skip_whitespace_eq in Hl.
  cbn [text i] in Hl. subst lexeme. unfold slice.
  rewrite (Nat.add_comm k), <- skipn_skipn.
  assert (Hs := scan_space_stops (skipn k t)).
  destruct (skipn (scan_len f_space (skipn k t)) (skipn k t)) as [|c r].
  - rewrite firstn_nil. exact I.
  - destruct (i lx' - _); [exact I | exact Hs].
Qed.

(** ** Reading a known text, step by step *)

Lemma read_skipn (t : str) (k : nat) (pre post : str) :
  read_since t k pre post -> skipn (k + length pre) t = post.
Proof.
  unfold read_since. intros H.
  rewrite Nat.add_comm, <- skipn_skipn, H. apply skipn_length_app.
Qed.

Lemma read_peek (t : str) (k : nat) (pre post : str) :
  read_since t k pre post ->
  peek (mkLexer t (k + length pre)) 0 = firstn 1 post.
Proof.
  intros H. rewrite peek0_skipn, (@read_skipn t k pre post H). reflexivity.
Qed.

Lemma read_slice (t : str) (k : nat) (pre post : str) :
  read_since t k pre post -> slice t k (k + length pre) = pre.
Proof.
  unfold read_since. intros H. rewrite slice_skipn, H.
  apply firstn_length_app.
Qed.

Lemma read_more (t : str) (k : nat) (pre mid post : str) :
  read_since t k pre (mid ++ post) -> read_since t k (pre ++ mid) post.
Proof. unfold read_since. intros H. rewrite H, app_assoc. reflexivity. Qed.

Lemma read_advance (t : str) (k : nat) (pre : str) (c : char) (post : str) :
  read_since t k pre (c :: post) ->
  advance (mkLexer t (k + length pre)) 1
  = mkLexer t (k + length (pre ++ [c])).
Proof.
  intros _. unfold advance, set_i. cbn [text i].
  rewrite length_app. cbn [length]. f_equal. lia.
Qed.

Lemma read_digits (t : str) (k : nat) (pre ds post : str) :
  read_since t k pre (ds ++ post) ->
  forallb chr_isdigit ds = true -> stops chr_isdigit post ->
  scan_digits (mkLexer t (k + length pre))
  = mkLexer t (k + length (pre ++ ds)).
Proof.
  intros H Hds Hp. rewrite scan_digits_eq, (@read_skipn t k pre _ H).
  rewrite (@scan_len_run f_digit chr_isdigit ds post f_digit_cons Hds Hp).
  rewrite length_app. f_equal. lia.
Qed.

Lemma read_digits0 (t : str) (k : nat) (ds post : str) :
  skipn k t = ds ++ post ->
  forallb chr_isdigit ds = true -> stops chr_isdigit post ->
  scan_digits (mkLexer t k) = mkLexer t (k + length ds).
Proof.
  intros H Hds Hp. rewrite scan_digits_eq, H.
  rewrite (@scan_len_run f_digit chr_isdigit ds post f_digit_cons Hds Hp).
  reflexivity.
Qed.

Lemma digits1_head (ds post : str) :
  digits1 ds -> is_digit (firstn 1 (ds ++ post)) = true.
Proof.
  intros [Hne Hall]. destruct ds as [|d ds]; [contradiction Hne; reflexivity|].
  cbn in Hall. apply andb_true_iff in Hall. destruct Hall as [Hd _].
  cbn [app firstn]. rewrite is_digit_single. exact Hd.
Qed.

Lemma stops_not_digit (post : str) :
  stops chr_isdigit post -> is_digit (firstn 1 post) = false.
Proof.
  destruct post as [|c post]; [reflexivity|]. cbn [firstn stops].
  rewrite is_digit_single. auto.
Qed.

Lemma stops_not_exp (post : str) :
  stops is_exp post -> mem (firstn 1 post) [lit "e"; lit "E"] = false.
Proof.
  destruct post as [|c post]; [reflexivity|]. cbn [firstn stops].
  unfold is_exp, mem. cbn [existsb].
  change (lit "e") with [101%N]. change (lit "E") with [69%N].
  rewrite !str_eqb_single, orb_false_r. auto.
Qed.

Lemma stops_not_sign (post : str) :
  stops is_sign post -> mem (firstn 1 post) [lit "+"; lit "-"] = false.
Proof.
  destruct post as [|c post]; [reflexivity|]. cbn [firstn stops].
  unfold is_sign, mem. cbn [existsb].
  change (lit "+") with [43%N]. change (lit "-") with [45%N].
  rewrite !str_eqb_single, orb_false_r. auto.
Qed.

Lemma digit_not_sign (ds post : str) :
  digits1 ds -> mem (firstn 1 (ds ++ post)) [lit "+"; lit "-"] = false.
Proof.
  intros [Hne Hall]. destruct ds as [|d ds]; [contradiction Hne; reflexivity|].
  cbn in Hall. apply andb_true_iff in Hall. destruct Hall as [Hd _].
  apply (@stops_not_sign ((d :: ds) ++ post)). cbn. unfold is_sign.
  rewrite (@digit_is_not d 43%N Hd), (@digit_is_not d 45%N Hd); reflexivity.
Qed.

(** The real recognizer up to the end of the fraction: with [ip] and [fp]
    runs of digits, it stands behind [ip ++ "." ++ fp]. *)
Lemma lex_real_mantissa (t : str) (k : nat) (ip fp post : str) :
  skipn k t = ip ++ lit "." ++ fp ++ post ->
  digits1 ip -> digits1 fp -> stops chr_isdigit post ->
  read_since t k (ip ++ lit "." ++ fp) post /\
  lex_real (mkLexer t k)
  = let lx3 := mkLexer t (k + length (ip ++ lit "." ++ fp)) in
    if mem (peek lx3 0) [lit "e"; lit "E"] then
      let lx4 := advance lx3 1 in
      let lx5 := if mem (peek lx4 0) [lit "+"; lit "-"]
                 then advance lx4 1 else lx4 in
      if negb (is_digit (peek lx5 0)) then (None, set_i lx5 k)
      else
        let lx6 := scan_digits lx5 in
        (Some (REAL, slice (text lx6) k (i lx6)), lx6)
    else (Some (REAL, slice (text lx3) k (i lx3)), lx3).
Proof.
  intros Hs Hip Hfp Hpost.
  assert (R0 : read_since t k [] (ip ++ lit "." ++ fp ++ post)) by exact Hs.
  assert (R1 : read_since t k ip (lit "." ++ fp ++ post))
    by exact (@read_more t k [] ip _ R0).
  assert (R2 : read_since t k (ip ++ lit ".") (fp ++ post))
    by exact (@read_more t k ip (lit ".") _ R1).
  assert (R3 : read_since t k (ip ++ lit "." ++ fp) post).
  { unfold read_since in *. rewrite Hs, <- !app_assoc. reflexivity. }
  split; [exact R3|].
  unfold lex_real. cbv zeta.
  rewrite peek0_skipn, Hs, (@digits1_head ip _ Hip). cbn [negb].
  rewrite (@read_digits0 t k ip (lit "." ++ fp ++ post) Hs (proj2 Hip) eq_refl).
  rewrite (@read_peek t k ip _ R1).
  change (str_eqb (firstn 1 (lit "." ++ fp ++ post)) (lit ".")) with true.
  cbn [negb].
  rewrite (@read_advance t k ip 46%N (fp ++ post) R1).
  change (ip ++ [46%N]) with (ip ++ lit ".").
  rewrite (@read_peek t k _ _ R2), (@digits1_head fp post Hfp). cbn [negb].
  rewrite (@read_digits t k (ip ++ lit ".") fp post R2 (proj2 Hfp) Hpost).
  rewrite <- app_assoc. reflexivity.
Qed.

Lemma lex_real_no_fraction (t : str) (k : nat) (ip post : str) :
  skipn k t = ip ++ lit "." ++ post ->
  digits1 ip -> stops chr_isdigit post ->
  lex_real (mkLexer t k) = (None, mkLexer t k).
Proof.
  intros Hs Hip Hpost.
  assert (R1 : read_since t k ip (lit "." ++ post)) by exact Hs.
  assert (R2 : read_since t k (ip ++ lit ".") post)
    by exact (@read_more t k ip (lit ".") _ R1).
  unfold lex_real. cbv zeta.
  rewrite peek0_skipn, Hs, (@digits1_head ip _ Hip). cbn [negb].
  rewrite (@read_digits0 t k ip (lit "." ++ post) Hs (proj2 Hip) eq_refl).
  rewrite (@read_peek t k ip _ R1).
  change (str_eqb (firstn 1 (lit "." ++ post)) (lit ".")) with true.
  cbn [negb].
  rewrite (@read_advance t k ip 46%N post R1).
  change (ip ++ [46%N]) with (ip ++ lit ".").
  rewrite (@read_peek t k _ _ R2), (@stops_not_digit post Hpost). reflexivity.
Qed.

Lemma lex_real_plain (t : str) (k : nat) (ip fp post : str) :
  skipn k t = ip ++ lit "." ++ fp ++ post ->
  digits1 ip -> digits1 fp ->
  stops chr_isdigit post -> stops is_exp post ->
  lex_real (mkLexer t k)
  = (Some (REAL, ip ++ lit "." ++ fp),
     mkLexer t (k + length (ip ++ lit "." ++ fp))).
Proof.
  intros Hs Hip Hfp Hp1 Hp2.
  destruct (@lex_real_mantissa t k ip fp post Hs Hip Hfp Hp1) as [R3 ->].
  cbv zeta. rewrite (@read_peek t k _ _ R3), (@stops_not_exp post Hp2).
  cbn [text i]. rewrite (@read_slice t k _ _ R3). reflexivity.
Qed.

Lemma sign_cases (sign : str) :
  In sign [[]; lit "+"; lit "-"] ->
  sign = [] \/ exists sg, sign = [sg] /\ is_sign sg = true.
Proof.
  intros [<- | [<- | [<- | []]]]; [left; reflexivity | right ..];
    eexists; split; reflexivity.
Qed.

Lemma exp_head (e : char) (s : str) :
  is_exp e = true -> mem (firstn 1 (e :: s)) [lit "e"; lit "E"] = true.
Proof.
  intros H. cbn [firstn]. unfold mem. cbn [existsb].
  change (lit "e") with [101%N]. change (lit "E") with [69%N].
  rewrite !str_eqb_single, orb_false_r. exact H.
Qed.

Lemma sign_head (sg : char) (s : str) :
  is_sign sg = true -> mem (firstn 1 (sg :: s)) [lit "+"; lit "-"] = true.
Proof.
  intros H. cbn [firstn]. unfold mem. cbn [existsb].
  change (lit "+") with [43%N]. change (lit "-") with [45%N].
  rewrite !str_eqb_single, orb_false_r. exact H.
Qed.

(** The real recognizer behind the letter of an exponent: it reads a sign,
    if there is one, and stands before what should be digits. *)
Lemma lex_real_exponent_head
      (t : str) (k : nat) (ip fp : str) (e : char) (sign post : str) :
  skipn k t = ip ++ lit "." ++ fp ++ e :: sign ++ post ->
  digits1 ip -> digits1 fp -> is_exp e = true ->
  In sign [[]; lit "+"; lit "-"] ->
  (sign = [] -> stops is_sign post) ->
  let m := ip ++ lit "." ++ fp ++ e :: sign in
  read_since t k m post /\
  lex_real (mkLexer t k)
  = let lx5 := mkLexer t (k + length m) in
    if negb (is_digit (peek lx5 0)) then (None, set_i lx5 k)
    else
      let lx6 := scan_digits lx5 in
      (Some (REAL, slice (text lx6) k (i lx6)), lx6).
Proof.
  intros Hs Hip Hfp He Hsign Hnosign m.
  assert (Hd : stops chr_isdigit (e :: sign ++ post)).
  { cbn. destruct (chr_isdigit e) eqn:E; [|reflexivity].
    unfold is_exp in He.
    rewrite (@digit_is_not e 101%N E), (@digit_is_not e 69%N E) in He
      by reflexivity.
    discriminate He. }
  destruct (@lex_real_mantissa t k ip fp (e :: sign ++ post) Hs Hip Hfp Hd)
    as [R3 ->].
  cbv zeta. rewrite (@read_peek t k _ _ R3), (@exp_head e _ He).
  rewrite (@read_advance t k _ e (sign ++ post) R3).
  assert (R4 : read_since t k ((ip ++ lit "." ++ fp) ++ [e]) (sign ++ post))
    by exact (@read_more t k _ [e] _ R3).
  assert (Rm : read_since t k m post).
  { unfold read_since, m. rewrite Hs, <- ?app_assoc. cbn [app].
    rewrite <- ?app_assoc. reflexivity. }
  split; [exact Rm|].
  rewrite (@read_peek t k _ _ R4).
  destruct (@sign_cases sign Hsign) as [-> | (sg & -> & Hsg)].
  - cbn [app]. rewrite (@stops_not_sign post (Hnosign eq_refl)).
    replace ((ip ++ lit "." ++ fp) ++ [e]) with m
      by (unfold m; rewrite <- ?app_assoc; reflexivity).
    reflexivity.
  - cbn [app] in *. rewrite (@sign_head sg _ Hsg).
    rewrite (@read_advance t k _ sg post R4).
    replace (((ip ++ lit "." ++ fp) ++ [e]) ++ [sg]) with m
      by (unfold m; rewrite <- ?app_assoc; reflexivity).
    reflexivity.
Qed.

Lemma lex_real_exponent
      (t : str) (k : nat) (ip fp : str) (e : char) (sign dp post : str) :
  skipn k t = ip ++ lit "." ++ fp ++ e :: sign ++ dp ++ post ->
  digits1 ip -> digits1 fp -> is_exp e = true ->
  In sign [[]; lit "+"; lit "-"] -> digits1 dp ->
  stops chr_isdigit post ->
  let w := ip ++ lit "." ++ fp ++ e :: sign ++ dp in
  lex_real (mkLexer t k) = (Some (REAL, w), mkLexer t (k + length w)).
Proof.
  intros Hs Hip Hfp He Hsign Hdp Hpost w.
  destruct (@lex_real_exponent_head t k ip fp e sign (dp ++ post)
              Hs Hip Hfp He Hsign) as [Rm ->].
  { intros _. destruct Hdp as [Hne Hall].
    destruct dp as [|d dp]; [contradiction Hne; reflexivity|].
    cbn in Hall |- *. apply andb_true_iff in Hall. destruct Hall as [Hd _].
    unfold is_sign.
    rewrite (@digit_is_not d 43%N Hd), (@digit_is_not d 45%N Hd);
      reflexivity. }
  cbv zeta. rewrite (@read_peek t k _ _ Rm), (@digits1_head dp post Hdp).
  cbn [negb].
  rewrite (@read_digits t k _ dp post Rm (proj2 Hdp) Hpost).
  assert (Rw : read_since t k w post).
  { unfold read_since, w. rewrite Hs, <- ?app_assoc. cbn [app].
    rewrite <- ?app_assoc. reflexivity. }
  replace ((ip ++ lit "." ++ fp ++ e :: sign) ++ dp) with w
    by (unfold w; rewrite <- ?app_assoc; cbn [app];
        rewrite <- ?app_assoc; reflexivity).
  cbn [text i]. rewrite (@read_slice t k _ _ Rw). reflexivity.
Qed.

Lemma lex_real_bad_exponent
      (t : str) (k : nat) (ip fp : str) (e : char) (sign post : str) :
  skipn k t = ip ++ lit "." ++ fp ++ e :: sign ++ post ->
  digits1 ip -> digits1 fp -> is_exp e = true ->
  In sign [[]; lit "+"; lit "-"] ->
  (sign = [] -> stops is_sign post) -> stops chr_isdigit post ->
  lex_real (mkLexer t k) = (None, mkLexer t k).
Proof.
  intros Hs Hip Hfp He Hsign Hnosign Hpost.
  destruct (@lex_real_exponent_head t k ip fp e sign post
              Hs Hip Hfp He Hsign Hnosign) as [Rm ->].
  cbv zeta. rewrite (@read_peek t k _ _ Rm), (@stops_not_digit post Hpost).
  reflexivity.
Qed.

(** ** The form of the lexemes *)

Lemma take_while_all (p : char -> bool) (s : str) :
  forallb p (take_while p s) = true.
Proof.
  induction s as [|c s IH]; [reflexivity|]. cbn.
  destruct (p c) eqn:E; [|reflexivity]. cbn. rewrite E, IH. reflexivity.
Qed.

Lemma split_run (p : char -> bool) (s : str) :
  exists post, s = take_while p s ++ post /\ stops p post.
Proof.
  induction s as [|c s (post & E & Hs)].
  - exists []. split; [reflexivity | exact I].
  - cbn [take_while]. destruct (p c) eqn:Ec.
    + exists post. split; [cbn; f_equal; exact E | exact Hs].
    + exists (c :: s). split; [reflexivity | exact Ec].
Qed.

Lemma take_while_nil_stops (p : char -> bool) (s : str) :
  take_while p s = [] -> stops p s.
Proof.
  destruct s as [|c s]; [intros _; exact I|]. cbn.
  destruct (p c); [discriminate | reflexivity].
Qed.

Lemma digits1_take_while (d : char) (s : str) :
  chr_isdigit d = true -> digits1 (d :: take_while chr_isdigit s).
Proof.
  intros H. split; [discriminate|]. cbn. rewrite H, take_while_all.
  reflexivity.
Qed.

Lemma run_nonempty (p : char -> bool) (s : str) :
  take_while p s <> [] ->
  exists c r, take_while p s = c :: r /\ p c = true.
Proof.
  destruct s as [|c s]; cbn; [intros H; contradiction H; reflexivity|].
  destruct (p c) eqn:E; [|intros H; contradiction H; reflexivity].
  intros _. exists c, (take_while p s). split; [reflexivity | exact E].
Qed.

Lemma digits1_run (s : str) :
  take_while chr_isdigit s <> [] -> digits1 (take_while chr_isdigit s).
Proof. intros H. split; [exact H | apply take_while_all]. Qed.

Lemma result_inj (k1 k2 : TokenType) (w1 w2 : str) (l1 l2 : Lexer) :
  (Some (k1, w1), l1) = (Some (k2, w2), l2) ->
  k1 = k2 /\ w1 = w2 /\ l1 = l2.
Proof. intros H. inversion H. repeat split. Qed.

Lemma lex_real_shape (lx : Lexer) kind w lx' :
  lex_real lx = (Some (kind, w), lx') ->
  kind = REAL /\ real_shape w /\ stops chr_isdigit (rest lx').
Proof.
  destruct lx as [t k]. intros H.
  destruct (skipn k t) as [|d s0] eqn:Es.
  { rewrite lex_real_not_digit in H by (rewrite Es; exact I).
    discriminate H. }
  destruct (chr_isdigit d) eqn:Ed.
  2:{ rewrite lex_real_not_digit in H by (rewrite Es; exact Ed).
      discriminate H. }
  destruct (split_run chr_isdigit s0) as (s1 & E1 & Hs1).
  set (ip := d :: take_while chr_isdigit s0) in *.
  assert (Hip : digits1 ip) by (apply digits1_take_while, Ed).
  assert (E : skipn k t = ip ++ s1).
  { rewrite Es. unfold ip. cbn [app]. f_equal. exact E1. }
  destruct s1 as [|c s2].
  { rewrite (@lex_real_no_dot t k d (take_while chr_isdigit s0) [])
      in H; [discriminate H | exact E | exact Ed
             | apply take_while_all | exact I | exact I]. }
  destruct (N.eqb c 46) eqn:Ec.
  2:{ rewrite (@lex_real_no_dot t k d (take_while chr_isdigit s0) (c :: s2))
        in H; [discriminate H | exact E | exact Ed
               | apply take_while_all | exact Hs1 | exact Ec]. }
  apply N.eqb_eq in Ec. subst c.
  destruct (split_run chr_isdigit s2) as (s3 & E3 & Hs3).
  destruct (take_while chr_isdigit s2) as [|f fp'] eqn:Efp.
  { rewrite (@lex_real_no_fraction t k ip s2) in H;
      [discriminate H | exact E | exact Hip
       | apply take_while_nil_stops; exact Efp]. }
  assert (Hfp : digits1 (f :: fp')).
  { rewrite <- Efp. apply digits1_run. rewrite Efp. discriminate. }
  set (fp := f :: fp') in *.
  assert (E' : skipn k t = ip ++ lit "." ++ fp ++ s3).
  { rewrite E. f_equal. change (lit "." ++ fp ++ s3) with (46%N :: fp ++ s3).
    f_equal. exact E3. }
  destruct s3 as [|e s4].
  { rewrite (@lex_real_plain t k ip fp [] E' Hip Hfp I I) in H.
    apply result_inj in H. destruct H as (<- & <- & <-).
    split; [reflexivity|]. split.
    - exists ip, fp, []. rewrite app_nil_r.
      repeat split; try apply Hip; try apply Hfp. left. reflexivity.
    - unfold rest. cbn [text i].
      rewrite (@read_skipn t k (ip ++ lit "." ++ fp) [])
        by (unfold read_since; rewrite E', <- ?app_assoc; reflexivity).
      exact I. }
  destruct (is_exp e) eqn:Ee.
  2:{ rewrite (@lex_real_plain t k ip fp (e :: s4) E' Hip Hfp Hs3 Ee) in H.
      apply result_inj in H. destruct H as (<- & <- & <-).
    split; [reflexivity|]. split.
      - exists ip, fp, []. rewrite app_nil_r.
        repeat split; try apply Hip; try apply Hfp. left. reflexivity.
      - unfold rest. cbn [text i].
        rewrite (@read_skipn t k (ip ++ lit "." ++ fp) (e :: s4))
          by (unfold read_since; rewrite E', <- ?app_assoc; reflexivity).
        exact Hs3. }
  assert (Hsg : exists sign s5,
             s4 = sign ++ s5 /\ In sign [[]; lit "+"; lit "-"] /\
             (sign = [] -> stops is_sign s5)).
  { destruct s4 as [|sg s5].
    - exists [], []. split; [reflexivity|]. split; [left; reflexivity|].
      intros _. exact I.
    - destruct (is_sign sg) eqn:Esg.
      + exists [sg], s5. split; [reflexivity|]. split; [|discriminate].
        unfold is_sign in Esg. apply orb_true_iff in Esg.
        destruct Esg as [Esg|Esg]; apply N.eqb_eq in Esg; subst sg;
          [right; left | right; right; left]; reflexivity.
      + exists [], (sg :: s5). split; [reflexivity|].
        split; [left; reflexivity|]. intros _. exact Esg. }
  destruct Hsg as (sign & s5 & E4 & Hsign & Hnosign). subst s4.
  destruct (split_run chr_isdigit s5) as (s6 & E6 & Hs6).
  destruct (take_while chr_isdigit s5) as [|g dp'] eqn:Edp.
  { rewrite (@lex_real_bad_exponent t k ip fp e sign s5 E' Hip Hfp Ee
               Hsign Hnosign) in H;
      [discriminate H | apply take_while_nil_stops; exact Edp]. }
  assert (Hdp : digits1 (g :: dp')).
  { rewrite <- Edp. apply digits1_run. rewrite Edp. discriminate. }
  set (dp := g :: dp') in *.
  assert (E'' : skipn k t = ip ++ lit "." ++ fp ++ e :: sign ++ dp ++ s6).
  { rewrite E'. rewrite E6 at 1. reflexivity. }
  rewrite (@lex_real_exponent t k ip fp e sign dp s6 E'' Hip Hfp Ee
             Hsign Hdp Hs6) in H.
  apply result_inj in H. destruct H as (<- & <- & <-).
    split; [reflexivity|]. split.
  - exists ip, fp, (e :: sign ++ dp).
    split; [reflexivity|]. split; [exact Hip|]. split; [exact Hfp|].
    right. exists e, sign, dp. repeat split; try assumption; apply Hdp.
  - unfold rest. cbn [text i].
    rewrite (@read_skipn t k (ip ++ lit "." ++ fp ++ e :: sign ++ dp) s6);
      [exact Hs6|].
    unfold read_since. rewrite E'', <- ?app_assoc. cbn [app].
    rewrite <- ?app_assoc. reflexivity.
Qed.

Lemma str_in_single (d : char) (s : str) :
  str_in [d] s = true -> In d s.
Proof.
  induction s as [|c s IH]; cbn [str_in]; [discriminate|].
  intros H. apply orb_true_iff in H. destruct H as [H|H].
  - cbn in H. rewrite andb_true_r in H. apply N.eqb_eq in H.
    left. symmetry. exact H.
  - right. apply IH. exact H.
Qed.

Lemma rest_after (t : str) (k : nat) (pre post : str) :
  skipn k t = pre ++ post -> rest (mkLexer t (k + length pre)) = post.
Proof. intros H. unfold rest. cbn [text i]. exact (read_skipn H). Qed.

Lemma lex_integer_shape (lx : Lexer) kind w lx' :
  lex_integer lx = (Some (kind, w), lx') ->
  kind = INTEGER /\ integer_shape w /\ stops is_dot (rest lx').
Proof.
  assert (Hdot : forall post, str_eqb (firstn 1 post) (lit ".") = false ->
                              stops is_dot post).
  { intros [|c post] H; [exact I|]. cbn [firstn] in H.
    change (lit ".") with [46%N] in H. rewrite str_eqb_single in H.
    exact H. }
  destruct lx as [t k]. intros H.
  destruct (skipn k t) as [|d s0] eqn:Es.
  { rewrite lex_integer_not_digit in H by (rewrite Es; exact I).
    discriminate H. }
  destruct (N.eqb_spec d 48) as [->|Hd0].
  - rewrite (@lex_integer_zero t k s0 Es) in H.
    destruct (str_eqb (firstn 1 s0) (lit ".")) eqn:E; [discriminate H|].
    apply result_inj in H. destruct H as (<- & <- & <-).
    split; [reflexivity|]. split; [left; reflexivity|].
    assert (Hr := @rest_after t k [48%N] s0 Es). cbn [length] in Hr.
    rewrite Hr. apply Hdot, E.
  - destruct (str_in [d] (lit "123456789")) eqn:Ein.
    + assert (Hd : nonzero_digit d) by (apply str_in_single, Ein).
      destruct (split_run chr_isdigit s0) as (post & E1 & Hpost).
      assert (E : skipn k t = d :: take_while chr_isdigit s0 ++ post).
      { rewrite Es. f_equal. exact E1. }
      rewrite (@lex_integer_nonzero t k d _ post E Hd
                 (take_while_all _ _) Hpost) in H.
      destruct (str_eqb (firstn 1 post) (lit ".")) eqn:Ep; [discriminate H|].
      apply result_inj in H. destruct H as (<- & <- & <-).
      split; [reflexivity|]. split.
      * right. exists d, (take_while chr_isdigit s0).
        split; [reflexivity|]. split; [exact Hd | apply take_while_all].
      * assert (Hr := @rest_after t k (d :: take_while chr_isdigit s0)
                                   post E).
        cbn [length] in Hr. rewrite Hr. apply Hdot, Ep.
    + unfold lex_integer in H. rewrite peek0_skipn, Es in H.
      cbn [firstn] in H. change (lit "0") with [48%N] in H.
      rewrite str_eqb_single in H.
      apply N.eqb_neq in Hd0. rewrite Hd0, Ein in H.
      destruct (negb (is_digit [d])); discriminate H.
Qed.

Lemma lex_identifier_shape (lx : Lexer) kind w lx' :
  lex_identifier lx = (Some (kind, w), lx') ->
  (kind = KEYWORD \/ kind = IDENTIFIER) /\ token_shape kind w /\
  stops ident_char (rest lx').
Proof.
  destruct lx as [t k]. intros H.
  destruct (skipn k t) as [|l tail] eqn:Es.
  { unfold lex_identifier in H. rewrite peek0_skipn, Es in H.
    discriminate H. }
  destruct (chr_isalpha l) eqn:El.
  2:{ unfold lex_identifier in H. rewrite peek0_skipn, Es in H.
      cbn [firstn] in H. rewrite is_letter_single, El in H.
      discriminate H. }
  rewrite (@lex_identifier_letter t k l tail Es El) in H.
  cbv zeta in H.
  set (w0 := l :: take_while ident_char tail) in *.
  assert (Hshape : ident_shape w0).
  { exists l, (take_while ident_char tail).
    split; [reflexivity|]. split; [exact El | apply take_while_all]. }
  destruct (split_run ident_char tail) as (post & E1 & Hpost).
  assert (Hrest : rest (mkLexer t (k + length w0)) = post).
  { apply rest_after. rewrite Es. unfold w0. cbn [app]. f_equal. exact E1. }
  destruct (mem w0 KEYWORDS) eqn:Ek;
    apply result_inj in H; destruct H as (<- & <- & <-);
    rewrite Hrest.
  - split; [left; reflexivity|]. split; [split; assumption | exact Hpost].
  - split; [right; reflexivity|]. split; [split; assumption | exact Hpost].
Qed.

Lemma lex_string_shape (lx : Lexer) kind w lx' :
  lex_string lx = (Some (kind, w), lx') ->
  kind = STRING /\ string_shape w.
Proof.
  destruct lx as [t k]. intros H.
  destruct (skipn k t) as [|c s0] eqn:Es.
  { unfold lex_string in H. rewrite peek0_skipn, Es in H. discriminate H. }
  destruct (N.eqb c 34) eqn:Ec.
  2:{ unfold lex_string in H. rewrite peek0_skipn, Es in H.
      cbn [firstn] in H. unfold dquote in H.
      rewrite str_eqb_single, Ec in H. discriminate H. }
  apply N.eqb_eq in Ec. subst c.
  destruct (split_run string_char s0) as (tail & E1 & Htail).
  set (body := take_while string_char s0) in *.
  assert (E : skipn k t = dquote ++ body ++ tail).
  { rewrite Es. unfold dquote. cbn [app]. f_equal. exact E1. }
  rewrite (@lex_string_scan t k body tail E (take_while_all _ _) Htail) in H.
  cbv zeta in H.
  destruct tail as [|q tail'].
  - cbn [firstn] in H.
    change (str_eqb [] dquote) with false in H. cbv iota in H.
    apply result_inj in H. destruct H as (<- & <- & _).
    split; [reflexivity|]. exists body, [].
    split; [|split; [apply take_while_all | left; reflexivity]].
    rewrite app_nil_r in *.
    replace (k + 1 + length body) with (k + length (dquote ++ body))
      by (rewrite length_app; cbn; lia).
    apply (@read_slice t k (dquote ++ body) []).
    unfold read_since. rewrite E, app_nil_r. reflexivity.
  - cbn [firstn] in H. unfold dquote in H at 1.
    rewrite str_eqb_single in H.
    destruct (N.eqb q 34) eqn:Eq.
    + apply N.eqb_eq in Eq. subst q.
      apply result_inj in H. destruct H as (<- & <- & _).
      split; [reflexivity|]. exists body, dquote.
      split; [|split; [apply take_while_all | right; reflexivity]].
      replace (k + 1 + length body + 1)
        with (k + length (dquote ++ body ++ dquote))
        by (rewrite !length_app; cbn; lia).
      apply (@read_slice t k (dquote ++ body ++ dquote) tail').
      unfold read_since. rewrite E, <- ?app_assoc. reflexivity.
    + apply result_inj in H. destruct H as (<- & <- & _).
      split; [reflexivity|]. exists body, [].
      split; [|split; [apply take_while_all | left; reflexivity]].
      rewrite app_nil_r.
      replace (k + 1 + length body) with (k + length (dquote ++ body))
        by (rewrite length_app; cbn; lia).
      apply (@read_slice t k (dquote ++ body) (q :: tail')).
      unfold read_since. rewrite E, <- ?app_assoc. reflexivity.
Qed.

Lemma lex_operator_or_separator_shape (lx : Lexer) kind w lx' :
  lex_operator_or_separator lx = (Some (kind, w), lx') ->
  (kind = OPERATOR \/ kind = SEPARATOR) /\ token_shape kind w.
Proof.
  unfold lex_operator_or_separator. cbv zeta.
  destruct (mem (peek lx 0 ++ peek lx 1) MULTI_CHAR_OPS) eqn:E2.
  { intros H. apply result_inj in H. destruct H as (<- & <- & _).
    split; left; [reflexivity | exact E2]. }
  destruct (mem (peek lx 0) SINGLE_CHAR_OPS) eqn:E1.
  { intros H. apply result_inj in H. destruct H as (<- & <- & _).
    split; [left; reflexivity | right; exact E1]. }
  destruct (mem (peek lx 0) SEPARATORS) eqn:E0; [|discriminate].
  intros H. apply result_inj in H. destruct H as (<- & <- & _).
  split; [right; reflexivity | exact E0].
Qed.

(** ** Comments *)

Lemma f_line_char c s : f_line (c :: s) = line_char c.
Proof. apply f_line_cons. Qed.

Lemma take_while_run (p : char -> bool) (pre post : str) :
  forallb p pre = true -> stops p post -> take_while p (pre ++ post) = pre.
Proof.
  induction pre as [|c pre IH]; intros Hp Hs.
  - destruct post as [|c post]; [reflexivity|]. cbn in *. rewrite Hs.
    reflexivity.
  - cbn in *. apply andb_true_iff in Hp. destruct Hp as [Hc Hp].
    rewrite Hc, IH by assumption. reflexivity.
Qed.

Lemma skip_comments_line (t : str) (k : nat) (s' : str) :
  skipn k t = lit "//" ++ s' ->
  let w := lit "//" ++ take_while line_char s' in
  skip_comments (mkLexer t k) = (Some (COMMENT, w), mkLexer t (k + length w)).
Proof.
  intros Hs w. unfold skip_comments. cbv zeta.
  rewrite peek0_skipn, peek_skipn, (@skipn_after _ _ _ _ Hs), Hs.
  replace (str_eqb (firstn 1 (lit "//" ++ s')) (lit "/")) with true
    by reflexivity.
  replace (str_eqb (firstn 1 (skipn 1 (lit "//" ++ s'))) (lit "/")) with true
    by reflexivity.
  cbn [andb]. rewrite line_loop_eq, Hs.
  change (lit "//" ++ s') with (47%N :: 47%N :: s').
  cbn [scan_len]. rewrite !f_line_cons.
  change (negb (N.eqb 47 10)) with true. cbv iota.
  destruct (@scan_len_take_while f_line line_char s' f_line_char) as [E1 E2].
  assert (Hlen : k + S (S (scan_len f_line s')) = k + length w).
  { unfold w. rewrite length_app, E2. cbn. lia. }
  rewrite Hlen. cbn [text i]. f_equal. f_equal. f_equal.
  rewrite slice_skipn, Hs. unfold w.
  rewrite length_app, <- E2.
  change (firstn (length (lit "//") + scan_len f_line s') (lit "//" ++ s'))
    with (lit "//" ++ firstn (scan_len f_line s') s').
  rewrite E1. reflexivity.
Qed.

Lemma skip_comments_other (t : str) (k : nat) :
  firstn 2 (skipn k t) <> lit "//" -> firstn 2 (skipn k t) <> lit "/*" ->
  skip_comments (mkLexer t k) = (None, mkLexer t k).
Proof.
  intros H1 H2. unfold skip_comments.
  rewrite peek0_skipn, peek_skipn, (Nat.add_comm k 1), <- skipn_skipn.
  destruct (skipn k t) as [|a [|b r]]; [reflexivity | |].
  - cbn [skipn firstn]. rewrite !andb_false_r. reflexivity.
  - cbn [skipn firstn] in *.
    change (lit "/") with [47%N]. change (lit "*") with [42%N].
    rewrite !str_eqb_single.
    destruct (N.eqb_spec a 47) as [->|Ha]; [|reflexivity].
    destruct (N.eqb_spec b 47) as [->|Hb];
      [contradiction H1; reflexivity|].
    destruct (N.eqb_spec b 42) as [->|Hb2];
      [contradiction H2; reflexivity|]. reflexivity.
Qed.

Lemma skip_comments_shape (lx : Lexer) kind w lx' :
  skip_comments lx = (Some (kind, w), lx') ->
  kind = COMMENT /\ comment_shape w.
Proof.
  destruct lx as [t k]. intros H.
  destruct (list_eq_dec N.eq_dec (firstn 2 (skipn k t)) (lit "//")) as [E|E1].
  - assert (Hs : skipn k t = lit "//" ++ skipn 2 (skipn k t)).
    { rewrite <- E. symmetry. apply firstn_skipn. }
    rewrite (@skip_comments_line t k _ Hs) in H. cbv zeta in H.
    apply result_inj in H. destruct H as (<- & <- & _).
    split; [reflexivity|]. left. eexists. split; [reflexivity|].
    apply take_while_all.
  - destruct (list_eq_dec N.eq_dec (firstn 2 (skipn k t)) (lit "/*"))
      as [E|E2].
    + assert (Hs : skipn k t = lit "/*" ++ skipn 2 (skipn k t)).
      { rewrite <- E. symmetry. apply firstn_skipn. }
      rewrite (@skip_comments_block t k _ Hs) in H. cbv zeta in H.
      apply result_inj in H. destruct H as (<- & <- & _).
      split; [reflexivity|]. right.
      set (k2 := k + 2 + scan_len f_block (skipn 2 (skipn k t))).
      assert (Hk3 : exists y,
                 (if negb (eof (mkLexer t k2)) then k2 + 2 else k2)
                 = k + (2 + y)).
      { destruct (negb (eof (mkLexer t k2)));
          eexists; unfold k2; rewrite <- ?Nat.add_assoc; reflexivity. }
      destruct Hk3 as [y ->]. rewrite slice_skipn, Hs.
      eexists. change (firstn (2 + y) (lit "/*" ++ skipn 2 (skipn k t)))
        with (lit "/*" ++ firstn y (skipn 2 (skipn k t))).
      reflexivity.
    + rewrite (skip_comments_other _ _ E1 E2) in H. discriminate H.
Qed.

(** ** Where the tokens of [next_token] come from *)

Lemma try_each_source fns :
  Forall (fun fn => forall l, span_ok l (fn l)) fns ->
  forall lx tok lx',
    try_each fns lx = (Some tok, lx') ->
    exists fn, In fn fns /\ fn lx = (Some tok, lx').
Proof.
  induction 1 as [|fn fns Hfn _ IH]; intros lx tok lx' H; [discriminate H|].
  cbn [try_each] in H. specialize (Hfn lx).
  destruct (fn lx) as [[tok1|] lx1] eqn:E.
  - exists fn. split; [left; reflexivity|]. rewrite E. exact H.
  - cbn [span_ok] in Hfn. subst lx1. rewrite set_i_same in H.
    destruct (IH _ _ _ H) as (fn' & Hin & Hfn').
    exists fn'. split; [right; exact Hin | exact Hfn'].
Qed.

Lemma next_token_sources (lx : Lexer) kind w lx' :
  next_token lx = ((kind, w), lx') ->
  (kind = EOF /\ w = []) \/
  skip_comments (skip_whitespace lx) = (Some (kind, w), lx') \/
  (exists fn, In fn recognizers /\
              fn (skip_whitespace lx) = (Some (kind, w), lx')) \/
  (kind = UNKNOWN /\ length w = 1).
Proof.
  unfold next_token. destruct (eof lx); cbn [negb].
  2:{ destruct (skip_comments (skip_whitespace lx)) as [[com|] lx2] eqn:Ec.
      - intros H. inversion H; subst. right. left. reflexivity.
      - assert (Hc := skip_comments_ok (skip_whitespace lx)).
        rewrite Ec in Hc. cbn [span_ok] in Hc. subst lx2.
        destruct (eof (skip_whitespace lx)) eqn:Ee.
        + intros H. inversion H. left. split; reflexivity.
        + destruct (try_each recognizers (skip_whitespace lx))
            as [[tok|] lx3] eqn:Et.
          * intros H. inversion H; subst. right. right. left.
            apply (try_each_source recognizers_ok _ Et).
          * assert (Hr := try_each_ok recognizers_ok (skip_whitespace lx)).
            rewrite Et in Hr. cbn [span_ok] in Hr. subst lx3.
            intros H. inversion H; subst. right. right. right.
            split; [reflexivity|].
            destruct (skip_whitespace lx) as [t k].
            rewrite eof_skipn in Ee. rewrite peek0_skipn.
            destruct (skipn k t); [discriminate Ee | reflexivity]. }
  intros H. inversion H. left. split; reflexivity.
Qed.

Lemma recognizer_shape fn :
  In fn recognizers ->
  forall lx kind w lx',
    fn lx = (Some (kind, w), lx') ->
    token_shape kind w /\
    (kind = INTEGER -> stops is_dot (rest lx')) /\
    (kind = REAL -> stops chr_isdigit (rest lx')) /\
    (kind = KEYWORD \/ kind = IDENTIFIER -> stops ident_char (rest lx')) /\
    kind <> COMMENT /\ kind <> UNKNOWN /\ kind <> EOF.
Proof.
  unfold recognizers. intros Hin lx kind w lx' H.
  destruct Hin as [<- | [<- | [<- | [<- | [<- | []]]]]].
  - apply lex_real_shape in H. destruct H as (-> & Hs & Hr).
    repeat split; auto; try discriminate; intros [C|C]; discriminate C.
  - apply lex_integer_shape in H. destruct H as (-> & Hs & Hr).
    repeat split; auto; try discriminate; intros [C|C]; discriminate C.
  - apply lex_identifier_shape in H. destruct H as ([-> | ->] & Hs & Hr);
      repeat split; auto; try discriminate; try apply Hs.
  - apply lex_string_shape in H. destruct H as (-> & Hs).
    repeat split; auto; try discriminate; intros [C|C]; discriminate C.
  - apply lex_operator_or_separator_shape in H.
    destruct H as ([-> | ->] & Hs);
      repeat split; auto; try discriminate; intros [C|C]; discriminate C.
Qed.

(** X8.  Every token that [next_token] returns has the form of its kind: a
    keyword or identifier is a letter followed by letters, digits and
    underscores, and is a keyword exactly when it is in [KEYWORDS]; an
    integer is [0] or a digit from [1] to [9] followed by digits; a real is
    digits, a dot, digits and perhaps an exponent; an operator or separator
    is in its table; a string starts with a double quote, has no line feed
    and no other double quote than one that ends it; a comment starts with
    ["//"] and has no line feed, or starts with ["/*"]; an unknown token is
    one character; [EOF] has the empty lexeme. *)
Theorem X8_token_shape (lx : Lexer) kind w lx' :
  next_token lx = ((kind, w), lx') -> token_shape kind w.
Proof.
  intros H. apply next_token_sources in H.
  destruct H as [[-> ->] | [H | [(fn & Hin & H) | [-> Hw]]]].
  - reflexivity.
  - apply skip_comments_shape in H. destruct H as [-> H]. exact H.
  - apply (@recognizer_shape fn Hin _ _ _ _ H).
  - exact Hw.
Qed.

(** X9.  What follows a token: after an [INTEGER] the unread text does not
    start with a dot, after a [REAL] it does not start with a digit, and
    after a [KEYWORD] or [IDENTIFIER] it does not start with a letter, a
    digit or an underscore. *)
Theorem X9_token_is_followed_by (lx : Lexer) kind w lx' :
  next_token lx = ((kind, w), lx') ->
  (kind = INTEGER -> stops is_dot (rest lx')) /\
  (kind = REAL -> stops chr_isdigit (rest lx')) /\
  (kind = KEYWORD \/ kind = IDENTIFIER -> stops ident_char (rest lx')).
Proof.
  intros H. apply next_token_sources in H.
  destruct H as [[-> ->] | [H | [(fn & Hin & H) | [-> Hw]]]].
  - repeat split; try discriminate. intros [C|C]; discriminate C.
  - apply skip_comments_shape in H. destruct H as [-> _].
    repeat split; try discriminate. intros [C|C]; discriminate C.
  - destruct (@recognizer_shape fn Hin _ _ _ _ H) as (_ & H1 & H2 & H3 & _).
    repeat split; assumption.
  - repeat split; try discriminate. intros [C|C]; discriminate C.
Qed.

(** X10.  The real recognizer takes every text of the form of a real
    number whole: digits, a dot, digits and perhaps an exponent (the letter
    [e] or [E], perhaps a sign, digits), when no digit follows and, if
    there is no exponent, no [e] or [E] follows. *)
Theorem X10_lex_real_accepts (t : str) (k : nat) (ip fp ex post : str) :
  skipn k t = ip ++ lit "." ++ fp ++ ex ++ post ->
  digits1 ip -> digits1 fp -> exponent_shape ex ->
  stops chr_isdigit post -> (ex = [] -> stops is_exp post) ->
  let w := ip ++ lit "." ++ fp ++ ex in
  lex_real (mkLexer t k) = (Some (REAL, w), mkLexer t (k + length w)).
Proof.
  intros Hs Hip Hfp Hex Hpost Hnoexp w.
  destruct Hex as [-> | (e & sign & dp & -> & He & Hsign & Hdp)].
  - unfold w. rewrite app_nil_r. cbn [app] in Hs.
    apply (@lex_real_plain t k ip fp post Hs Hip Hfp Hpost (Hnoexp eq_refl)).
  - apply (@lex_real_exponent t k ip fp e sign dp post); try assumption.
    rewrite Hs, <- ?app_assoc. cbn [app]. rewrite <- ?app_assoc.
    reflexivity.
Qed.

(** X11.  The real recognizer gives up the whole number, and leaves the
    lexer as it was, when no digit follows the dot, and when the letter of
    an exponent, with or without a sign, is not followed by a digit. *)
Theorem X11_lex_real_rejects (t : str) (k : nat) (ip : str) :
  digits1 ip ->
  (forall post,
     skipn k t = ip ++ lit "." ++ post -> stops chr_isdigit post ->
     lex_real (mkLexer t k) = (None, mkLexer t k)) /\
  (forall fp e sign post,
     skipn k t = ip ++ lit "." ++ fp ++ e :: sign ++ post ->
     digits1 fp -> is_exp e = true -> In sign [[]; lit "+"; lit "-"] ->
     (sign = [] -> stops is_sign post) -> stops chr_isdigit post ->
     lex_real (mkLexer t k) = (None, mkLexer t k)).
Proof.
  intros Hip. split.
  - intros post Hs Hpost.
    apply (@lex_real_no_fraction t k ip post Hs Hip Hpost).
  - intros fp e sign post Hs Hfp He Hsign Hnosign Hpost.
    apply (@lex_real_bad_exponent t k ip fp e sign post); assumption.
Qed.

Lemma nonzero_digit_untabled (d : char) :
  nonzero_digit d ->
  N.eqb d 34 = false /\
  (forall x, mem (d :: x) MULTI_CHAR_OPS = false) /\
  mem [d] SINGLE_CHAR_OPS = false /\ mem [d] SEPARATORS = false.
Proof.
  unfold nonzero_digit. cbn [lit list_ascii_of_string map In].
  intros H.
  repeat (destruct H as [H|H];
          [subst d; repeat split; try reflexivity;
           intros x; unfold mem; cbn; rewrite ?andb_false_l; reflexivity|]).
  contradiction.
Qed.

(** X12.  A run of digits led by a digit from [1] to [9] and followed by a
    dot is either the head of a real number or no number at all: when the
    real recognizer returns nothing there, [next_token] returns the first
    digit alone, as [UNKNOWN]. *)
Theorem X12_dotted_digits_unknown
        (t : str) (k : nat) (d : char) (ds post : str) :
  skipn k t = d :: ds ++ lit "." ++ post ->
  nonzero_digit d -> forallb chr_isdigit ds = true ->
  fst (lex_real (mkLexer t k)) = None ->
  next_token (mkLexer t k) = ((UNKNOWN, [d]), mkLexer t (k + 1)).
Proof.
  intros Hs Hd Hds Hreal.
  destruct (nonzero_digit_facts Hd) as (Hd1 & Hsp & Hsl & _ & _).
  destruct (@nonzero_digit_untabled d Hd) as (Hq & Hm & Hs1 & Hs0).
  rewrite (@next_token_dispatch _ _ _ _ Hs Hsp Hsl).
  assert (Hall : try_each recognizers (mkLexer t k) = (None, mkLexer t k)).
  { unfold recognizers.
    rewrite try_each_none.
    2:{ assert (E := @span_ok_none lex_real (mkLexer t k)
                       (lex_real_ok (mkLexer t k)) Hreal).
        destruct (lex_real (mkLexer t k)) as [o l]. cbn in Hreal, E.
        subst. reflexivity. }
    rewrite try_each_none.
    2:{ rewrite (@lex_integer_nonzero t k d ds (lit "." ++ post) Hs Hd Hds
                   eq_refl). reflexivity. }
    rewrite try_each_none.
    2:{ unfold lex_identifier. rewrite peek0_skipn, Hs. cbn [firstn].
        rewrite is_letter_single.
        destruct (chr_isalpha d) eqn:E; [|reflexivity].
        apply letter_not_digit in E. congruence. }
    rewrite try_each_none.
    2:{ unfold lex_string. rewrite peek0_skipn, Hs. cbn [firstn].
        unfold dquote. rewrite str_eqb_single, Hq. reflexivity. }
    rewrite try_each_none; [reflexivity|].
    unfold lex_operator_or_separator. cbv zeta.
    rewrite peek0_skipn, Hs. cbn [firstn app].
    rewrite Hm, Hs1, Hs0. reflexivity. }
  rewrite Hall, peek0_skipn, Hs. reflexivity.
Qed.

(** X13.  With the cursor at ["//"], [body] the characters after it up to
    the first line feed or the end of the text, and [post] what follows:
    the comment recognizer returns a [COMMENT] with the lexeme ["//"] and
    [body], and [post], with its line feed, is left unread. *)
Theorem X13_line_comment (t : str) (k : nat) (body post : str) :
  skipn k t = lit "//" ++ body ++ post ->
  forallb line_char body = true -> stops line_char post ->
  skip_comments (mkLexer t k)
  = (Some (COMMENT, lit "//" ++ body), mkLexer t (k + 2 + length body)) /\
  rest (mkLexer t (k + 2 + length body)) = post.
Proof.
  intros Hs Hb Hp.
  rewrite (@skip_comments_line t k (body ++ post) Hs). cbv zeta.
  rewrite (@take_while_run line_char body post Hb Hp).
  replace (k + length (lit "//" ++ body)) with (k + 2 + length body)
    by (rewrite length_app; cbn; lia).
  split; [reflexivity|].
  replace (k + 2 + length body) with (k + length (lit "//" ++ body))
    by (rewrite length_app; cbn; lia).
  apply rest_after. rewrite Hs, <- ?app_assoc. reflexivity.
Qed.

(** ** Operators and separators *)

Lemma is_prefix_firstn (op s : str) :
  is_prefix op s = true -> firstn (length op) s = op.
Proof.
  revert s. induction op as [|c op IH]; intros s H; [reflexivity|].
  destruct s as [|x s]; [discriminate H|]. cbn in H |- *.
  apply andb_true_iff in H. destruct H as [Hc H].
  apply N.eqb_eq in Hc. subst x. f_equal. apply IH, H.
Qed.

Lemma firstn_is_prefix (m : nat) (s : str) : is_prefix (firstn m s) s = true.
Proof.
  revert s. induction m as [|m IH]; intros [|x s]; cbn; try reflexivity.
  rewrite N.eqb_refl. apply IH.
Qed.

Lemma two_is_firstn (s : str) :
  firstn 1 s ++ firstn 1 (skipn 1 s) = firstn 2 s.
Proof. destruct s as [|a [|b s]]; reflexivity. Qed.

Lemma table_lengths :
  Forall (fun op => length op = 2) MULTI_CHAR_OPS /\
  Forall (fun op => length op = 1) SINGLE_CHAR_OPS /\
  Forall (fun op => length op = 1) SEPARATORS.
Proof. repeat split; repeat constructor. Qed.

(** X14.  Longest match over the operator and separator tables: when some
    entry of the tables starts the unread text, the recognizer returns an
    entry of the tables that starts the unread text and is at least as
    long, and moves the cursor behind it. *)
Theorem X14_operator_longest_match (lx : Lexer) (op : str) :
  In op TABLES -> is_prefix op (rest lx) = true ->
  exists kind w,
    lex_operator_or_separator lx = (Some (kind, w), advance lx (length w)) /\
    In w TABLES /\ is_prefix w (rest lx) = true /\ length op <= length w.
Proof.
  destruct table_lengths as (L2 & L1 & L0).
  rewrite Forall_forall in L2, L1, L0.
  destruct lx as [t k]. unfold rest, TABLES. cbn [text i].
  intros Hin Hpre. unfold lex_operator_or_separator. cbv zeta.
  rewrite peek0_skipn, peek_skipn, (Nat.add_comm k 1), <- skipn_skipn.
  rewrite two_is_firstn.
  set (s := skipn k t) in *.
  destruct (mem (firstn 2 s) MULTI_CHAR_OPS) eqn:E2.
  { apply mem_In in E2. exists OPERATOR, (firstn 2 s).
    rewrite (L2 _ E2). split; [reflexivity|].
    split; [apply in_or_app; left; exact E2|].
    split; [apply firstn_is_prefix|].
    apply in_app_or in Hin. destruct Hin as [Hin|Hin].
    - rewrite (L2 _ Hin). lia.
    - apply in_app_or in Hin. destruct Hin as [Hin|Hin];
        [rewrite (L1 _ Hin) | rewrite (L0 _ Hin)]; lia. }
  apply in_app_or in Hin. destruct Hin as [Hin|Hin].
  { apply is_prefix_firstn in Hpre. rewrite (L2 _ Hin) in Hpre.
    rewrite Hpre in E2. apply mem_In in Hin. congruence. }
  assert (Hone : length op = 1).
  { apply in_app_or in Hin. destruct Hin as [Hin|Hin]; auto. }
  assert (Hch : firstn 1 s = op).
  { rewrite <- Hone. apply is_prefix_firstn, Hpre. }
  rewrite Hch.
  destruct (mem op SINGLE_CHAR_OPS) eqn:E1.
  { exists OPERATOR, op. rewrite Hone. split; [reflexivity|].
    split; [apply in_or_app; right; apply in_or_app; left;
            apply mem_In, E1|].
    split; [exact Hpre | lia]. }
  apply in_app_or in Hin. destruct Hin as [Hin|Hin].
  { apply mem_In in Hin. congruence. }
  apply mem_In in Hin. rewrite Hin.
  exists SEPARATOR, op. rewrite Hone. split; [reflexivity|].
  split; [apply in_or_app; right; apply in_or_app; right;
          apply mem_In, Hin|].
  split; [exact Hpre | lia].
Qed.

(** X15.  A slash opens a comment only before a slash or a star: followed
    by any other character, or by nothing, it is the operator ["/"]. *)
Theorem X15_lone_slash_is_operator (t : str) (k : nat) (post : str) :
  skipn k t = lit "/" ++ post -> stops is_slash_or_star post ->
  next_token (mkLexer t k) = ((OPERATOR, lit "/"), mkLexer t (k + 1)).
Proof.
  intros Hs Hp. change (lit "/" ++ post) with (47%N :: post) in Hs.
  assert (Hx1 : str_eqb (firstn 1 post) (lit "/") = false /\
                str_eqb (firstn 1 post) (lit "*") = false).
  { destruct post as [|c post]; [split; reflexivity|].
    cbn [firstn]. change (lit "/") with [47%N]. change (lit "*") with [42%N].
    rewrite !str_eqb_single. cbn in Hp. unfold is_slash_or_star in Hp.
    apply orb_false_iff in Hp. exact Hp. }
  destruct Hx1 as [Hx1 Hx2].
  assert (Hc : skip_comments (mkLexer t k) = (None, mkLexer t k)).
  { unfold skip_comments.
    rewrite peek0_skipn, peek_skipn, (@skipn_after _ _ _ _ Hs), Hs.
    change (firstn 1 (47%N :: post)) with [47%N].
    change (skipn 1 (47%N :: post)) with post.
    rewrite Hx1, Hx2, !andb_false_r. reflexivity. }
  unfold next_token. rewrite eof_skipn, Hs. cbn [negb].
  rewrite skip_whitespace_eq, Hs. cbn [scan_len]. rewrite f_space_cons.
  change (chr_isspace 47%N) with false. cbv iota.
  rewrite Nat.add_0_r, Hc, eof_skipn, Hs.
  unfold recognizers.
  rewrite try_each_none by (apply lex_real_not_digit; rewrite Hs; reflexivity).
  rewrite try_each_none
    by (apply lex_integer_not_digit; rewrite Hs; reflexivity).
  rewrite try_each_none
    by (unfold lex_identifier; rewrite peek0_skipn, Hs; reflexivity).
  rewrite try_each_none
    by (unfold lex_string; rewrite peek0_skipn, Hs; reflexivity).
  rewrite (@try_each_some _ _ _ (OPERATOR, lit "/") (mkLexer t (k + 1)));
    [reflexivity|].
  unfold lex_operator_or_separator. cbv zeta.
  rewrite peek0_skipn, peek_skipn, (@skipn_after _ _ _ _ Hs), Hs.
  change (firstn 1 (47%N :: post)) with [47%N].
  change (skipn 1 (47%N :: post)) with post.
  replace (mem ([47%N] ++ firstn 1 post) MULTI_CHAR_OPS) with false.
  - reflexivity.
  - unfold mem. cbn. rewrite ?andb_false_l. reflexivity.
Qed.

(** ** The driver *)

Lemma lex_file_loop_run (fuel : nat) :
  forall lx toks rows,
    run fuel lx = Some toks ->
    lex_file_loop fuel lx rows = Some (RaisedNameError (rows ++ rows_of toks)).
Proof.
  induction fuel as [|fuel IH]; intros lx toks rows H; [discriminate H|].
  cbn [run lex_file_loop] in *.
  destruct (next_token lx) as [[kind lex] lx']. cbn [fst] in H.
  destruct (TokenType_eqb kind EOF) eqn:Ee.
  - injection H as <-. unfold rows_of. cbn [filter fst].
    rewrite Ee. cbn. rewrite app_nil_r. reflexivity.
  - destruct (run fuel lx') as [toks'|] eqn:Er; [|discriminate H].
    injection H as <-. unfold rows_of. cbn [filter fst]. rewrite Ee.
    destruct (TokenType_eqb kind COMMENT) eqn:Ec; cbn [negb andb].
    + apply IH, Er.
    + rewrite (IH _ _ _ Er). cbn [map fst snd]. unfold rows_of.
      rewrite <- app_assoc. reflexivity.
Qed.

(** X16.  [lex_file] never writes its output: on every text it has read,
    its loop comes to the [EOF] token and raises [NameError] there, having
    collected the rows of the tokens that are not comments. *)
Theorem X16_lex_file_raises (t : str) :
  exists toks,
    tokenize t = Some toks /\
    lex_file t = Some (RaisedNameError (rows_of toks)).
Proof.
  destruct (@run_spec (S (length t)) (Lexer_init t)) as (toks & Hr & _).
  - cbn. lia.
  - unfold n. cbn. lia.
  - exists (toks ++ [(EOF, [])]). split; [exact Hr|].
    unfold lex_file. rewrite (lex_file_loop_run _ _ [] Hr). reflexivity.
Qed.

(** ** The cursor *)

(** X17.  Calls of [next_token] never change the text and never move the
    cursor back or past the end of the text. *)
Theorem X17_cursor_stays_in_text (k : nat) (lx : Lexer) :
  i lx <= n lx ->
  text (after_calls k lx) = text lx /\
  i lx <= i (after_calls k lx) /\ i (after_calls k lx) <= n lx.
Proof.
  revert lx. induction k as [|k IH]; intros lx Hi;
    [cbn [after_calls]; split; [reflexivity | lia]|].
  cbn [after_calls].
  destruct (next_token lx) as [[kind lexeme] lx'] eqn:E. cbn [snd].
  apply next_token_ok in E.
  destruct E as (Ht & H1 & H2 & H3 & _).
  assert (Hn : n lx' = n lx) by (unfold n; rewrite Ht; reflexivity).
  destruct (IH lx') as (Ht' & Hi1 & Hi2); [lia|].
  rewrite Ht', Ht. split; [reflexivity | lia].
Qed.

(** X18.  At the cursor [peek] returns the empty string exactly at end of
    input, and otherwise the first character not yet read, the one that
    [advance] by one steps over; and looking one character ahead returns
    what looking at the cursor returns after [advance] by one. *)
Theorem X18_peek_at_cursor (lx : Lexer) :
  (eof lx = true <-> peek lx 0 = []) /\
  (eof lx = false ->
   exists c, peek lx 0 = [c] /\ rest lx = c :: rest (advance lx 1)) /\
  peek lx 1 = peek (advance lx 1) 0.
Proof.
  destruct lx as [t j]. unfold advance, set_i, rest. cbn [text i].
  rewrite eof_skipn, peek0_skipn, peek0_skipn, peek_skipn.
  split; [|split; [|reflexivity]].
  - destruct (skipn j t); split; intros H; try reflexivity; discriminate H.
  - destruct (skipn j t) as [|c s] eqn:E; [discriminate|]. intros _.
    exists c. split; [reflexivity|].
    rewrite Nat.add_1_r, (@skipn_S_cons t j c s E). reflexivity.
Qed.

(** ** Words and integers, whole *)

Lemma keywords_are_words : Forall ident_shape KEYWORDS.
Proof.
  unfold KEYWORDS. cbn [map].
  repeat constructor;
    (eexists; eexists; split;
     [cbv [lit list_ascii_of_string map]; cbn; reflexivity
     | split; reflexivity]).
Qed.

(** X19.  A word, that is a letter followed by letters, digits and
    underscores, with none of these after it, is returned whole: as
    [KEYWORD] when it is in [KEYWORDS] and as [IDENTIFIER] otherwise; and
    every entry of [KEYWORDS] is such a word. *)
Theorem X19_words_whole (t : str) (k : nat) (w post : str) :
  skipn k t = w ++ post -> ident_shape w -> stops ident_char post ->
  next_token (mkLexer t k)
  = ((if mem w KEYWORDS then KEYWORD else IDENTIFIER, w),
     mkLexer t (k + length w)) /\
  Forall ident_shape KEYWORDS.
Proof.
  intros Hs (l & tail & -> & Hl & Htail) Hpost.
  split; [|exact keywords_are_words].
  assert (E := @next_token_identifier t k l (tail ++ post) Hs Hl).
  cbv zeta in E.
  rewrite (@take_while_run ident_char tail post Htail Hpost) in E.
  exact E.
Qed.

(** X20.  An integer, that is [0] or a digit from [1] to [9] followed by
    digits, with neither a digit nor a dot after it, is returned whole as
    [INTEGER]. *)
Theorem X20_integers_whole (t : str) (k : nat) (w post : str) :
  skipn k t = w ++ post -> integer_shape w ->
  stops chr_isdigit post -> stops is_dot post ->
  next_token (mkLexer t k) = ((INTEGER, w), mkLexer t (k + length w)).
Proof.
  intros Hs [-> | (d & ds & -> & Hd & Hds)] Hp1 Hp2.
  - change (lit "0" ++ post) with (48%N :: [] ++ post) in Hs.
    rewrite (@next_token_dispatch _ _ _ _ Hs) by reflexivity.
    unfold recognizers.
    rewrite try_each_none
      by (apply (@lex_real_no_dot _ _ _ _ _ Hs); auto; reflexivity).
    rewrite (@try_each_some _ _ _ (INTEGER, lit "0") (mkLexer t (k + 1)));
      [reflexivity|].
    rewrite (@lex_integer_zero t k post Hs).
    destruct post as [|c post]; [reflexivity|].
    cbn [firstn]. change (lit ".") with [46%N]. rewrite str_eqb_single.
    cbn in Hp2. unfold is_dot in Hp2. rewrite Hp2. reflexivity.
  - apply (@next_token_integer t k d ds post Hs Hd Hds Hp1 Hp2).
Qed.

(** ** Digits led by a zero *)

Lemma first_not_dot (post : str) :
  stops is_dot post -> str_eqb (firstn 1 post) (lit ".") = false.
Proof.
  destruct post as [|c post]; intros H; [reflexivity|]. cbn [firstn].
  change (lit ".") with [46%N]. rewrite str_eqb_single. exact H.
Qed.

Lemma next_token_zero (t : str) (k : nat) (post : str) :
  skipn k t = 48%N :: post -> stops is_dot post ->
  fst (lex_real (mkLexer t k)) = None ->
  next_token (mkLexer t k) = ((INTEGER, lit "0"), mkLexer t (k + 1)).
Proof.
  intros Hs Hp Hr.
  rewrite (@next_token_dispatch t k 48%N post Hs) by reflexivity.
  unfold recognizers.
  assert (E := @span_ok_none lex_real (mkLexer t k) (lex_real_ok _) Hr).
  rewrite try_each_none.
  2:{ destruct (lex_real (mkLexer t k)) as [[tok|] l];
        cbn [fst snd] in Hr, E; [discriminate|].
      subst l. reflexivity. }
  rewrite (@try_each_some lex_integer _ (mkLexer t k) (INTEGER, lit "0")
             (mkLexer t (k + 1))); [reflexivity|].
  rewrite (@lex_integer_zero t k post Hs), (@first_not_dot post Hp).
  reflexivity.
Qed.

Lemma next_token_real_zero (t : str) (k : nat) (s : str) tok lx' :
  skipn k t = 48%N :: s ->
  lex_real (mkLexer t k) = (Some tok, lx') ->
  next_token (mkLexer t k) = (tok, lx').
Proof.
  intros Hs Hr.
  rewrite (@next_token_dispatch t k 48%N s Hs) by reflexivity.
  unfold recognizers.
  rewrite (@try_each_some lex_real _ (mkLexer t k) tok lx' Hr).
  reflexivity.
Qed.

(** C3, as amended.  At a [0] that no dot follows the integer recognizer
    returns that [0] alone as an [INTEGER].  [next_token] returns this
    [INTEGER "0"] when the real recognizer, which is tried first, returns
    nothing there; when the real recognizer returns a token, that [REAL] is
    what [next_token] returns.  So a run of digits led by [0], the [0] not
    followed by a dot, gives [INTEGER "0"] first when no dot follows the
    run, and when a dot does but no digit follows the dot; it is one [REAL]
    with the dot and the digits of the fraction when a dot, a digit and no
    exponent follow.  Tokenizing ["0123"] yields [INTEGER "0"],
    [INTEGER "123"] and [EOF]; tokenizing ["123"] yields [INTEGER "123"]
    and [EOF]. *)
Theorem C3_leading_zero_amended :
  (forall t k post,
     skipn k t = 48%N :: post -> stops is_dot post ->
     lex_integer (mkLexer t k)
     = (Some (INTEGER, lit "0"), mkLexer t (k + 1))) /\
  (forall t k post,
     skipn k t = 48%N :: post -> stops is_dot post ->
     fst (lex_real (mkLexer t k)) = None ->
     next_token (mkLexer t k) = ((INTEGER, lit "0"), mkLexer t (k + 1))) /\
  (forall t k post tok lx',
     skipn k t = 48%N :: post ->
     lex_real (mkLexer t k) = (Some tok, lx') ->
     next_token (mkLexer t k) = (tok, lx') /\ fst tok = REAL) /\
  (forall ds post,
     forallb chr_isdigit ds = true -> stops chr_isdigit post ->
     stops is_dot (ds ++ post) ->
     stops is_dot post \/
     (exists post', post = lit "." ++ post' /\ stops chr_isdigit post') ->
     next_token (Lexer_init (48%N :: ds ++ post))
     = ((INTEGER, lit "0"), mkLexer (48%N :: ds ++ post) 1)) /\
  (forall ds fp post,
     forallb chr_isdigit ds = true -> digits1 fp ->
     stops chr_isdigit post -> stops is_exp post ->
     next_token (Lexer_init (48%N :: ds ++ lit "." ++ fp ++ post))
     = ((REAL, 48%N :: ds ++ lit "." ++ fp),
        mkLexer (48%N :: ds ++ lit "." ++ fp ++ post)
                (length (48%N :: ds ++ lit "." ++ fp)))) /\
  tokenize (lit "0123")
  = Some [(INTEGER, lit "0"); (INTEGER, lit "123"); (EOF, [])] /\
  tokenize (lit "123") = Some [(INTEGER, lit "123"); (EOF, [])].
Proof.
  assert (H0 : chr_isdigit 48%N = true) by reflexivity.
  split; [|split; [|split; [|split; [|split; [|split]]]]].
  - intros t k post Hs Hp.
    rewrite (@lex_integer_zero t k post Hs), (@first_not_dot post Hp).
    reflexivity.
  - exact next_token_zero.
  - intros t k post tok lx' Hs Hr. split.
    + exact (@next_token_real_zero t k post tok lx' Hs Hr).
    + destruct tok as [kind w].
      exact (proj1 (@lex_real_shape (mkLexer t k) kind w lx' Hr)).
  - intros ds post Hds Hp1 Hdot Hcase. unfold Lexer_init.
    set (t := 48%N :: ds ++ post).
    assert (Hs : skipn 0 t = 48%N :: ds ++ post) by reflexivity.
    apply (@next_token_zero t 0 (ds ++ post) Hs Hdot).
    destruct Hcase as [Hp2 | (post' & -> & Hp')].
    + rewrite (@lex_real_no_dot t 0 48%N ds post Hs H0 Hds Hp1 Hp2).
      reflexivity.
    + rewrite (@lex_real_no_fraction t 0 (48%N :: ds) post');
        [reflexivity | reflexivity | | exact Hp'].
      split; [discriminate|]. cbn [forallb]. rewrite H0. exact Hds.
  - intros ds fp post Hds Hfp Hp1 Hp2. unfold Lexer_init.
    set (t := 48%N :: ds ++ lit "." ++ fp ++ post).
    assert (Hs : skipn 0 t = (48%N :: ds) ++ lit "." ++ fp ++ post)
      by reflexivity.
    assert (Hip : digits1 (48%N :: ds)).
    { split; [discriminate|]. cbn [forallb]. rewrite H0. exact Hds. }
    apply (@next_token_real_zero t 0 (ds ++ lit "." ++ fp ++ post));
      [reflexivity|].
    exact (@lex_real_plain t 0 (48%N :: ds) fp post Hs Hip Hfp Hp1 Hp2).
  - vm_compute. reflexivity.
  - vm_compute. reflexivity.
Qed.

(** ** Sample texts *)

Example tokenize_empty : tokenize [] = Some [(EOF, [])].
Proof. reflexivity. Qed.

Example tokenize_real :
  tokenize (lit "3.14") = Some [(REAL, lit "3.14"); (EOF, [])].
Proof. vm_compute. reflexivity. Qed.

Example tokenize_real_exponent :
  tokenize (lit "6.02e+23 1.5e")
  = Some [(REAL, lit "6.02e+23"); (UNKNOWN, lit "1"); (UNKNOWN, lit ".");
          (INTEGER, lit "5"); (IDENTIFIER, lit "e"); (EOF, [])].
Proof. vm_compute. reflexivity. Qed.

(** The real recognizer comes first: a [0] that leads the digits of a real
    number is part of it. *)
Example tokenize_zero_led_real :
  tokenize (lit "01.5") = Some [(REAL, lit "01.5"); (EOF, [])].
Proof. vm_compute. reflexivity. Qed.

Example tokenize_line_comment :
  tokenize (lit "// comment" ++ newline ++ lit "int")
  = Some [(COMMENT, lit "// comment"); (KEYWORD, lit "int"); (EOF, [])].
Proof. vm_compute. reflexivity. Qed.

Example tokenize_open_string :
  tokenize (dquote ++ lit "abc")
  = Some [(STRING, dquote ++ lit "abc"); (EOF, [])].
Proof. vm_compute. reflexivity. Qed.

Example tokenize_statement :
  tokenize (lit "if (a<=b) { x = y_1 % 2; } /* done")
  = Some [(KEYWORD, lit "if"); (SEPARATOR, lit "("); (IDENTIFIER, lit "a");
          (OPERATOR, lit "<="); (IDENTIFIER, lit "b"); (SEPARATOR, lit ")");
          (SEPARATOR, lit "{"); (IDENTIFIER, lit "x"); (OPERATOR, lit "=");
          (IDENTIFIER, lit "y_1"); (OPERATOR, lit "%"); (INTEGER, lit "2");
          (SEPARATOR, lit ";"); (SEPARATOR, lit "}");
          (COMMENT, lit "/* done"); (EOF, [])].
Proof. vm_compute. reflexivity. Qed.

End Lexer.

(** ** The claims at sample texts *)

#[local] Existing Instance ascii_db.

(** C2, as first stated, fails: the tokens of ["3."] are not [INTEGER "3"],
    [UNKNOWN "."] and [EOF]; the [3] is not returned as an [INTEGER]. *)
Lemma C2_three_dot_counterexample :
  tokenize (db := ascii_db) (lit "3.")
  <> Some [(INTEGER, lit "3"); (UNKNOWN, lit "."); (EOF, [])].
Proof. vm_compute. discriminate. Qed.

(** C3: at the head of ["01.5"] the [0] has no dot behind it, and the
    token returned is the one [REAL "01.5"], not [INTEGER "0"]. *)
Lemma C3_leading_zero_counterexample :
  stops is_dot (lit "1.5") /\
  next_token (db := ascii_db) (Lexer_init (lit "01.5"))
  = ((REAL, lit "01.5"), mkLexer (lit "01.5") 4) /\
  fst (next_token (db := ascii_db) (Lexer_init (lit "01.5")))
  <> (INTEGER, lit "0") /\
  tokenize (db := ascii_db) (lit "01.5")
  = Some [(REAL, lit "01.5"); (EOF, [])].
Proof.
  split; [reflexivity|]. split; [vm_compute; reflexivity|].
  split; [vm_compute; discriminate | vm_compute; reflexivity].
Qed.

(** C3, as amended, at the [0] of ["x=0;"], at the head of ["01.x"], where
    the real recognizer returns nothing, at the head of ["01.5"], where it
    returns a token, and on the texts ["012+"], ["01.x"] and ["01.5;"]. *)
Lemma C3_leading_zero_amended_witness :
  lex_integer (db := ascii_db) (mkLexer (lit "x=0;") 2)
  = (Some (INTEGER, lit "0"), mkLexer (lit "x=0;") 3) /\
  next_token (db := ascii_db) (mkLexer (lit "01.x") 0)
  = ((INTEGER, lit "0"), mkLexer (lit "01.x") 1) /\
  (next_token (db := ascii_db) (mkLexer (lit "01.5") 0)
   = ((REAL, lit "01.5"), mkLexer (lit "01.5") 4) /\
   fst (REAL, lit "01.5") = REAL) /\
  next_token (db := ascii_db) (Lexer_init (lit "012+"))
  = ((INTEGER, lit "0"), mkLexer (lit "012+") 1) /\
  next_token (db := ascii_db) (Lexer_init (lit "01.x"))
  = ((INTEGER, lit "0"), mkLexer (lit "01.x") 1) /\
  next_token (db := ascii_db) (Lexer_init (lit "01.5;"))
  = ((REAL, lit "01.5"), mkLexer (lit "01.5;") 4).
Proof.
  split; [|split; [|split; [|split; [|split]]]].
  - apply (proj1 (@C3_leading_zero_amended ascii_db)
             (lit "x=0;") 2 (lit ";")).
    + reflexivity.
    + reflexivity.
  - apply (proj1 (proj2 (@C3_leading_zero_amended ascii_db))
             (lit "01.x") 0 (lit "1.x")).
    + reflexivity.
    + reflexivity.
    + reflexivity.
  - apply (proj1 (proj2 (proj2 (@C3_leading_zero_amended ascii_db)))
             (lit "01.5") 0 (lit "1.5") (REAL, lit "01.5")
             (mkLexer (lit "01.5") 4)).
    + reflexivity.
    + reflexivity.
  - apply (proj1 (proj2 (proj2 (proj2 (@C3_leading_zero_amended ascii_db))))
             (lit "12") (lit "+")).
    + reflexivity.
    + reflexivity.
    + reflexivity.
    + left. reflexivity.
  - apply (proj1 (proj2 (proj2 (proj2 (@C3_leading_zero_amended ascii_db))))
             (lit "1") (lit ".x")).
    + reflexivity.
    + reflexivity.
    + reflexivity.
    + right. exists (lit "x"). split; reflexivity.
  - apply (proj1 (proj2 (proj2 (proj2 (proj2
             (@C3_leading_zero_amended ascii_db)))))
             (lit "1") (lit "5") (lit ";")).
    + reflexivity.
    + split; [discriminate | reflexivity].
    + reflexivity.
    + reflexivity.
Defined.

(** C4 on ["x"], where the real and the integer recognizer return nothing
    and the identifier recognizer returns a token; on ["@"], where all five
    return nothing; and on [" x"], read from its start. *)
Lemma C4_failed_attempt_restores_witness :
  try_each (recognizers (db := ascii_db)) (Lexer_init (lit "x"))
  = try_each [lex_identifier (db := ascii_db); lex_string;
              lex_operator_or_separator]
             (Lexer_init (lit "x")) /\
  next_token (db := ascii_db) (Lexer_init (lit "@"))
  = ((UNKNOWN, lit "@"), mkLexer (lit "@") 1) /\
  try_each (recognizers (db := ascii_db)) (Lexer_init (lit "x"))
  = (Some (IDENTIFIER, lit "x"), mkLexer (lit "x") 1) /\
  next_token (db := ascii_db) (Lexer_init (lit " x"))
  = ((IDENTIFIER, lit "x"), mkLexer (lit " x") 2).
Proof.
  split; [|split; [|split]].
  - apply (proj1 (proj2 (proj2 (@C4_failed_attempt_restores ascii_db)))
             (Lexer_init (lit "x")) [lex_real; lex_integer]
             [lex_identifier; lex_string; lex_operator_or_separator]).
    + reflexivity.
    + repeat constructor.
  - apply (proj1 (proj2 (proj2 (proj2 (proj2
             (@C4_failed_attempt_restores ascii_db)))))
             (lit "@") 0 64%N []).
    + reflexivity.
    + reflexivity.
    + reflexivity.
    + repeat constructor.
  - apply (proj1 (proj2 (proj2 (proj2 (proj2 (proj2
             (@C4_failed_attempt_restores ascii_db))))))
             (Lexer_init (lit "x")) [lex_real; lex_integer]
             lex_identifier [lex_string; lex_operator_or_separator]).
    + reflexivity.
    + repeat constructor.
    + reflexivity.
  - apply (proj1 (proj2 (proj2 (proj2 (proj2 (proj2 (proj2
             (@C4_failed_attempt_restores ascii_db)))))))
             (Lexer_init (lit " x")) [lex_real; lex_integer]
             lex_identifier [lex_string; lex_operator_or_separator]).
    + reflexivity.
    + reflexivity.
    + reflexivity.
    + reflexivity.
    + repeat constructor.
    + reflexivity.
Defined.

(** C5 on ["/* b"], never closed, and at the comment of ["a /* b */ c"]. *)
Lemma C5_block_comment_witness :
  skip_comments (mkLexer (lit "/* b") 0)
  = (Some (COMMENT, lit "/* b"), mkLexer (lit "/* b") 4) /\
  skip_comments (mkLexer (lit "a /* b */ c") 2)
  = (Some (COMMENT, lit "/* b */"), mkLexer (lit "a /* b */ c") 9).
Proof.
  split.
  - apply (proj1 (@C5_block_comment (lit "/* b") 0 (lit " b") eq_refl)).
    intros j C. apply closes_at_skipn in C. destruct C as [r' C].
    destruct j as [|[|[|j]]]; discriminate C.
  - apply (proj2 (@C5_block_comment (lit "a /* b */ c") 2
                    (lit " b */ c") eq_refl) 3).
    + reflexivity.
    + intros j' Hj' C. apply closes_at_skipn in C. destruct C as [r' C].
      destruct j' as [|[|[|j']]]; [discriminate C .. | lia].
Defined.

(** C6 on an open string at the end of the text, on one cut by a line
    feed, and on a closed one. *)
Lemma C6_string_literal_witness :
  lex_string (mkLexer (dquote ++ lit "abc") 0)
  = (Some (STRING, dquote ++ lit "abc"), mkLexer (dquote ++ lit "abc") 4) /\
  lex_string (mkLexer (dquote ++ lit "ab" ++ newline ++ lit "c") 0)
  = (Some (STRING, dquote ++ lit "ab"),
     mkLexer (dquote ++ lit "ab" ++ newline ++ lit "c") 3) /\
  lex_string (mkLexer (lit "s=" ++ dquote ++ lit "ab" ++ dquote ++ lit ";") 2)
  = (Some (STRING, dquote ++ lit "ab" ++ dquote),
     mkLexer (lit "s=" ++ dquote ++ lit "ab" ++ dquote ++ lit ";") 6).
Proof.
  split; [|split].
  - apply (proj1 (@C6_string_literal (dquote ++ lit "abc") 0
                    (lit "abc") [] eq_refl eq_refl)).
    left. reflexivity.
  - apply (proj1 (@C6_string_literal
                    (dquote ++ lit "ab" ++ newline ++ lit "c") 0
                    (lit "ab") (newline ++ lit "c") eq_refl eq_refl)).
    right. reflexivity.
  - apply (proj2 (@C6_string_literal
                    (lit "s=" ++ dquote ++ lit "ab" ++ dquote ++ lit ";") 2
                    (lit "ab") (dquote ++ lit ";") eq_refl eq_refl)).
    reflexivity.
Defined.

(** C8 on ["a "], read from its second character: the call returns [EOF],
    and so does the call after three more. *)
Lemma C8_eof_is_final_witness :
  next_token (db := ascii_db) (after_calls 3 (mkLexer (lit "a ") 2))
  = ((EOF, []), mkLexer (lit "a ") 2).
Proof.
  apply (proj2 (@C8_eof_is_final ascii_db) (mkLexer (lit "a ") 1) []).
  reflexivity.
Defined.

(** C9 on ["ab c"]: the first call moves the cursor from 0 to 2, and five
    calls are enough for its four characters. *)
Lemma C9_lexing_terminates_witness :
  (0 < 2 /\ 2 <= 4) /\
  exists toks,
    run (db := ascii_db) 5 (Lexer_init (lit "ab c"))
    = Some (toks ++ [(EOF, [])]) /\
    Forall (fun tok => fst tok <> EOF) toks /\
    length toks <= 4.
Proof.
  split.
  - apply (proj1 (@C9_lexing_terminates ascii_db)
             (Lexer_init (lit "ab c")) IDENTIFIER (lit "ab")
             (mkLexer (lit "ab c") 2)).
    + reflexivity.
    + discriminate.
  - apply (proj2 (@C9_lexing_terminates ascii_db) (lit "ab c") 5).
    cbn. lia.
Defined.

(** C10 on ["12ab"]. *)
Lemma C10_digits_then_letter_witness :
  next_token (db := ascii_db) (Lexer_init (lit "12ab"))
  = ((INTEGER, lit "12"), mkLexer (lit "12ab") 2) /\
  next_token (db := ascii_db) (mkLexer (lit "12ab") 2)
  = ((IDENTIFIER, lit "ab"), mkLexer (lit "12ab") 4).
Proof.
  assert (H := @C10_digits_then_letter ascii_db 49%N (lit "2") 97%N (lit "b")).
  destruct H as (H1 & H2 & _).
  - left. reflexivity.
  - reflexivity.
  - reflexivity.
  - split; [exact H1 | exact H2].
Defined.

(** ** The further properties at sample texts *)

(** X2 on ["ab cd"], from its third character. *)
Lemma X2_resume_is_fresh_start_witness :
  run 5 (mkLexer (lit "ab cd") 2) = run 5 (Lexer_init (lit " cd")).
Proof.
  apply (@X2_resume_is_fresh_start ascii_db (lit "ab cd") 2 5). cbn. lia.
Defined.

(** X3 on ["ab cd"]. *)
Lemma X3_tokenize_unfolds_witness :
  tokenize (lit "ab cd")
  = option_map (cons (IDENTIFIER, lit "ab")) (tokenize (lit " cd")).
Proof.
  apply (@X3_tokenize_unfolds ascii_db (lit "ab cd") (IDENTIFIER, lit "ab")
           (mkLexer (lit "ab cd") 2)).
  - reflexivity.
  - discriminate.
Defined.

(** X5 on ["x"] after a space and a tab. *)
Lemma X5_leading_blanks_ignored_witness :
  tokenize ([32%N; 9%N] ++ lit "x") = tokenize (lit "x").
Proof.
  apply (@X5_leading_blanks_ignored ascii_db [32%N; 9%N] (lit "x")).
  repeat constructor.
Defined.

(** X6 on ["a  "], behind the [a]. *)
Lemma X6_eof_iff_only_blanks_left_witness :
  blank (rest (mkLexer (lit "a  ") 1)).
Proof.
  apply (proj1 (@X6_eof_iff_only_blanks_left ascii_db
                  (mkLexer (lit "a  ") 1))).
  reflexivity.
Defined.

(** X7 on ["  ab"]. *)
Lemma X7_lexeme_starts_unblank_witness : stops chr_isspace (lit "ab").
Proof.
  apply (@X7_lexeme_starts_unblank ascii_db (Lexer_init (lit "  ab"))
           IDENTIFIER (lit "ab") (mkLexer (lit "  ab") 4)).
  reflexivity.
Defined.

(** X8 on ["3.14"]. *)
Lemma X8_token_shape_witness : token_shape REAL (lit "3.14").
Proof.
  apply (@X8_token_shape ascii_db (Lexer_init (lit "3.14")) REAL (lit "3.14")
           (mkLexer (lit "3.14") 4)).
  reflexivity.
Defined.

(** X9 on ["12+3"]. *)
Lemma X9_token_is_followed_by_witness :
  stops is_dot (rest (mkLexer (lit "12+3") 2)).
Proof.
  apply (proj1 (@X9_token_is_followed_by ascii_db (Lexer_init (lit "12+3"))
                  INTEGER (lit "12") (mkLexer (lit "12+3") 2) eq_refl)).
  reflexivity.
Defined.

(** X10 at the number of ["x=6.02e+23;"]. *)
Lemma X10_lex_real_accepts_witness :
  lex_real (mkLexer (lit "x=6.02e+23;") 2)
  = (Some (REAL, lit "6.02e+23"), mkLexer (lit "x=6.02e+23;") 10).
Proof.
  apply (@X10_lex_real_accepts ascii_db (lit "x=6.02e+23;") 2
           (lit "6") (lit "02") (lit "e+23") (lit ";")).
  - reflexivity.
  - split; [discriminate | reflexivity].
  - split; [discriminate | reflexivity].
  - right. exists 101%N, (lit "+"), (lit "23").
    split; [reflexivity|]. split; [reflexivity|].
    split; [right; left; reflexivity|].
    split; [discriminate | reflexivity].
  - reflexivity.
  - discriminate.
Defined.

(** X11 on ["3."] and on ["1.5e"]. *)
Lemma X11_lex_real_rejects_witness :
  lex_real (mkLexer (lit "3.") 0) = (None, mkLexer (lit "3.") 0) /\
  lex_real (mkLexer (lit "1.5e") 0) = (None, mkLexer (lit "1.5e") 0).
Proof.
  assert (D3 : digits1 (lit "3")) by (split; [discriminate | reflexivity]).
  assert (D1 : digits1 (lit "1")) by (split; [discriminate | reflexivity]).
  split.
  - apply (proj1 (@X11_lex_real_rejects ascii_db (lit "3.") 0 (lit "3") D3)
             []).
    + reflexivity.
    + exact I.
  - apply (proj2 (@X11_lex_real_rejects ascii_db (lit "1.5e") 0 (lit "1") D1)
             (lit "5") 101%N [] []).
    + reflexivity.
    + split; [discriminate | reflexivity].
    + reflexivity.
    + left. reflexivity.
    + intros _. exact I.
    + exact I.
Defined.

(** X12 on ["1.5e"]. *)
Lemma X12_dotted_digits_unknown_witness :
  next_token (Lexer_init (lit "1.5e"))
  = ((UNKNOWN, lit "1"), mkLexer (lit "1.5e") 1).
Proof.
  apply (@X12_dotted_digits_unknown ascii_db (lit "1.5e") 0 49%N []
           (lit "5e")).
  - reflexivity.
  - left. reflexivity.
  - reflexivity.
  - reflexivity.
Defined.

(** X13 on a comment that a line feed ends. *)
Lemma X13_line_comment_witness :
  skip_comments (mkLexer (lit "// c" ++ newline ++ lit "x") 0)
  = (Some (COMMENT, lit "// c"),
     mkLexer (lit "// c" ++ newline ++ lit "x") 4) /\
  rest (mkLexer (lit "// c" ++ newline ++ lit "x") 4) = newline ++ lit "x".
Proof.
  apply (@X13_line_comment (lit "// c" ++ newline ++ lit "x") 0
           (lit " c") (newline ++ lit "x")); reflexivity.
Defined.

(** X14 on ["<=1"], where both ["<"] and ["<="] start the text. *)
Lemma X14_operator_longest_match_witness :
  exists kind w,
    lex_operator_or_separator (Lexer_init (lit "<=1"))
    = (Some (kind, w), advance (Lexer_init (lit "<=1")) (length w)) /\
    In w TABLES /\ is_prefix w (rest (Lexer_init (lit "<=1"))) = true /\
    length (lit "<") <= length w.
Proof.
  apply (@X14_operator_longest_match (Lexer_init (lit "<=1")) (lit "<")).
  - unfold TABLES. apply in_or_app. right. apply in_or_app. left.
    apply mem_In. reflexivity.
  - reflexivity.
Defined.

(** X15 on ["/2"]. *)
Lemma X15_lone_slash_is_operator_witness :
  next_token (Lexer_init (lit "/2"))
  = ((OPERATOR, lit "/"), mkLexer (lit "/2") 1).
Proof.
  apply (@X15_lone_slash_is_operator ascii_db (lit "/2") 0 (lit "2"));
    reflexivity.
Defined.

(** X17 on ["ab cd"], after two calls. *)
Lemma X17_cursor_stays_in_text_witness :
  text (after_calls 2 (Lexer_init (lit "ab cd"))) = lit "ab cd" /\
  0 <= i (after_calls 2 (Lexer_init (lit "ab cd"))) /\
  i (after_calls 2 (Lexer_init (lit "ab cd"))) <= 5.
Proof.
  apply (@X17_cursor_stays_in_text ascii_db 2 (Lexer_init (lit "ab cd"))).
  cbn. lia.
Defined.

(** X18 at the first character of ["ab"]. *)
Lemma X18_peek_at_cursor_witness :
  exists c, peek (Lexer_init (lit "ab")) 0 = [c] /\
            rest (Lexer_init (lit "ab"))
            = c :: rest (advance (Lexer_init (lit "ab")) 1).
Proof.
  apply (proj1 (proj2 (@X18_peek_at_cursor (Lexer_init (lit "ab"))))).
  reflexivity.
Defined.

(** X19 on ["do;"] and on ["done;"]. *)
Lemma X19_words_whole_witness :
  next_token (Lexer_init (lit "do;"))
  = ((KEYWORD, lit "do"), mkLexer (lit "do;") 2) /\
  next_token (Lexer_init (lit "done;"))
  = ((IDENTIFIER, lit "done"), mkLexer (lit "done;") 4).
Proof.
  split.
  - apply (proj1 (@X19_words_whole ascii_db (lit "do;") 0 (lit "do") (lit ";")
                    eq_refl
                    (ex_intro _ 100%N
                       (ex_intro _ (lit "o")
                          (conj eq_refl (conj eq_refl eq_refl))))
                    eq_refl)).
  - apply (proj1 (@X19_words_whole ascii_db (lit "done;") 0 (lit "done")
                    (lit ";") eq_refl
                    (ex_intro _ 100%N
                       (ex_intro _ (lit "one")
                          (conj eq_refl (conj eq_refl eq_refl))))
                    eq_refl)).
Defined.

(** X20 on ["120)"]. *)
Lemma X20_integers_whole_witness :
  next_token (Lexer_init (lit "120)"))
  = ((INTEGER, lit "120"), mkLexer (lit "120)") 3).
Proof.
  apply (@X20_integers_whole ascii_db (lit "120)") 0 (lit "120") (lit ")")).
  - reflexivity.
  - right. exists 49%N, (lit "20").
    split; [reflexivity|]. split; [left; reflexivity | reflexivity].
  - reflexivity.
  - reflexivity.
Defined.
